(** * Employee inventory and dashboard pages: ledger reconciliation

    A shallow embedding of the reconciliation logic of
    [frontend-next/src/app/(dashboard)/employees/inventory/page.tsx]:
    the [load] callback (transaction normalisation and the fold that
    builds [byKey] and [rowsOut]), the [byEmployee] memo (time window,
    holder union, pruning, search, sort), the collapse list with its
    pages and links, the PDF and file exports, and of the dashboard
    page: its [load], the [kpis], [receivablesTrend] and
    [payrollPieData] memos and its two monthly exports.

    Conventions of the embedding.
    - A JavaScript [number] is an IEEE 754 double: the type [number]
      below, with the rounded arithmetic of the binary64 specification
      of the Standard Library.
    - The numbers that the code never calculates with, being database
      identifiers, HTTP statuses and lengths of arrays, are integers
      far below [2^53]; they are values of [Z], and the sum of two
      lengths is the sum of integers.
    - A JavaScript string is a [string] of 8-bit characters; the case
      and white-space functions act on the ASCII range.
    - [T | null | undefined] is [option T].
    - A JavaScript [Map] or [Set] is an insertion-ordered list.
    - The locale collation behind [String.prototype.localeCompare] and
      the date parser of the [dayjs] library are parameters. *)

From Stdlib Require Import ZArith List Bool Lia Ascii String.
From Stdlib Require Import Permutation Sorted ListSet DecimalString SpecFloat.
From Stdlib Require PrimFloat FloatOps.
Import ListNotations.

Local Open Scope Z_scope.
Local Open Scope list_scope.

(** ** JavaScript values *)

Module Js.

(** *** Numbers

    A JavaScript number is an IEEE 754 double.  The type and the
    arithmetic are those of the specification of binary64 in the
    Standard Library: [S754_finite s m e] is the number
    [(-1)^s * m * 2^e], and sums and differences are rounded to the
    nearest double, ties to even. *)

Definition prec : Z := 53.
Definition emax : Z := 1024.

Definition number : Type := spec_float.

Definition NaN : number := S754_nan.
Definition PosInf : number := S754_infinity false.
Definition NegInf : number := S754_infinity true.

(** The number that stands for the integer [z]: [z] itself up to
    [2^53], the nearest double beyond. *)
Definition Fin (z : Z) : number := binary_normalize prec emax z 0 false.

Definition number_dec (a b : number) : {a = b} + {a <> b}.
Proof.
  decide equality; first [apply Bool.bool_dec | apply Pos.eq_dec | apply Z.eq_dec].
Defined.

(** [Number.isNaN] *)
Definition isNaN (n : number) : bool :=
  match n with S754_nan => true | _ => false end.

(** [Number.isFinite] *)
Definition isFinite (n : number) : bool :=
  match n with
  | S754_zero _ | S754_finite _ _ _ => true
  | S754_infinity _ | S754_nan => false
  end.

(** [a + b] *)
Definition add (a b : number) : number := SFadd prec emax a b.

(** unary minus *)
Definition neg (a : number) : number := SFopp a.

(** [a - b] *)
Definition sub (a b : number) : number := SFsub prec emax a b.

(** [a < b]; every comparison with [NaN] is false. *)
Definition lt (a b : number) : bool := SFltb a b.

(** [a <= b] *)
Definition le (a b : number) : bool := SFleb a b.

(** [a > b] *)
Definition gt (a b : number) : bool := lt b a.

(** Truthiness of a number: [0], [-0] and [NaN] are falsy. *)
Definition truthy_num (n : number) : bool :=
  match n with
  | S754_zero _ | S754_nan => false
  | S754_infinity _ | S754_finite _ _ _ => true
  end.

(** [x ?? 0] followed by [Number(...)], for a field typed
    [number | null | undefined]. *)
Definition Number_or0 (x : option number) : number :=
  match x with Some n => n | None => Fin 0 end.

(** What [Array.prototype.sort] makes of the number that its
    comparator returns: below zero, above zero, or neither, [NaN]
    counting as zero. *)
Definition signum (n : number) : Z :=
  match n with
  | S754_zero _ | S754_nan => 0
  | S754_infinity s | S754_finite s _ _ => if s then -1 else 1
  end.

(** [String(z)] for a number that is an integer. *)
Definition String_of_integer (z : Z) : string :=
  NilZero.string_of_int (Z.to_int z).

(** *** Strings *)

(** Truthiness of a string: only the empty string is falsy. *)
Definition truthy (s : string) : bool :=
  match s with EmptyString => false | _ => true end.

(** [s || d] for a field typed [string | null | undefined]. *)
Definition or_else (s : option string) (d : string) : string :=
  match s with
  | Some x => if truthy x then x else d
  | None => d
  end.

(** [String(s || EmptyString)] *)
Definition or_empty (s : option string) : string := or_else s EmptyString.

Definition upper_char (c : ascii) : ascii :=
  let n := nat_of_ascii c in
  if ((97 <=? n) && (n <=? 122))%nat then ascii_of_nat (n - 32) else c.

Definition lower_char (c : ascii) : ascii :=
  let n := nat_of_ascii c in
  if ((65 <=? n) && (n <=? 90))%nat then ascii_of_nat (n + 32) else c.

Fixpoint map_string (f : ascii -> ascii) (s : string) : string :=
  match s with
  | EmptyString => EmptyString
  | String c r => String (f c) (map_string f r)
  end.

(** [s.toUpperCase()] *)
Definition toUpperCase : string -> string := map_string upper_char.

(** [s.toLowerCase()] *)
Definition toLowerCase : string -> string := map_string lower_char.

(** White space removed by [trim] and skipped by [parseInt]:
    TAB, LF, VT, FF, CR and SPACE. *)
Definition is_space (c : ascii) : bool :=
  let n := nat_of_ascii c in
  ((9 <=? n) && (n <=? 13) || (n =? 32))%nat.

Fixpoint trimStart (s : string) : string :=
  match s with
  | EmptyString => EmptyString
  | String c r => if is_space c then trimStart r else s
  end.

Fixpoint trimEnd (s : string) : string :=
  match s with
  | EmptyString => EmptyString
  | String c r =>
      match trimEnd r with
      | EmptyString => if is_space c then EmptyString else String c EmptyString
      | r' => String c r'
      end
  end.

(** [s.trim()] *)
Definition trim (s : string) : string := trimEnd (trimStart s).

(** [hay.includes(needle)] *)
Fixpoint includes (hay needle : string) : bool :=
  String.prefix needle hay
  || match hay with
     | EmptyString => false
     | String _ r => includes r needle
     end.

Definition digit_of (c : ascii) : option Z :=
  let n := nat_of_ascii c in
  if ((48 <=? n) && (n <=? 57))%nat then Some (Z.of_nat (n - 48)) else None.

(** The digits at the head of [s], accumulated in base ten; [None]
    when [s] does not start with a digit. *)
Fixpoint digits (acc : option Z) (s : string) : option Z :=
  match s with
  | EmptyString => acc
  | String c r =>
      match digit_of c with
      | Some d =>
          digits (Some (10 * match acc with Some a => a | None => 0 end + d)) r
      | None => acc
      end
  end.

(** [parseInt(s, 10)]: the integer that the digits spell, as a
    number; [NaN] when there is no digit, and [-0] for a zero after a
    minus sign.  (Of a run of more than twenty digits an engine may
    read the first twenty only; here all are read.) *)
Definition parseInt (s : string) : number :=
  match trimStart s with
  | String "-" r =>
      match digits None r with Some z => neg (Fin z) | None => NaN end
  | String "+" r =>
      match digits None r with Some z => Fin z | None => NaN end
  | r => match digits None r with Some z => Fin z | None => NaN end
  end.

(** *** Insertion-ordered maps ([Map]) *)

Section JsMap.
Context {K V : Type}.
Variable K_dec : forall a b : K, {a = b} + {a <> b}.

Definition Map : Type := list (K * V).

(** [m.get(k)] *)
Fixpoint get (k : K) (m : Map) : option V :=
  match m with
  | [] => None
  | (k', v) :: r => if K_dec k k' then Some v else get k r
  end.

(** [m.set(k, v)]: an existing key keeps its place, a new key goes
    last. *)
Fixpoint set (k : K) (v : V) (m : Map) : Map :=
  match m with
  | [] => [(k, v)]
  | (k', v') :: r =>
      if K_dec k k' then (k, v) :: r else (k', v') :: set k v r
  end.

(** [Array.from(m.values())] *)
Definition values (m : Map) : list V := map snd m.

(** [Array.from(m.keys())] *)
Definition keys (m : Map) : list K := map fst m.
End JsMap.

Arguments Map : clear implicits.

(** *** Sorting

    [Array.prototype.sort] with a comparator: a stable sort, here by
    insertion, which places an element before the first one that the
    comparator does not put in front of it. *)

Section JsSort.
Context {A : Type}.
Variable cmp : A -> A -> Z.

Fixpoint insert (x : A) (l : list A) : list A :=
  match l with
  | [] => [x]
  | y :: r => if cmp x y <=? 0 then x :: l else y :: insert x r
  end.

Definition sort (l : list A) : list A := fold_right insert [] l.
End JsSort.

End Js.


(** ** Records of the inventory page *)

Module Employee2.
Record t : Type := mk {
  id : Z;
  serial_no : option string;
  fss_no : option string;
  name : string
}.
End Employee2.

Module RestrictedIssuedSerialRow.
Record t : Type := mk {
  serial_unit_id : option Js.number;
  item_code : string;
  item_name : string;
  category : string;
  serial_number : string;
  status : string;
  created_at : string
}.
End RestrictedIssuedSerialRow.

Module RestrictedIssuedQtyRow.
Record t : Type := mk {
  item_code : string;
  item_name : string;
  category : string;
  unit_name : string;
  quantity_issued : Js.number
}.
End RestrictedIssuedQtyRow.

Module RestrictedIssuedInventory.
Record t : Type := mk {
  employee_id : string;
  serial_items : list RestrictedIssuedSerialRow.t;
  quantity_items : list RestrictedIssuedQtyRow.t
}.
End RestrictedIssuedInventory.

Module GeneralItem.
Record t : Type := mk {
  item_code : string;
  name : string;
  unit_name : string
}.
End GeneralItem.

Module GeneralTxRow.
Record t : Type := mk {
  id : Z;
  item_code : string;
  employee_id : option string;
  action : string;
  quantity : option Js.number;
  notes : option string;
  created_at : string
}.
End GeneralTxRow.

Module RestrictedTxRow.
Record t : Type := mk {
  id : Z;
  item_code : string;
  employee_id : option string;
  serial_unit_id : option Js.number;
  action : string;
  quantity : option Js.number;
  notes : option string;
  created_at : string
}.
End RestrictedTxRow.

Module GeneralAllocationRow.
Record t : Type := mk {
  id : string;
  employee_id : string;
  employee_name : string;
  item_code : string;
  item_name : string;
  unit_name : string;
  quantity : Js.number;
  notes : string;
  created_at : string
}.
End GeneralAllocationRow.

(** The value type of the [byKey] map of [load]. *)
Module Allocation.
Record t : Type := mk {
  employee_id : string;
  item_code : string;
  qty : Js.number;
  lastIssueAt : string;
  lastIssueNote : string
}.
End Allocation.

(** [String(e.fss_no || e.serial_no || e.id)] *)
Definition holderKey (e : Employee2.t) : string :=
  match Employee2.fss_no e with
  | Some (String c r) => String c r
  | _ =>
      match Employee2.serial_no e with
      | Some (String c r) => String c r
      | _ => Js.String_of_integer (Employee2.id e)
      end
  end.

(** The key of [byKey]: the template [`${employeeId}__${itemCode}`]. *)
Definition allocKey (employeeId itemCode : string) : string :=
  (employeeId ++ "__" ++ itemCode)%string.

(** ** The ledger aggregator of [load] *)

Section Aggregator.
Variable localeCompare : string -> string -> Z.

(** One round of the loop [for (const t of txs)] of [load]; each
    [continue] leaves [byKey] as it is. *)
Definition aggregate_step (byKey : Js.Map string Allocation.t)
    (t : GeneralTxRow.t) : Js.Map string Allocation.t :=
  let action := Js.toUpperCase (GeneralTxRow.action t) in
  if negb (action =? "ISSUE")%string && negb (action =? "RETURN")%string
  then byKey
  else
    let employeeId := Js.trim (Js.or_empty (GeneralTxRow.employee_id t)) in
    let itemCode := Js.trim (GeneralTxRow.item_code t) in
    if negb (Js.truthy employeeId) || negb (Js.truthy itemCode) then byKey
    else
      let qty := Js.Number_or0 (GeneralTxRow.quantity t) in
      if negb (Js.isFinite qty) || Js.le qty (Js.Fin 0) then byKey
      else
        let key := allocKey employeeId itemCode in
        let prev :=
          match Js.get string_dec key byKey with
          | Some p => p
          | None =>
              Allocation.mk employeeId itemCode (Js.Fin 0)
                EmptyString EmptyString
          end in
        let prev' :=
          if (action =? "ISSUE")%string then
            let q := Js.add (Allocation.qty prev) qty in
            let createdAt := GeneralTxRow.created_at t in
            if negb (Js.truthy (Allocation.lastIssueAt prev))
               || (0 <? localeCompare createdAt (Allocation.lastIssueAt prev))
            then
              Allocation.mk (Allocation.employee_id prev)
                (Allocation.item_code prev) q createdAt
                (Js.or_empty (GeneralTxRow.notes t))
            else
              Allocation.mk (Allocation.employee_id prev)
                (Allocation.item_code prev) q
                (Allocation.lastIssueAt prev) (Allocation.lastIssueNote prev)
          else
            Allocation.mk (Allocation.employee_id prev)
              (Allocation.item_code prev)
              (Js.sub (Allocation.qty prev) qty)
              (Allocation.lastIssueAt prev) (Allocation.lastIssueNote prev) in
        Js.set string_dec key prev' byKey.

(** The map [byKey] after the loop over [txs]. *)
Definition aggregate (txs : list GeneralTxRow.t) : Js.Map string Allocation.t :=
  fold_left aggregate_step txs [].

(** [empById] of [load]. *)
Definition empById (emps : list Employee2.t) : Js.Map string Employee2.t :=
  fold_left (fun m e => Js.set string_dec (holderKey e) e m) emps [].

(** [itemByCode] of [load]. *)
Definition itemByCode (items : list GeneralItem.t) : Js.Map string GeneralItem.t :=
  fold_left (fun m it => Js.set string_dec (GeneralItem.item_code it) it m)
    items [].

(** The row that [load] builds from one value of [byKey]. *)
Definition toRow (emps : Js.Map string Employee2.t)
    (items : Js.Map string GeneralItem.t) (v : Allocation.t)
    : GeneralAllocationRow.t :=
  let emp := Js.get string_dec (Allocation.employee_id v) emps in
  let item := Js.get string_dec (Allocation.item_code v) items in
  GeneralAllocationRow.mk
    (allocKey (Allocation.employee_id v) (Allocation.item_code v))
    (Allocation.employee_id v)
    (match emp with Some e => Employee2.name e | None => Allocation.employee_id v end)
    (Allocation.item_code v)
    (Js.or_else (option_map GeneralItem.name item) (Allocation.item_code v))
    (Js.or_else (option_map GeneralItem.unit_name item) "unit")
    (Allocation.qty v)
    (Js.or_else (Some (Allocation.lastIssueNote v)) "-")
    (Allocation.lastIssueAt v).

(** [rowsOut] of [load]: the values of [byKey] with a positive
    quantity, as rows, most recent issue first. *)
Definition rowsOut (emps : list Employee2.t) (items : list GeneralItem.t)
    (byKey : Js.Map string Allocation.t) : list GeneralAllocationRow.t :=
  Js.sort
    (fun a b => localeCompare (GeneralAllocationRow.created_at b)
                  (GeneralAllocationRow.created_at a))
    (map (toRow (empById emps) (itemByCode items))
       (filter (fun v => Js.gt (Allocation.qty v) (Js.Fin 0))
          (Js.values byKey))).

End Aggregator.

(** ** The [load] callback and the page state *)

(** A value caught by [catch (e: unknown)]: all that [errorMessage]
    looks at is whether [e] is an object with a string [message]. *)
Module JsError.
Record t : Type := mk { message : option string }.
End JsError.

(** [errorMessage(e, fallback)] *)
Definition errorMessage (e : JsError.t) (fallback : string) : string :=
  match JsError.message e with
  | Some m => m
  | None => fallback
  end.

(** A settled promise. *)
Inductive Settled (A : Type) : Type :=
| Fulfilled (value : A)
| Rejected (reason : JsError.t).

Arguments Fulfilled {A} value.
Arguments Rejected {A} reason.

(** The payloads of the five requests of [load].  A payload that is not
    an array ([Array.isArray] fails) is [None]. *)
Module Responses.
Record t : Type := mk {
  employeesRes : option (list Employee2.t);
  restrictedRes : option (list RestrictedIssuedInventory.t);
  itemsRes : option (list GeneralItem.t);
  txRes : option (list GeneralTxRow.t);
  restrictedTxRes : option (list RestrictedTxRow.t)
}.
End Responses.

(** [Promise.all] over the five requests: fulfilled when all are,
    rejected as soon as one is.  Which rejection comes first in time is
    not modelled; the reason kept is that of the first rejected request
    of the array. *)
Definition promise_all
    (a : Settled (option (list Employee2.t)))
    (b : Settled (option (list RestrictedIssuedInventory.t)))
    (c : Settled (option (list GeneralItem.t)))
    (d : Settled (option (list GeneralTxRow.t)))
    (e : Settled (option (list RestrictedTxRow.t)))
    : Settled Responses.t :=
  match a, b, c, d, e with
  | Fulfilled x1, Fulfilled x2, Fulfilled x3, Fulfilled x4, Fulfilled x5 =>
      Fulfilled (Responses.mk x1 x2 x3 x4 x5)
  | Rejected r, _, _, _, _ => Rejected r
  | _, Rejected r, _, _, _ => Rejected r
  | _, _, Rejected r, _, _ => Rejected r
  | _, _, _, Rejected r, _ => Rejected r
  | _, _, _, _, Rejected r => Rejected r
  end.

(** The state hooks of [EmployeeInventoryPage] that [load] writes and
    [byEmployee] reads. *)
Module PageState.
Record t : Type := mk {
  loading : bool;
  employees : list Employee2.t;
  restrictedIssued : list RestrictedIssuedInventory.t;
  generalRows : list GeneralAllocationRow.t;
  search : string;
  dateRange : option (option Z * option Z);
  restrictedTx : list RestrictedTxRow.t
}.
End PageState.

(** [x] when it is an array, the empty array otherwise. *)
Definition arrayOr {A : Type} (x : option (list A)) : list A :=
  match x with Some l => l | None => [] end.

Section Load.
Variable localeCompare : string -> string -> Z.

(** [load]: the state after the callback has run to its end, and the
    messages it has passed to [msg.error]. *)
Definition load (st : PageState.t) (res : Settled Responses.t)
    : PageState.t * list string :=
  match res with
  | Fulfilled r =>
      let emps := arrayOr (Responses.employeesRes r) in
      let byKey := aggregate localeCompare (arrayOr (Responses.txRes r)) in
      (PageState.mk false
         emps
         (arrayOr (Responses.restrictedRes r))
         (rowsOut localeCompare emps (arrayOr (Responses.itemsRes r)) byKey)
         (PageState.search st)
         (PageState.dateRange st)
         (arrayOr (Responses.restrictedTxRes r)),
       [])
  | Rejected e =>
      (PageState.mk false
         []
         []
         []
         (PageState.search st)
         (PageState.dateRange st)
         (PageState.restrictedTx st),
       [errorMessage e "Failed to load employee inventory"])
  end.

End Load.

(** ** The [byEmployee] memo *)

(** An element of the array that [byEmployee] returns. *)
Module Group.
Record t : Type := mk {
  employee_id : string;
  employee_name : string;
  serial_no : string;
  restricted : RestrictedIssuedInventory.t;
  general : list GeneralAllocationRow.t;
  _totalCount : nat
}.
End Group.

(** [empNameById] *)
Definition empNameById (employees : list Employee2.t) : Js.Map string string :=
  fold_left (fun m e => Js.set string_dec (holderKey e) (Employee2.name e) m)
    employees [].

(** [empSerialNoById] *)
Definition empSerialNoById (employees : list Employee2.t) : Js.Map string string :=
  fold_left
    (fun m e =>
       Js.set string_dec (holderKey e) (Js.or_empty (Employee2.serial_no e)) m)
    employees [].

(** [restrictedMap] *)
Definition restrictedMap (restrictedIssued : list RestrictedIssuedInventory.t)
    : Js.Map string RestrictedIssuedInventory.t :=
  fold_left
    (fun m r => Js.set string_dec (RestrictedIssuedInventory.employee_id r) r m)
    restrictedIssued [].

(** [generalMap] *)
Definition generalMap (generalRows : list GeneralAllocationRow.t)
    : Js.Map string (list GeneralAllocationRow.t) :=
  fold_left
    (fun m r =>
       let eid := GeneralAllocationRow.employee_id r in
       let prev := match Js.get string_dec eid m with
                   | Some p => p
                   | None => []
                   end in
       Js.set string_dec eid (prev ++ [r]) m)
    generalRows [].

(** [allEmployeeIds], in insertion order. *)
Definition allEmployeeIds (employees : list Employee2.t)
    (restrictedIssued : list RestrictedIssuedInventory.t)
    (generalRows : list GeneralAllocationRow.t) : list string :=
  let s1 := fold_left (fun s e => set_add string_dec (holderKey e) s)
              employees [] in
  let s2 := fold_left
              (fun s r =>
                 set_add string_dec (RestrictedIssuedInventory.employee_id r) s)
              restrictedIssued s1 in
  fold_left
    (fun s r => set_add string_dec (GeneralAllocationRow.employee_id r) s)
    generalRows s2.

(** The search test of [byEmployee] for a non-empty query [q]. *)
Definition matchesQuery (q : string) (g : Group.t) : bool :=
  let sp := " "%string in
  let low s := Js.toLowerCase s in
  Js.includes
    (low (Group.employee_name g ++ sp ++ Group.employee_id g)%string) q
  || existsb
       (fun s =>
          Js.includes
            (low (RestrictedIssuedSerialRow.item_code s ++ sp
                  ++ RestrictedIssuedSerialRow.item_name s ++ sp
                  ++ RestrictedIssuedSerialRow.serial_number s ++ sp
                  ++ RestrictedIssuedSerialRow.status s)%string) q)
       (RestrictedIssuedInventory.serial_items (Group.restricted g))
  || existsb
       (fun it =>
          Js.includes
            (low (RestrictedIssuedQtyRow.item_code it ++ sp
                  ++ RestrictedIssuedQtyRow.item_name it ++ sp
                  ++ RestrictedIssuedQtyRow.unit_name it)%string) q)
       (RestrictedIssuedInventory.quantity_items (Group.restricted g))
  || existsb
       (fun it =>
          Js.includes
            (low (GeneralAllocationRow.item_code it ++ sp
                  ++ GeneralAllocationRow.item_name it ++ sp
                  ++ GeneralAllocationRow.notes it ++ sp
                  ++ GeneralAllocationRow.created_at it)%string) q)
       (Group.general g).

Section ByEmployee.
Variable localeCompare : string -> string -> Z.

(** [dayjs(s)]: the instant that the library reads in [s], in
    milliseconds, or [None] when [isValid()] is false. *)
Variable dayjs : string -> option Z.

(** [d.startOf("day")] and [d.endOf("day")] on instants. *)
Variable startOfDay endOfDay : Z -> Z.

(** The test [!prev || createdAt.localeCompare(prev) > 0] that guards
    both last-issue maps. *)
Definition isLater (createdAt : string) (prev : option string) : bool :=
  match prev with
  | None => true
  | Some p => negb (Js.truthy p) || (0 <? localeCompare createdAt p)
  end.

(** One round of the loop over [restrictedTx]: the maps
    [restrictedLastIssueBySerial] and [restrictedLastIssueByQtyKey].
    The keys stored in the first are finite numbers above zero, on
    which the key equality of [Map] is the equality of doubles. *)
Definition lastIssue_step
    (acc : Js.Map Js.number string * Js.Map string string)
    (t : RestrictedTxRow.t) : Js.Map Js.number string * Js.Map string string :=
  let '(bySerial, byQtyKey) := acc in
  let action := Js.toUpperCase (RestrictedTxRow.action t) in
  if negb (action =? "ISSUE")%string then acc
  else
    let createdAt := RestrictedTxRow.created_at t in
    let serialId := Js.Number_or0 (RestrictedTxRow.serial_unit_id t) in
    let bySerial' :=
      if Js.isFinite serialId && Js.gt serialId (Js.Fin 0) then
        if isLater createdAt (Js.get Js.number_dec serialId bySerial)
        then Js.set Js.number_dec serialId createdAt bySerial
        else bySerial
      else bySerial in
    let employeeId := Js.trim (Js.or_empty (RestrictedTxRow.employee_id t)) in
    let itemCode := Js.trim (RestrictedTxRow.item_code t) in
    let byQtyKey' :=
      if Js.truthy employeeId && Js.truthy itemCode
         && negb (Js.truthy_num serialId) then
        let key := allocKey employeeId itemCode in
        if isLater createdAt (Js.get string_dec key byQtyKey)
        then Js.set string_dec key createdAt byQtyKey
        else byQtyKey
      else byQtyKey in
    (bySerial', byQtyKey').

Definition restrictedLastIssue (restrictedTx : list RestrictedTxRow.t)
    : Js.Map Js.number string * Js.Map string string :=
  fold_left lastIssue_step restrictedTx ([], []).

(** [start] and [end_] of [byEmployee]. *)
Definition windowStart (dateRange : option (option Z * option Z)) : option Z :=
  match dateRange with
  | Some (Some d, _) => Some (startOfDay d)
  | _ => None
  end.

Definition windowEnd (dateRange : option (option Z * option Z)) : option Z :=
  match dateRange with
  | Some (_, Some d) => Some (endOfDay d)
  | _ => None
  end.

(** [!start && !end] *)
Definition noWindow (start end_ : option Z) : bool :=
  match start, end_ with
  | None, None => true
  | _, _ => false
  end.

(** [inRange] *)
Definition inRange (start end_ : option Z) (ts : option string) : bool :=
  if noWindow start end_ then true
  else
    match dayjs (Js.or_empty ts) with
    | None => true
    | Some d =>
        if match start with Some s => d <? s | None => false end then false
        else if match end_ with Some e => e <? d | None => false end then false
        else true
    end.

(** The serialized units of a holder that [byEmployee] keeps: the
    date of each is replaced by the last issue found in the log, when
    there is one, and the window is applied to the result. *)
Definition serialItems (start end_ : option Z)
    (bySerial : Js.Map Js.number string)
    (items : list RestrictedIssuedSerialRow.t)
    : list RestrictedIssuedSerialRow.t :=
  filter
    (fun s => inRange start end_ (Some (RestrictedIssuedSerialRow.created_at s)))
    (map
       (fun s =>
          let mapped :=
            Js.get Js.number_dec
              (Js.Number_or0 (RestrictedIssuedSerialRow.serial_unit_id s))
              bySerial in
          RestrictedIssuedSerialRow.mk
            (RestrictedIssuedSerialRow.serial_unit_id s)
            (RestrictedIssuedSerialRow.item_code s)
            (RestrictedIssuedSerialRow.item_name s)
            (RestrictedIssuedSerialRow.category s)
            (RestrictedIssuedSerialRow.serial_number s)
            (RestrictedIssuedSerialRow.status s)
            (Js.or_else mapped (RestrictedIssuedSerialRow.created_at s)))
       items).

(** The test of the [filter] that builds [qty_items]. *)
Definition qtyItemVisible (start end_ : option Z)
    (byQtyKey : Js.Map string string) (eid : string)
    (it : RestrictedIssuedQtyRow.t) : bool :=
  if noWindow start end_ then true
  else
    let key := allocKey eid (RestrictedIssuedQtyRow.item_code it) in
    match Js.get string_dec key byQtyKey with
    | None => false
    | Some lastIssueAt =>
        if negb (Js.truthy lastIssueAt) then false
        else inRange start end_ (Some lastIssueAt)
    end.

(** The test of the [filter] that builds [general]. *)
Definition generalVisible (start end_ : option Z)
    (r : GeneralAllocationRow.t) : bool :=
  inRange start end_ (Some (GeneralAllocationRow.created_at r)).

(** The function mapped over [allEmployeeIds]. *)
Definition toGroup (start end_ : option Z)
    (names serials : Js.Map string string)
    (rmap : Js.Map string RestrictedIssuedInventory.t)
    (gmap : Js.Map string (list GeneralAllocationRow.t))
    (last : Js.Map Js.number string * Js.Map string string)
    (eid : string) : Group.t :=
  let employee_name := Js.or_else (Js.get string_dec eid names) eid in
  let serial_no := Js.or_else (Js.get string_dec eid serials) EmptyString in
  let restrictedBase :=
    match Js.get string_dec eid rmap with
    | Some r => r
    | None => RestrictedIssuedInventory.mk eid [] []
    end in
  let serial_items :=
    serialItems start end_ (fst last)
      (RestrictedIssuedInventory.serial_items restrictedBase) in
  let qty_items :=
    filter (qtyItemVisible start end_ (snd last) eid)
      (RestrictedIssuedInventory.quantity_items restrictedBase) in
  let restricted :=
    RestrictedIssuedInventory.mk
      (RestrictedIssuedInventory.employee_id restrictedBase)
      serial_items qty_items in
  let general :=
    filter (generalVisible start end_)
      (match Js.get string_dec eid gmap with Some l => l | None => [] end) in
  let restrictedCount := (List.length serial_items + List.length qty_items)%nat in
  let generalCount := List.length general in
  Group.mk eid employee_name serial_no restricted general
    (restrictedCount + generalCount)%nat.

(** The comparator of the final [out.sort]; of the difference
    [aNum - bNum] the sort reads the sign. *)
Definition holderCompare (a b : Group.t) : Z :=
  let aNum := Js.parseInt (Group.serial_no a) in
  let bNum := Js.parseInt (Group.serial_no b) in
  if negb (Js.isNaN aNum) && negb (Js.isNaN bNum)
  then Js.signum (Js.sub aNum bNum)
  else if negb (Js.isNaN aNum) then -1
  else if negb (Js.isNaN bNum) then 1
  else localeCompare (Group.employee_name a) (Group.employee_name b).

(** [byEmployee] *)
Definition byEmployee (st : PageState.t) : list Group.t :=
  let employees := PageState.employees st in
  let restrictedIssued := PageState.restrictedIssued st in
  let generalRows := PageState.generalRows st in
  let last := restrictedLastIssue (PageState.restrictedTx st) in
  let q := Js.toLowerCase (Js.trim (PageState.search st)) in
  let start := windowStart (PageState.dateRange st) in
  let end_ := windowEnd (PageState.dateRange st) in
  let out :=
    filter
      (fun g => if negb (Js.truthy q) then true else matchesQuery q g)
      (filter
         (fun g =>
            if noWindow start end_ then true
            else (0 <? Group._totalCount g)%nat)
         (map
            (toGroup start end_ (empNameById employees)
               (empSerialNoById employees) (restrictedMap restrictedIssued)
               (generalMap generalRows) last)
            (allEmployeeIds employees restrictedIssued generalRows))) in
  Js.sort holderCompare out.

End ByEmployee.

(** ** The dashboard [kpis] memo *)

Module Dashboard.

Module PayrollRow.
Record t : Type := mk {
  employee_id : string;
  paid_status : option string;
  net_pay : option Js.number
}.
End PayrollRow.

Module PayrollReportResponse.
Record t : Type := mk {
  total_net : option Js.number;
  rows : list PayrollRow.t
}.
End PayrollReportResponse.

(** [String(r.paid_status ?? "unpaid").toLowerCase()] *)
Definition paidStatus (r : PayrollRow.t) : string :=
  Js.toLowerCase
    (match PayrollRow.paid_status r with Some s => s | None => "unpaid"%string end).

(** [payrollReport?.rows ?? []] *)
Definition payrollRows (payrollReport : option PayrollReportResponse.t)
    : list PayrollRow.t :=
  match payrollReport with
  | Some p => PayrollReportResponse.rows p
  | None => []
  end.

(** [payrollPaid] of [kpis] *)
Definition payrollPaid (payrollReport : option PayrollReportResponse.t)
    : Js.number :=
  fold_left
    (fun a r =>
       if negb (paidStatus r =? "paid")%string then a
       else Js.add a (Js.Number_or0 (PayrollRow.net_pay r)))
    (payrollRows payrollReport) (Js.Fin 0).

(** [payrollDue] of [kpis] *)
Definition payrollDue (payrollReport : option PayrollReportResponse.t)
    : Js.number :=
  fold_left
    (fun a r =>
       if (paidStatus r =? "paid")%string then a
       else Js.add a (Js.Number_or0 (PayrollRow.net_pay r)))
    (payrollRows payrollReport) (Js.Fin 0).

End Dashboard.

(** ** Vocabulary of the properties *)

(** What the properties ask of [localeCompare]: it orders any two
    strings, consistently in both directions, and transitively. *)
Record Collation (cmp : string -> string -> Z) : Prop := {
  collation_antisym : forall a b, Z.sgn (cmp b a) = - Z.sgn (cmp a b);
  collation_trans : forall a b c, cmp a b <= 0 -> cmp b c <= 0 -> cmp a c <= 0
}.

(** Two more laws.  No string comes before the empty one: every
    collation has this.  And two strings that compare equal are the
    same string: the order by character code has this law, the
    collation of a locale need not. *)
Definition EmptyFirst (cmp : string -> string -> Z) : Prop :=
  forall a, cmp EmptyString a <= 0.

Definition Separating (cmp : string -> string -> Z) : Prop :=
  forall a b, cmp a b = 0 -> a = b.

(** The order of strings by character code, one such collation. *)
Definition codeUnitCompare (a b : string) : Z :=
  match String.compare a b with
  | Lt => -1
  | Eq => 0
  | Gt => 1
  end.

(** The normalised fields of a raw transaction. *)
Definition txAction (t : GeneralTxRow.t) : string :=
  Js.toUpperCase (GeneralTxRow.action t).

Definition txEmployeeId (t : GeneralTxRow.t) : string :=
  Js.trim (Js.or_empty (GeneralTxRow.employee_id t)).

Definition txItemCode (t : GeneralTxRow.t) : string :=
  Js.trim (GeneralTxRow.item_code t).

Definition txQty (t : GeneralTxRow.t) : Js.number :=
  Js.Number_or0 (GeneralTxRow.quantity t).

Definition txKey (t : GeneralTxRow.t) : string :=
  allocKey (txEmployeeId t) (txItemCode t).

Definition txNote (t : GeneralTxRow.t) : string :=
  Js.or_empty (GeneralTxRow.notes t).

(** The rejection rule of the normaliser, read the other way round: a
    record is kept when its action is ISSUE or RETURN, its holder and
    item are not empty, and its quantity is a finite number above
    zero. *)
Definition kept (t : GeneralTxRow.t) : bool :=
  ((txAction t =? "ISSUE")%string || (txAction t =? "RETURN")%string)
  && Js.truthy (txEmployeeId t) && Js.truthy (txItemCode t)
  && Js.isFinite (txQty t) && Js.gt (txQty t) (Js.Fin 0).

(** A kept ISSUE, a kept RETURN. *)
Definition isIssue (t : GeneralTxRow.t) : bool :=
  kept t && (txAction t =? "ISSUE")%string.

Definition isReturn (t : GeneralTxRow.t) : bool :=
  kept t && negb (txAction t =? "ISSUE")%string.

(** The allocation that a kept transaction [t] leaves under its key,
    when [prev] was there before ([None]: no entry yet). *)
Definition applyTx (cmp : string -> string -> Z) (t : GeneralTxRow.t)
    (prev : option Allocation.t) : Allocation.t :=
  let p := match prev with
           | Some p => p
           | None =>
               Allocation.mk (txEmployeeId t) (txItemCode t) (Js.Fin 0)
                 EmptyString EmptyString
           end in
  if (txAction t =? "ISSUE")%string then
    if negb (Js.truthy (Allocation.lastIssueAt p))
       || (0 <? cmp (GeneralTxRow.created_at t) (Allocation.lastIssueAt p))
    then
      Allocation.mk (Allocation.employee_id p) (Allocation.item_code p)
        (Js.add (Allocation.qty p) (txQty t))
        (GeneralTxRow.created_at t) (txNote t)
    else
      Allocation.mk (Allocation.employee_id p) (Allocation.item_code p)
        (Js.add (Allocation.qty p) (txQty t))
        (Allocation.lastIssueAt p) (Allocation.lastIssueNote p)
  else
    Allocation.mk (Allocation.employee_id p) (Allocation.item_code p)
      (Js.sub (Allocation.qty p) (txQty t))
      (Allocation.lastIssueAt p) (Allocation.lastIssueNote p).

(** The three facts of an allocation that the ledger reports. *)
Definition summary (v : Allocation.t) : Js.number * string * string :=
  (Allocation.qty v, Allocation.lastIssueAt v, Allocation.lastIssueNote v).

(** The order of holders in words: the holders whose serial number
    reads as a number first, in ascending order of that number, then
    the holders without a number, by name. *)
Definition holderBefore (cmp : string -> string -> Z) (a b : Group.t) : Prop :=
  let x := Js.parseInt (Group.serial_no a) in
  let y := Js.parseInt (Group.serial_no b) in
  match Js.isNaN x, Js.isNaN y with
  | false, false => Js.le x y = true
  | false, true => True
  | true, false => False
  | true, true => cmp (Group.employee_name a) (Group.employee_name b) <= 0
  end.

(** ** The ledger in words *)

(** The kept transactions of a key and, among them, the issues. *)
Definition keptFor (key : string) (txs : list GeneralTxRow.t)
    : list GeneralTxRow.t :=
  filter (fun t => kept t && (txKey t =? key)%string) txs.

Definition issuesFor (key : string) (txs : list GeneralTxRow.t)
    : list GeneralTxRow.t :=
  filter (fun t => isIssue t && (txKey t =? key)%string) txs.

Definition issueDates (key : string) (txs : list GeneralTxRow.t) : list string :=
  map GeneralTxRow.created_at (issuesFor key txs).

(** The net quantity of a key: the quantities of its kept records,
    added for an issue and subtracted for a return, one after the other
    in the order of arrival and starting from zero. *)
Definition netQuantity (key : string) (txs : list GeneralTxRow.t) : Js.number :=
  fold_left
    (fun q t =>
       if (txAction t =? "ISSUE")%string then Js.add q (txQty t)
       else Js.sub q (txQty t))
    (keptFor key txs) (Js.Fin 0).

(** The date and note of the last issue, as the loop keeps them: a new
    issue replaces the stored pair when nothing is stored or when its
    date compares strictly above the stored one. *)
Definition laterIssue (cmp : string -> string -> Z) (s : string * string)
    (t : GeneralTxRow.t) : string * string :=
  if negb (Js.truthy (fst s)) || (0 <? cmp (GeneralTxRow.created_at t) (fst s))
  then (GeneralTxRow.created_at t, txNote t)
  else s.

Definition lastIssueOf (cmp : string -> string -> Z) (key : string)
    (txs : list GeneralTxRow.t) : string * string :=
  fold_left (laterIssue cmp) (issuesFor key txs) (EmptyString, EmptyString).

(** No two issues of one key carry the same date with different
    notes. *)
Definition tieFree (txs : list GeneralTxRow.t) : Prop :=
  forall t1 t2,
    In t1 txs -> In t2 txs -> isIssue t1 = true -> isIssue t2 = true ->
    txKey t1 = txKey t2 ->
    GeneralTxRow.created_at t1 = GeneralTxRow.created_at t2 ->
    txNote t1 = txNote t2.

(** The state of one key along the loop: absent, or a quantity with a
    last issue. *)
Definition keyState (key : string) (m : Js.Map string Allocation.t)
    : option (Js.number * (string * string)) :=
  option_map
    (fun v => (Allocation.qty v,
               (Allocation.lastIssueAt v, Allocation.lastIssueNote v)))
    (Js.get string_dec key m).

Definition keyStep (cmp : string -> string -> Z)
    (s : option (Js.number * (string * string)))
    (t : GeneralTxRow.t) : option (Js.number * (string * string)) :=
  let q := match s with Some x => fst x | None => Js.Fin 0 end in
  let l := match s with Some x => snd x | None => (EmptyString, EmptyString) end in
  Some (if (txAction t =? "ISSUE")%string then Js.add q (txQty t)
        else Js.sub q (txQty t),
        if (txAction t =? "ISSUE")%string then laterIssue cmp l t else l).

(** ** The holder view in words *)

(** The per-holder records of [byEmployee] before it prunes, searches
    and sorts them. *)
Definition groups (cmp : string -> string -> Z) (dayjs : string -> option Z)
    (startOfDay endOfDay : Z -> Z) (st : PageState.t) : list Group.t :=
  map
    (toGroup dayjs (windowStart startOfDay (PageState.dateRange st))
       (windowEnd endOfDay (PageState.dateRange st))
       (empNameById (PageState.employees st))
       (empSerialNoById (PageState.employees st))
       (restrictedMap (PageState.restrictedIssued st))
       (generalMap (PageState.generalRows st))
       (restrictedLastIssue cmp (PageState.restrictedTx st)))
    (allEmployeeIds (PageState.employees st) (PageState.restrictedIssued st)
       (PageState.generalRows st)).

(** A time-window filter is active: one bound of the range is set. *)
Definition windowActive (startOfDay endOfDay : Z -> Z) (st : PageState.t) : bool :=
  negb (noWindow (windowStart startOfDay (PageState.dateRange st))
          (windowEnd endOfDay (PageState.dateRange st))).

(** The holder passes the search filter: the query is empty or matches
    one of the fields of the holder or of its items. *)
Definition passesSearch (st : PageState.t) (g : Group.t) : bool :=
  let q := Js.toLowerCase (Js.trim (PageState.search st)) in
  negb (Js.truthy q) || matchesQuery q g.

(** ** The payroll KPIs in words *)

(** The rows of a report, none when there is no report; the net pay of
    a row, zero when absent; a row is paid when its status, in lower
    case, is the word paid, and a row without status is not; and the
    sum of the net pay of rows, added one after the other in the order
    of the rows and starting from zero. *)
Definition reportRows (payrollReport : option Dashboard.PayrollReportResponse.t)
    : list Dashboard.PayrollRow.t :=
  match payrollReport with
  | Some p => Dashboard.PayrollReportResponse.rows p
  | None => []
  end.

Definition netPay (r : Dashboard.PayrollRow.t) : Js.number :=
  match Dashboard.PayrollRow.net_pay r with
  | Some n => n
  | None => Js.Fin 0
  end.

Definition isPaid (r : Dashboard.PayrollRow.t) : bool :=
  match Dashboard.PayrollRow.paid_status r with
  | Some s => (Js.toLowerCase s =? "paid")%string
  | None => false
  end.

Definition totalNetPay (rows : list Dashboard.PayrollRow.t) : Js.number :=
  fold_left (fun a r => Js.add a (netPay r)) rows (Js.Fin 0).

(** ** A sample collation

    The platform orders strings by the collation of the locale, not by
    character code.  The sample below ranks the ASCII characters in the
    manner of the root collation of the Unicode CLDR: white space,
    punctuation, symbols, digits and then letters without regard to
    case; two strings are compared rank by rank from the left. *)
Definition rootOrder : list nat :=
  [9; 10; 11; 12; 13; 32;
   95; 45; 44; 59; 58; 33; 63; 46; 39; 34; 40; 41; 91; 93; 123; 125; 64; 42;
   47; 92; 38; 35; 37;
   96; 94; 43; 60; 61; 62; 124; 126; 36;
   48; 49; 50; 51; 52; 53; 54; 55; 56; 57;
   97; 98; 99; 100; 101; 102; 103; 104; 105; 106; 107; 108; 109; 110; 111;
   112; 113; 114; 115; 116; 117; 118; 119; 120; 121; 122]%nat.

Fixpoint indexOf (n : nat) (l : list nat) (i : nat) : option nat :=
  match l with
  | [] => None
  | x :: r => if (x =? n)%nat then Some i else indexOf n r (S i)
  end.

Definition rootRank (c : ascii) : nat :=
  let n := nat_of_ascii (Js.lower_char c) in
  match indexOf n rootOrder 0 with
  | Some i => i
  | None => (256 + n)%nat
  end.

Fixpoint rootCompare (a b : string) : Z :=
  match a, b with
  | EmptyString, EmptyString => 0
  | EmptyString, String _ _ => -1
  | String _ _, EmptyString => 1
  | String x a', String y b' =>
      match Nat.compare (rootRank x) (rootRank y) with
      | Lt => -1
      | Gt => 1
      | Eq => rootCompare a' b'
      end
  end.

(** Comparison by character code without regard to case. *)
Definition caseInsensitiveCompare (a b : string) : Z :=
  codeUnitCompare (Js.toLowerCase a) (Js.toLowerCase b).

(** ** Sample data of the examples *)

(** A date reader for the examples: the decimal digits at the head of a
    string are an instant in milliseconds, and a string that starts
    with no digit is not a date. *)
Definition digitsDayjs (s : string) : option Z := Js.digits None s.

(** The ledger of the example scenario: five issued, two returned, one
    more issued, all of item X to holder H1; the same in another order;
    and two issues that share their date. *)
Definition sampleTx (id : Z) (action : string) (qty : Z) (created_at : string)
    (notes : option string) : GeneralTxRow.t :=
  GeneralTxRow.mk id "X" (Some "H1"%string) action
    (Some (Js.Fin qty)) notes created_at.

Definition scenario : list GeneralTxRow.t :=
  [sampleTx 1 "ISSUE" 5 "2024-01-01" (Some "boots"%string);
   sampleTx 2 "RETURN" 2 "2024-01-05" (Some "worn"%string);
   sampleTx 3 "ISSUE" 1 "2024-01-10" (Some "spare"%string)].

Definition scenarioPermuted : list GeneralTxRow.t :=
  [sampleTx 3 "ISSUE" 1 "2024-01-10" (Some "spare"%string);
   sampleTx 1 "ISSUE" 5 "2024-01-01" (Some "boots"%string);
   sampleTx 2 "RETURN" 2 "2024-01-05" (Some "worn"%string)].

Definition scenarioAllocation : Allocation.t :=
  Allocation.mk "H1" "X" (Js.Fin 4) "2024-01-10" "spare".

Definition tiedIssues : list GeneralTxRow.t :=
  [sampleTx 1 "ISSUE" 1 "2024-01-01" (Some "first"%string);
   sampleTx 2 "ISSUE" 1 "2024-01-01" (Some "second"%string)].

(** A ledger whose only allocation has been returned in full. *)
Definition returnedInFull : list GeneralTxRow.t :=
  [sampleTx 1 "ISSUE" 2 "2024-02-01" (Some "lent"%string);
   sampleTx 2 "RETURN" 2 "2024-02-03" None].

Definition returnedAllocation : Allocation.t :=
  Allocation.mk "H1" "X" (Js.Fin 0) "2024-02-01" "lent".

(** A first [load] that succeeds and brings one restricted transaction,
    then a second one whose transaction request is rejected. *)
Definition sampleRestrictedTx : RestrictedTxRow.t :=
  RestrictedTxRow.mk 1 "G3" (Some "E7"%string) (Some (Js.Fin 4)) "ISSUE"
    None None "2024-03-01T08:00:00".

Definition stateAfterFirstLoad : PageState.t :=
  fst (load codeUnitCompare
         (PageState.mk false [] [] [] EmptyString None [])
         (promise_all (Fulfilled (Some [])) (Fulfilled (Some []))
            (Fulfilled (Some [])) (Fulfilled (Some []))
            (Fulfilled (Some [sampleRestrictedTx])))).

Definition secondLoadOutcome : Settled Responses.t :=
  promise_all (Fulfilled (Some [])) (Fulfilled (Some []))
    (Fulfilled (Some [])) (Rejected (JsError.mk (Some "Network Error"%string)))
    (Fulfilled (Some [])).

(** The start and the end of a day for the examples, in UTC. *)
Definition utcStartOfDay (d : Z) : Z := d - d mod 86400000.

Definition utcEndOfDay (d : Z) : Z := utcStartOfDay d + 86399999.

(** A holder with thirty rounds on restricted issue and no issue of
    them in the transaction log, seen through a window. *)
Definition sampleQtyItem : RestrictedIssuedQtyRow.t :=
  RestrictedIssuedQtyRow.mk "G3" "Rifle rounds" "ammunition" "rounds"
    (Js.Fin 30).

Definition windowedState : PageState.t :=
  PageState.mk false []
    [RestrictedIssuedInventory.mk "E7" [] [sampleQtyItem]] []
    EmptyString (Some (Some 0, Some 86400000)) [].

(** A holder of the reference list with no item, and a search for
    something else. *)
Definition sampleEmployee : Employee2.t :=
  Employee2.mk 1 (Some "12"%string) (Some "FSS-1"%string) "Aslam".

Definition searchingState : PageState.t :=
  PageState.mk false [sampleEmployee] [] [] "rifle" None [].

(** The same holder with no search, and the record that [byEmployee]
    builds for it. *)
Definition idleState : PageState.t :=
  PageState.mk false [sampleEmployee] [] [] EmptyString None [].

Definition sampleGroup : Group.t :=
  Group.mk "FSS-1" "Aslam" "12" (RestrictedIssuedInventory.mk "FSS-1" [] [])
    [] 0.

(** A reference list with two numbered holders and two without a
    number. *)
Definition rosterState : PageState.t :=
  PageState.mk false
    [Employee2.mk 1 (Some "12"%string) (Some "FSS-1"%string) "Aslam";
     Employee2.mk 2 None (Some "FSS-2"%string) "Zahid";
     Employee2.mk 3 (Some "3"%string) (Some "FSS-3"%string) "Bilal";
     Employee2.mk 4 (Some "n/a"%string) (Some "FSS-4"%string) "Chand"]
    [] [] EmptyString None [].

(** The holders of the completeness scenario: A and B in the reference
    list, serialized units for B and C, general allocations for A and
    C. *)
Definition mixedState : PageState.t :=
  PageState.mk false
    [Employee2.mk 1 (Some "1"%string) (Some "A"%string) "Aslam";
     Employee2.mk 2 (Some "2"%string) (Some "B"%string) "Bilal"]
    [RestrictedIssuedInventory.mk "B"
       [RestrictedIssuedSerialRow.mk (Some (Js.Fin 4)) "G3" "Rifle" "weapon"
          "SN-4" "issued" "2024-03-01"] [];
     RestrictedIssuedInventory.mk "C"
       [RestrictedIssuedSerialRow.mk (Some (Js.Fin 5)) "G3" "Rifle" "weapon"
          "SN-5" "issued" "2024-03-02"] []]
    [GeneralAllocationRow.mk "A__X" "A" "Aslam" "X" "Boots" "pair" (Js.Fin 1)
       "-" "2024-01-10";
     GeneralAllocationRow.mk "C__X" "C" "C" "X" "Boots" "pair" (Js.Fin 2)
       "-" "2024-01-05"]
    EmptyString None [].

(** The doubles nearest to 0.1, 0.2 and 0.3, and three issues of these
    quantities of item X to holder H1. *)
Definition oneTenth : Js.number := S754_finite false 7205759403792794 (-56).
Definition twoTenths : Js.number := S754_finite false 7205759403792794 (-55).
Definition threeTenths : Js.number := S754_finite false 5404319552844595 (-54).

Definition decimalIssues : list GeneralTxRow.t :=
  [GeneralTxRow.mk 1 "X" (Some "H1"%string) "ISSUE" (Some oneTenth) None
     "2024-01-01";
   GeneralTxRow.mk 2 "X" (Some "H1"%string) "ISSUE" (Some twoTenths) None
     "2024-01-02";
   GeneralTxRow.mk 3 "X" (Some "H1"%string) "ISSUE" (Some threeTenths) None
     "2024-01-03"].

(** Two issues whose dates are written in two formats, one with an
    offset and one with a fraction of a second. *)
Definition mixedFormatIssues : list GeneralTxRow.t :=
  [sampleTx 1 "ISSUE" 1 "2024-01-01T00:00:00+00:00" (Some "morning"%string);
   sampleTx 2 "ISSUE" 1 "2024-01-01T00:00:00.500000" (Some "later"%string)].

(** A payroll report with decimal amounts: 0.3 unpaid, 0.2 and 0.1
    paid. *)
Definition decimalPayroll : Dashboard.PayrollReportResponse.t :=
  Dashboard.PayrollReportResponse.mk None
    [Dashboard.PayrollRow.mk "E1" (Some "unpaid"%string) (Some threeTenths);
     Dashboard.PayrollRow.mk "E2" (Some "paid"%string) (Some twoTenths);
     Dashboard.PayrollRow.mk "E3" (Some "Paid"%string) (Some oneTenth)].

(** Two holders whose serial numbers differ above [2^53], and two
    holders without a serial number whose names differ by a sign. *)
Definition longSerialState : PageState.t :=
  PageState.mk false
    [Employee2.mk 1 (Some "9007199254740993"%string) (Some "FSS-1"%string)
       "Aslam";
     Employee2.mk 2 (Some "9007199254740992"%string) (Some "FSS-2"%string)
       "Bilal"]
    [] [] EmptyString None [].

Definition signedNamesState : PageState.t :=
  PageState.mk false
    [Employee2.mk 1 None (Some "FSS-1"%string) "Post +1";
     Employee2.mk 2 None (Some "FSS-2"%string) "Post .1"]
    [] [] EmptyString None [].

(** ** More of the JavaScript library *)

Module JsExtra.

(** [a.slice(start, end_)] on an array: a negative index counts from
    the end, and both indices are clamped to the array. *)
Definition slice {A : Type} (a : list A) (start end_ : Z) : list A :=
  let len := Z.of_nat (List.length a) in
  let k := if start <? 0 then Z.max (len + start) 0 else Z.min start len in
  let final := if end_ <? 0 then Z.max (len + end_) 0 else Z.min end_ len in
  firstn (Z.to_nat (final - k)) (skipn (Z.to_nat k) a).

(** [a.find(p)] *)
Definition find {A : Type} (p : A -> bool) (a : list A) : option A :=
  List.find p a.

End JsExtra.

(** ** The collapse list of the inventory page *)

(** The state setters that the search box and the range picker call. *)
Definition setSearch (st : PageState.t) (v : string) : PageState.t :=
  PageState.mk (PageState.loading st) (PageState.employees st)
    (PageState.restrictedIssued st) (PageState.generalRows st) v
    (PageState.dateRange st) (PageState.restrictedTx st).

Definition setDateRange (st : PageState.t) (v : option (option Z * option Z))
    : PageState.t :=
  PageState.mk (PageState.loading st) (PageState.employees st)
    (PageState.restrictedIssued st) (PageState.generalRows st)
    (PageState.search st) v (PageState.restrictedTx st).

(** What an element of [collapseItems] shows of its holder: the key of
    the panel, the tag with the serial number, the name, the item
    count, the state of the PDF button, and the rows of the three
    tables, a table being rendered only when it has rows ([None]:
    not rendered).  The restricted rows carry the holder they are
    listed under. *)
Module CollapseItem.
Record t : Type := mk {
  key : string;
  serialTag : string;
  name : string;
  total : nat;
  pdfLoading : bool;
  pdfDisabled : bool;
  serialTable : option (list (string * RestrictedIssuedSerialRow.t));
  qtyTable : option (list (string * RestrictedIssuedQtyRow.t));
  generalTable : option (list GeneralAllocationRow.t)
}.
End CollapseItem.

(** [rows.length > 0 ? <Table dataSource=rows /> : null] *)
Definition tableOf {A : Type} (rows : list A) : option (list A) :=
  match rows with
  | [] => None
  | _ => Some rows
  end.

(** [Boolean(exportingByEmployee[id])] *)
Definition isExporting (exportingByEmployee : Js.Map string bool) (id : string)
    : bool :=
  match Js.get string_dec id exportingByEmployee with
  | Some b => b
  | None => false
  end.

(** [collapseItems] *)
Definition collapseItems (byEmployee : list Group.t)
    (exportingByEmployee : Js.Map string bool) : list CollapseItem.t :=
  map
    (fun g =>
       let serial := RestrictedIssuedInventory.serial_items (Group.restricted g) in
       let qty := RestrictedIssuedInventory.quantity_items (Group.restricted g) in
       let restrictedCount := (List.length serial + List.length qty)%nat in
       let generalCount := List.length (Group.general g) in
       let total := (restrictedCount + generalCount)%nat in
       CollapseItem.mk (Group.employee_id g)
         ("#" ++ Js.or_else (Some (Group.serial_no g)) "-")%string
         (Group.employee_name g)
         total
         (isExporting exportingByEmployee (Group.employee_id g))
         (total =? 0)%nat
         (tableOf (map (fun r => (Group.employee_id g, r)) serial))
         (tableOf (map (fun r => (Group.employee_id g, r)) qty))
         (tableOf (Group.general g)))
    byEmployee.

(** [paginatedCollapseItems] *)
Definition paginatedCollapseItems (collapseItems : list CollapseItem.t)
    (page pageSize : Z) : list CollapseItem.t :=
  let start := (page - 1) * pageSize in
  let end_ := start + pageSize in
  JsExtra.slice collapseItems start end_.

(** ** The restricted log in words *)

(** The ISSUE rows of the restricted log that name serialized unit [n],
    and those that name no unit and carry the holder and item of
    [key]. *)
Definition rtxIsIssue (t : RestrictedTxRow.t) : bool :=
  (Js.toUpperCase (RestrictedTxRow.action t) =? "ISSUE")%string.

Definition rtxSerialId (t : RestrictedTxRow.t) : Js.number :=
  Js.Number_or0 (RestrictedTxRow.serial_unit_id t).

Definition serialIssues (n : Js.number) (txs : list RestrictedTxRow.t)
    : list RestrictedTxRow.t :=
  filter
    (fun t =>
       rtxIsIssue t
       && (Js.isFinite (rtxSerialId t) && Js.gt (rtxSerialId t) (Js.Fin 0))
       && if Js.number_dec (rtxSerialId t) n then true else false)
    txs.

Definition qtyIssues (key : string) (txs : list RestrictedTxRow.t)
    : list RestrictedTxRow.t :=
  filter
    (fun t =>
       let employeeId := Js.trim (Js.or_empty (RestrictedTxRow.employee_id t)) in
       let itemCode := Js.trim (RestrictedTxRow.item_code t) in
       rtxIsIssue t
       && (Js.truthy employeeId && Js.truthy itemCode
           && negb (Js.truthy_num (rtxSerialId t)))
       && (allocKey employeeId itemCode =? key)%string)
    txs.

(** The date that survives a run of dates under the test [isLater],
    starting with nothing stored. *)
Definition latestOf (cmp : string -> string -> Z) (dates : list string)
    : option string :=
  fold_left (fun s c => if isLater cmp c s then Some c else s) dates None.

(** ** Strings of the library, continued *)

Module JsString.

(** The string without its first [n] characters. *)
Fixpoint drop (n : nat) (s : string) : string :=
  match n, s with
  | O, _ => s
  | S n', String _ r => drop n' r
  | S _, EmptyString => EmptyString
  end.

(** The first [n] characters of the string. *)
Fixpoint take (n : nat) (s : string) : string :=
  match n, s with
  | S n', String c r => String c (take n' r)
  | _, _ => EmptyString
  end.

(** [s.replace(pattern, replacement)] for a string pattern and a
    replacement without dollar sign: the first occurrence is
    replaced. *)
Fixpoint replace (s pattern replacement : string) : string :=
  if String.prefix pattern s
  then (replacement ++ drop (String.length pattern) s)%string
  else match s with
       | EmptyString => EmptyString
       | String c r => String c (replace r pattern replacement)
       end.

(** [s.slice(start, end_)], with the indices of an array slice. *)
Definition slice (s : string) (start end_ : Z) : string :=
  let len := Z.of_nat (String.length s) in
  let k := if start <? 0 then Z.max (len + start) 0 else Z.min start len in
  let final := if end_ <? 0 then Z.max (len + end_) 0 else Z.min end_ len in
  take (Z.to_nat (final - k)) (drop (Z.to_nat k) s).

(** The characters that [encodeURIComponent] leaves as they are:
    letters, digits and [- _ . ! ~ * ' ( )]. *)
Definition unreserved (c : ascii) : bool :=
  let n := nat_of_ascii c in
  ((65 <=? n) && (n <=? 90) || (97 <=? n) && (n <=? 122)
   || (48 <=? n) && (n <=? 57)
   || (n =? 45) || (n =? 95) || (n =? 46) || (n =? 33) || (n =? 126)
   || (n =? 42) || (n =? 39) || (n =? 40) || (n =? 41))%nat.

Definition hexDigit (n : nat) : ascii :=
  if (n <? 10)%nat then ascii_of_nat (48 + n) else ascii_of_nat (55 + n).

(** [encodeURIComponent(s)]: every other character becomes a percent
    sign and two upper-case hexadecimal digits; a character above 127
    stands for one byte of the UTF-8 form of the text. *)
Fixpoint encodeURIComponent (s : string) : string :=
  match s with
  | EmptyString => EmptyString
  | String c r =>
      if unreserved c then String c (encodeURIComponent r)
      else
        let n := nat_of_ascii c in
        String "%"
          (String (hexDigit (n / 16))
             (String (hexDigit (n mod 16)) (encodeURIComponent r)))
  end.

End JsString.

(** ** The per-holder PDF of the inventory page *)

(** One call of [autoTable]: the heading printed above the table, the
    head row and the body rows. *)
Module PdfTable.
Record t : Type := mk {
  title : string;
  head : list string;
  body : list (list string)
}.
End PdfTable.

(** What [exportEmployeePdf] hands to the PDF library: the logo when
    one was read, the two lines under the title of each page, the
    tables in the order of the calls, and the name of the saved file.
    Coordinates, fonts and page breaks are left to the library. *)
Module PdfDoc.
Record t : Type := mk {
  logo : option string;
  holderLine : string;
  generatedLine : string;
  tables : list PdfTable.t;
  fileName : string
}.
End PdfDoc.

(** The traces of one call of [exportEmployeePdf]: the busy flags, the
    messages passed to [msg.error], and the document saved. *)
Module ExportResult.
Record t : Type := mk {
  exportingByEmployee : Js.Map string bool;
  messages : list string;
  saved : option PdfDoc.t
}.
End ExportResult.

(** [`${code}${name ? ` - ${name}` : ""}`] *)
Definition itemLabel (code name : string) : string :=
  (code ++ if Js.truthy name then " - " ++ name else EmptyString)%string.

Section EmployeePdf.
Variable dayjs : string -> option Z.

(** [d.format(template)] of the [dayjs] library. *)
Variable dayjsFormat : Z -> string -> string.

(** The text that a template literal makes of a number: the shortest
    decimal that reads back as the same double, which the platform
    computes. *)
Variable numberToString : Js.number -> string.

(** [`${Number(q ?? 0)} ${String(unit || "unit")}`.trim()] *)
Definition issuedLabel (q : Js.number) (unit : string) : string :=
  Js.trim
    (numberToString q ++ " " ++ Js.or_else (Some unit) "unit")%string.

(** The text of a date cell, on the page and in the PDF: the formatted
    date when [dayjs] can read it, else the first nineteen characters
    with the first T turned into a space. *)
Definition dateCell (v : string) : string :=
  match dayjs v with
  | Some d => dayjsFormat d "YYYY-MM-DD HH:mm"
  | None => JsString.slice (JsString.replace v "T" " ") 0 19
  end.

Definition serialTable (rows : list RestrictedIssuedSerialRow.t) : PdfTable.t :=
  PdfTable.mk "Restricted Inventory - Serial Weapons (Guns)"
    ["Weapon"; "Serial"; "Status"; "Date"]%string
    (map
       (fun r =>
          [itemLabel (RestrictedIssuedSerialRow.item_code r)
             (RestrictedIssuedSerialRow.item_name r);
           RestrictedIssuedSerialRow.serial_number r;
           RestrictedIssuedSerialRow.status r;
           dateCell (RestrictedIssuedSerialRow.created_at r)])
       rows).

Definition qtyTable (rows : list RestrictedIssuedQtyRow.t) : PdfTable.t :=
  PdfTable.mk "Restricted Inventory - Quantity Items"
    ["Item"; "Issued"]%string
    (map
       (fun r =>
          [itemLabel (RestrictedIssuedQtyRow.item_code r)
             (RestrictedIssuedQtyRow.item_name r);
           issuedLabel (RestrictedIssuedQtyRow.quantity_issued r)
             (RestrictedIssuedQtyRow.unit_name r)])
       rows).

Definition generalTable (rows : list GeneralAllocationRow.t) : PdfTable.t :=
  PdfTable.mk "General Inventory - Issued Items"
    ["Item"; "Issued"; "Note"; "Date"]%string
    (map
       (fun r =>
          [itemLabel (GeneralAllocationRow.item_code r)
             (GeneralAllocationRow.item_name r);
           issuedLabel (GeneralAllocationRow.quantity r)
             (GeneralAllocationRow.unit_name r);
           Js.or_else (Some (GeneralAllocationRow.notes r)) "-";
           dateCell (GeneralAllocationRow.created_at r)])
       rows).

(** [if (rows.length) { ... autoTable(...) ... }] *)
Definition section {A : Type} (table : list A -> PdfTable.t) (rows : list A)
    : list PdfTable.t :=
  match rows with
  | [] => []
  | _ => [table rows]
  end.

(** The document drawn for [group]: drawing starts at instant [now]
    and the file is saved at instant [savedAt]. *)
Definition holderDoc (logo : Settled string) (now savedAt : Z)
    (group : Group.t) : PdfDoc.t :=
  PdfDoc.mk
    (match logo with
     | Fulfilled s => if Js.truthy s then Some s else None
     | Rejected _ => None
     end)
    (Group.employee_name group ++ " (" ++ Group.employee_id group ++ ")")
    ("Generated: " ++ dayjsFormat now "YYYY-MM-DD HH:mm")
    (section serialTable
       (RestrictedIssuedInventory.serial_items (Group.restricted group))
     ++ section qtyTable
          (RestrictedIssuedInventory.quantity_items (Group.restricted group))
     ++ section generalTable (Group.general group))
    ("employee-" ++ Group.employee_id group ++ "-inventory-"
     ++ dayjsFormat savedAt "YYYYMMDD-HHmm" ++ ".pdf").

(** [exportEmployeePdf].  [logo] is the outcome of reading the logo,
    [now] and [savedAt] are the instants at which drawing starts and
    the file is saved, and [pdfThrows] is an exception raised by the
    PDF library while it draws or saves, if any. *)
Definition exportEmployeePdf (byEmployee : list Group.t)
    (exportingByEmployee : Js.Map string bool) (logo : Settled string)
    (now savedAt : Z) (pdfThrows : option JsError.t) (employeeId : string)
    : ExportResult.t :=
  let eid := Js.trim (Js.or_empty (Some employeeId)) in
  if negb (Js.truthy eid) then ExportResult.mk exportingByEmployee [] None
  else
    let busy := Js.set string_dec eid true exportingByEmployee in
    let done := Js.set string_dec eid false busy in
    match JsExtra.find (fun x => (Group.employee_id x =? eid)%string)
            byEmployee with
    | None => ExportResult.mk done ["Employee not found"%string] None
    | Some group =>
        match pdfThrows with
        | Some e => ExportResult.mk done [errorMessage e "Export failed"] None
        | None =>
            ExportResult.mk done [] (Some (holderDoc logo now savedAt group))
        end
    end.

End EmployeePdf.

(** ** Requests for server-made files *)

(** What the page looks at in the answer of [fetch]: [ok], [status],
    and the outcomes of reading the body as text and as a blob. *)
Module Response.
Record t : Type := mk {
  ok : bool;
  status : Z;
  text : Settled string;
  blob : Settled string
}.
End Response.

(** A file handed to the browser: the [download] name of the link that
    is clicked, and the blob behind it. *)
Module Download.
Record t : Type := mk {
  fileName : string;
  content : string
}.
End Download.

(** The traces of one export: the request sent (address and headers),
    the messages passed to [msg.error], and the file handed over. *)
Module FileExport.
Record t : Type := mk {
  url : string;
  headers : list (string * string);
  messages : list string;
  download : option Download.t
}.
End FileExport.

(** [`Export failed (${res.status})`] *)
Definition exportFailed (status : Z) : string :=
  ("Export failed (" ++ Js.String_of_integer status ++ ")")%string.

Section FileExports.

(** The constant [API_BASE_URL] of [@/lib/config], which is not among
    the sources. *)
Variable API_BASE_URL : string.

(** [fetch(url, { method: "GET", headers })] *)
Variable fetch : string -> list (string * string) -> Settled Response.t.

Variable dayjsFormat : Z -> string -> string.


(** The two exports of the dashboard share their shape: a request
    without headers to [path] with the month as query, and a file named
    after the month. *)
Definition exportMonthPdf (path filePrefix : string) (month : string)
    : FileExport.t :=
  let url :=
    (API_BASE_URL ++ path ++ JsString.encodeURIComponent month)%string in
  match fetch url [] with
  | Rejected e => FileExport.mk url [] [errorMessage e "Export failed"] None
  | Fulfilled res =>
      if negb (Response.ok res) then
        FileExport.mk url [] [exportFailed (Response.status res)] None
      else
        match Response.blob res with
        | Rejected e => FileExport.mk url [] [errorMessage e "Export failed"] None
        | Fulfilled b =>
            FileExport.mk url [] []
              (Some (Download.mk (filePrefix ++ month ++ ".pdf") b))
        end
  end.

(** [exportAccountsMonthPdf] *)
Definition exportAccountsMonthPdf (month : string) : FileExport.t :=
  exportMonthPdf "/api/exports/accounts/monthly/pdf?month=" "accounts_export_"
    month.

(** [exportPayrollPdf] *)
Definition exportPayrollPdf (month : string) : FileExport.t :=
  exportMonthPdf "/api/payroll/export/pdf?month=" "payroll_" month.

End FileExports.

(** ** Links to the allocation pages *)

(** The target of the Open button of a general row. *)
Definition generalLink (r : GeneralAllocationRow.t) : string :=
  ("/general-inventory/employee-allocations/"
   ++ JsString.encodeURIComponent (GeneralAllocationRow.employee_id r))%string.

(** The target of the Open button in the head of a panel, for the
    holder [employee_id] of the panel.  The buttons of the restricted
    rows build the same address from a field [employee_id] of the row,
    which the row types do not declare. *)
Definition restrictedLink (employee_id : string) : string :=
  ("/restricted-inventory/employee-allocations/"
   ++ JsString.encodeURIComponent employee_id)%string.

(** The characters of an encoded component: the unreserved ones, the
    percent sign and the upper-case hexadecimal digits. *)
Definition uriSafe (c : ascii) : bool :=
  JsString.unreserved c || (nat_of_ascii c =? 37)%nat.

(** ** The dashboard home page *)

Module DashboardHome.

Module TrendPoint.
Record t : Type := mk {
  month : string;
  value : option Js.number
}.
End TrendPoint.

Module ClientSummaryResponse.
Record t : Type := mk {
  total_cleared : option Js.number;
  total_pending : option Js.number;
  trend : option (list TrendPoint.t)
}.
End ClientSummaryResponse.

Module AssignmentEfficiencyResponse.
Record t : Type := mk {
  total_km : option Js.number;
  total_amount : option Js.number
}.
End AssignmentEfficiencyResponse.

Module EmployeeListResponse.
Record t : Type := mk { total : option Js.number }.
End EmployeeListResponse.

(** The count of employees is a number of the server; the other four
    are lengths of arrays and their sum. *)
Module Counts.
Record t : Type := mk {
  employees : Js.number;
  vehicles : Z;
  clients : Z;
  guns : Z;
  inventoryTotal : Z
}.
End Counts.

(** The state of the page that [load] writes; [month] is not written
    by it. *)
Module State.
Record t : Type := mk {
  loading : bool;
  clearedSummary : option ClientSummaryResponse.t;
  pendingSummary : option ClientSummaryResponse.t;
  payrollReport : option Dashboard.PayrollReportResponse.t;
  assignmentMonthSummary : option AssignmentEfficiencyResponse.t;
  counts : Counts.t
}.
End State.

(** What each of the nine requests of [load] settles to when it is
    sent, in the order of the array.  A list answer is [Some n] for an
    array of [n] elements and [None] for anything that is not an
    array; the other answers are [None] for [null] and [undefined]. *)
Module Answers.
Record t : Type := mk {
  cleared : Settled (option ClientSummaryResponse.t);
  pending : Settled (option ClientSummaryResponse.t);
  payroll : Settled (option Dashboard.PayrollReportResponse.t);
  assignEff : Settled (option AssignmentEfficiencyResponse.t);
  empList : Settled (option EmployeeListResponse.t);
  vehicles : Settled (option nat);
  clients : Settled (option nat);
  generalItems : Settled (option nat);
  restrictedItems : Settled (option nat)
}.
End Answers.

(** [can ? api.get(...) : Promise.resolve(dflt)] *)
Definition guarded {A : Type} (can : bool) (request : Settled A) (dflt : A)
    : Settled A :=
  if can then request else Fulfilled dflt.

(** One more promise of a [Promise.all]: the array rejects with the
    reason of the first rejected promise in array order. *)
Definition andThen {A B : Type} (p : Settled A) (k : A -> Settled B)
    : Settled B :=
  match p with
  | Fulfilled a => k a
  | Rejected e => Rejected e
  end.

(** [Array.isArray(x) ? x.length : 0] *)
Definition lengthOr0 (x : option nat) : Z :=
  match x with
  | Some n => Z.of_nat n
  | None => 0
  end.

Definition noCounts : Counts.t := Counts.mk (Js.Fin 0) 0 0 0 0.

(** [load]: the state after it, and the messages passed to
    [msg.error].  [has] is the permission test of [useAuth]. *)
Definition load (has : string -> bool) (st : State.t) (api : Answers.t)
    : State.t * list string :=
  let canClients := has "clients:view"%string in
  let canPayroll := has "payroll:view"%string in
  let canFleet := has "fleet:view"%string in
  let canInv := has "inventory:view"%string in
  let all :=
    andThen (guarded canClients (Answers.cleared api) None) (fun cleared =>
    andThen (guarded canClients (Answers.pending api) None) (fun pending =>
    andThen (guarded canPayroll (Answers.payroll api) None) (fun payroll =>
    andThen (guarded canFleet (Answers.assignEff api) None) (fun assignEff =>
    andThen (Answers.empList api) (fun empList =>
    andThen (guarded canFleet (Answers.vehicles api) (Some 0%nat)) (fun vehicles =>
    andThen (guarded canClients (Answers.clients api) (Some 0%nat)) (fun clients =>
    andThen (guarded canInv (Answers.generalItems api) (Some 0%nat)) (fun generalItems =>
    andThen (guarded canInv (Answers.restrictedItems api) (Some 0%nat)) (fun restrictedItems =>
    Fulfilled
      (let vehiclesCount := lengthOr0 vehicles in
       let clientsCount := lengthOr0 clients in
       let generalCount := lengthOr0 generalItems in
       let gunsCount := lengthOr0 restrictedItems in
       State.mk false cleared pending payroll assignEff
         (Counts.mk
            (Js.Number_or0
               (match empList with
                | Some l => EmployeeListResponse.total l
                | None => None
                end))
            vehiclesCount clientsCount gunsCount
            (generalCount + gunsCount)))))))))))) in
  match all with
  | Fulfilled st' => (st', [])
  | Rejected e =>
      (State.mk false None None None None noCounts,
       [errorMessage e "Failed to load dashboard"])
  end.

Module Kpis.
Record t : Type := mk {
  receivablesPending : Js.number;
  receivablesCleared : Js.number;
  payrollTotalNet : Js.number;
  payrollPaid : Js.number;
  payrollDue : Js.number;
  kmCovered : Js.number;
  assignmentCost : Js.number
}.
End Kpis.

(** [Number(x?.field ?? 0)] *)
Definition fieldOr0 {A : Type} (field : A -> option Js.number) (x : option A)
    : Js.number :=
  Js.Number_or0 (match x with Some a => field a | None => None end).

(** [kpis] *)
Definition kpis (st : State.t) : Kpis.t :=
  Kpis.mk
    (fieldOr0 ClientSummaryResponse.total_pending (State.pendingSummary st))
    (fieldOr0 ClientSummaryResponse.total_cleared (State.clearedSummary st))
    (fieldOr0 Dashboard.PayrollReportResponse.total_net (State.payrollReport st))
    (Dashboard.payrollPaid (State.payrollReport st))
    (Dashboard.payrollDue (State.payrollReport st))
    (fieldOr0 AssignmentEfficiencyResponse.total_km
       (State.assignmentMonthSummary st))
    (fieldOr0 AssignmentEfficiencyResponse.total_amount
       (State.assignmentMonthSummary st)).

Module TrendRow.
Record t : Type := mk {
  month : string;
  pending : Js.number;
  cleared : Js.number
}.
End TrendRow.

(** [summary?.trend ?? []] *)
Definition trendOf (summary : option ClientSummaryResponse.t)
    : list TrendPoint.t :=
  match summary with
  | Some s =>
      match ClientSummaryResponse.trend s with
      | Some l => l
      | None => []
      end
  | None => []
  end.

(** The first loop of [receivablesTrend]. *)
Definition pendingStep (byMonth : Js.Map string TrendRow.t) (r : TrendPoint.t)
    : Js.Map string TrendRow.t :=
  Js.set string_dec (TrendPoint.month r)
    (TrendRow.mk (TrendPoint.month r) (Js.Number_or0 (TrendPoint.value r))
       (Js.Fin 0))
    byMonth.

(** The second loop: [existing.cleared = ...] writes into the object
    that the map holds, which is the same as putting the changed object
    back under its key. *)
Definition clearedStep (byMonth : Js.Map string TrendRow.t) (r : TrendPoint.t)
    : Js.Map string TrendRow.t :=
  match Js.get string_dec (TrendPoint.month r) byMonth with
  | Some existing =>
      Js.set string_dec (TrendPoint.month r)
        (TrendRow.mk (TrendRow.month existing) (TrendRow.pending existing)
           (Js.Number_or0 (TrendPoint.value r)))
        byMonth
  | None =>
      Js.set string_dec (TrendPoint.month r)
        (TrendRow.mk (TrendPoint.month r) (Js.Fin 0)
           (Js.Number_or0 (TrendPoint.value r)))
        byMonth
  end.

Definition trendByMonth (st : State.t) : Js.Map string TrendRow.t :=
  fold_left clearedStep (trendOf (State.clearedSummary st))
    (fold_left pendingStep (trendOf (State.pendingSummary st)) []).

(** [receivablesTrend] *)
Definition receivablesTrend (localeCompare : string -> string -> Z)
    (st : State.t) : list TrendRow.t :=
  Js.sort
    (fun a b => localeCompare (TrendRow.month a) (TrendRow.month b))
    (Js.values (trendByMonth st)).

Module Slice.
Record t : Type := mk {
  type : string;
  value : Js.number
}.
End Slice.

(** [Number(x || 0)] for a number [x]. *)
Definition numOr0 (x : Js.number) : Js.number :=
  if Js.truthy_num x then x else Js.Fin 0.

(** [payrollPieData] *)
Definition payrollPieData (k : Kpis.t) : list Slice.t :=
  let due := numOr0 (Kpis.payrollDue k) in
  let paid := numOr0 (Kpis.payrollPaid k) in
  filter (fun x => Js.gt (Slice.value x) (Js.Fin 0))
    [Slice.mk "Due" due; Slice.mk "Paid" paid].

(** The total in the middle of the pie ([customHtml]), before it is
    formatted. *)
Definition pieTotal (payrollPieData : list Slice.t) : Js.number :=
  fold_left (fun a r => Js.add a (numOr0 (Slice.value r))) payrollPieData
    (Js.Fin 0).

End DashboardHome.

(** A request that fails when it is sent. *)
Definition rejected {A : Type} (p : Settled A) : bool :=
  match p with
  | Rejected _ => true
  | Fulfilled _ => false
  end.

(** The value of the last point of a trend for a month, and zero when
    the trend has no point for it. *)
Definition lastValue (month : string) (trend : list DashboardHome.TrendPoint.t)
    : Js.number :=
  match
    List.find (fun r => (DashboardHome.TrendPoint.month r =? month)%string)
      (rev trend)
  with
  | Some r => Js.Number_or0 (DashboardHome.TrendPoint.value r)
  | None => Js.Fin 0
  end.

(** A dashboard whose pending trend names one month twice and whose
    cleared trend has a month of its own, with three payroll rows. *)
Definition sampleDashboard : DashboardHome.State.t :=
  DashboardHome.State.mk false
    (Some
       (DashboardHome.ClientSummaryResponse.mk (Some (Js.Fin 4)) None
          (Some
             [DashboardHome.TrendPoint.mk "2024-03" None;
              DashboardHome.TrendPoint.mk "2024-01" (Some (Js.Fin 4))])))
    (Some
       (DashboardHome.ClientSummaryResponse.mk None (Some (Js.Fin 16))
          (Some
             [DashboardHome.TrendPoint.mk "2024-02" (Some (Js.Fin 5));
              DashboardHome.TrendPoint.mk "2024-01" (Some (Js.Fin 7));
              DashboardHome.TrendPoint.mk "2024-02" (Some (Js.Fin 9))])))
    (Some
       (Dashboard.PayrollReportResponse.mk (Some (Js.Fin 175))
          [Dashboard.PayrollRow.mk "E1" (Some "Paid"%string) (Some (Js.Fin 100));
           Dashboard.PayrollRow.mk "E2" (Some "unpaid"%string) (Some (Js.Fin 50));
           Dashboard.PayrollRow.mk "E3" None (Some (Js.Fin 25))]))
    None
    DashboardHome.noCounts.

(** ** The order of numbers

    A key by which numbers other than [NaN] compare: the sign first,
    then the exponent, then the mantissa. *)
Definition numberKey (x : Js.number) : Z * (Z * Z) :=
  match x with
  | S754_nan | S754_zero _ => (0, (0, 0))
  | S754_infinity true => (-2, (0, 0))
  | S754_infinity false => (2, (0, 0))
  | S754_finite true m e => (-1, (- e, - Zpos m))
  | S754_finite false m e => (1, (e, Zpos m))
  end.

Definition keyLe (a b : Z * (Z * Z)) : Prop :=
  fst a < fst b
  \/ (fst a = fst b
      /\ (fst (snd a) < fst (snd b)
          \/ (fst (snd a) = fst (snd b) /\ snd (snd a) <= snd (snd b)))).

(** * Properties *)

(** ** Doubles

    What the properties use of the arithmetic of doubles: rounding an
    integer keeps its sign and gives a valid double, comparison is a
    total order apart from [NaN], and the sign of a difference is the
    comparison of its terms. *)

Lemma fexp_eq (x : Z) : fexp Js.prec Js.emax x = Z.max (x - 53) (-1074).
Proof. reflexivity. Qed.

Lemma digits2_bounds (p : positive) :
  2 ^ (Zpos (digits2_pos p) - 1) <= Zpos p < 2 ^ Zpos (digits2_pos p).
Proof.
  induction p as [p IH|p IH|]; cbn [digits2_pos].
  - rewrite Pos2Z.inj_succ.
    replace (Z.succ (Zpos (digits2_pos p)) - 1) with (Zpos (digits2_pos p)) by lia.
    rewrite Z.pow_succ_r by lia.
    replace (2 ^ Zpos (digits2_pos p))
      with (2 * 2 ^ (Zpos (digits2_pos p) - 1)) in *
      by (rewrite <- Z.pow_succ_r by lia; f_equal; lia).
    lia.
  - rewrite Pos2Z.inj_succ.
    replace (Z.succ (Zpos (digits2_pos p)) - 1) with (Zpos (digits2_pos p)) by lia.
    rewrite Z.pow_succ_r by lia.
    replace (2 ^ Zpos (digits2_pos p))
      with (2 * 2 ^ (Zpos (digits2_pos p) - 1)) in *
      by (rewrite <- Z.pow_succ_r by lia; f_equal; lia).
    lia.
  - simpl. lia.
Qed.

Lemma digits2_unique (p : positive) (k : Z) :
  2 ^ (k - 1) <= Zpos p < 2 ^ k -> Zpos (digits2_pos p) = k.
Proof.
  intros [Hlo Hhi]. pose proof (digits2_bounds p) as [Dlo Dhi].
  assert (Hk : 0 < k).
  { destruct (Z_lt_le_dec 0 k) as [H|H]; [exact H|].
    destruct (Z.eq_dec k 0) as [->|Hne]; [simpl in Hhi; lia|].
    rewrite Z.pow_neg_r in Hhi by lia. lia. }
  assert (H1 : Zpos (digits2_pos p) - 1 < k).
  { apply (Z.pow_lt_mono_r_iff 2); lia. }
  assert (H2 : k - 1 < Zpos (digits2_pos p)).
  { apply (Z.pow_lt_mono_r_iff 2); lia. }
  lia.
Qed.

Lemma shr_1_m (mrs : shr_record) :
  0 <= shr_m mrs -> shr_m (shr_1 mrs) = shr_m mrs / 2.
Proof.
  destruct mrs as [m r s]. cbn [shr_m]. intros Hm. unfold shr_1.
  destruct m as [|[p|p|]|p]; cbn [shr_m]; try reflexivity; try lia.
  - rewrite Pos2Z.inj_xI. apply Z.div_unique with (r := 1); lia.
  - rewrite Pos2Z.inj_xO. apply Z.div_unique with (r := 0); lia.
Qed.

Lemma pow2_pos (k : Z) : 0 <= k -> 0 < 2 ^ k.
Proof. intros H. apply Z.pow_pos_nonneg; lia. Qed.

Lemma iter_shr_m (p : positive) (mrs : shr_record) :
  0 <= shr_m mrs ->
  shr_m (iter_pos shr_1 p mrs) = shr_m mrs / 2 ^ Zpos p.
Proof.
  revert mrs. induction p as [p IH|p IH|]; intros mrs Hm; cbn [iter_pos].
  - assert (H1 : 0 <= shr_m (shr_1 mrs)).
    { rewrite shr_1_m by exact Hm. apply Z.div_pos; lia. }
    assert (H2 : 0 <= shr_m (iter_pos shr_1 p (shr_1 mrs))).
    { rewrite IH by exact H1. apply Z.div_pos; [exact H1|]. apply pow2_pos; lia. }
    rewrite IH by exact H2. rewrite IH by exact H1. rewrite shr_1_m by exact Hm.
    assert (Hp : 0 < 2 ^ Zpos p) by (apply pow2_pos; lia).
    rewrite !Z.div_div by lia.
    f_equal. change (Zpos p~1) with (2 * Zpos p + 1).
    replace (2 * Zpos p + 1) with (1 + Zpos p + Zpos p) by lia.
    rewrite !Z.pow_add_r by lia. change (2 ^ 1) with 2. lia.
  - assert (H2 : 0 <= shr_m (iter_pos shr_1 p mrs)).
    { rewrite IH by exact Hm. apply Z.div_pos; [exact Hm|]. apply pow2_pos; lia. }
    rewrite IH by exact H2. rewrite IH by exact Hm.
    assert (Hp : 0 < 2 ^ Zpos p) by (apply pow2_pos; lia).
    rewrite Z.div_div by lia.
    f_equal. change (Zpos p~0) with (2 * Zpos p).
    replace (2 * Zpos p) with (Zpos p + Zpos p) by lia.
    rewrite Z.pow_add_r by lia. reflexivity.
  - rewrite shr_1_m by exact Hm. reflexivity.
Qed.

Lemma shr_record_of_loc_m (m : Z) (l : location) :
  shr_m (shr_record_of_loc m l) = m.
Proof. destruct l as [|[| |]]; reflexivity. Qed.

(** Shifting a mantissa to the exponent that its size asks for gives a
    mantissa of the right size. *)
Lemma shr_fexp_canonical (m : positive) (e : Z) (l : location) :
  -1074 <= e ->
  e <= fexp Js.prec Js.emax (Zpos (digits2_pos m) + e) ->
  exists m' r s,
    shr_fexp Js.prec Js.emax (Zpos m) e l
    = (Build_shr_record (Zpos m') r s,
       fexp Js.prec Js.emax (Zpos (digits2_pos m) + e))
    /\ Zpos (digits2_pos m') + fexp Js.prec Js.emax (Zpos (digits2_pos m) + e)
       = Zpos (digits2_pos m) + e
    /\ Zpos m' <= Zpos m.
Proof.
  intros He Hal. unfold shr_fexp, shr. cbn [Zdigits2].
  set (d := Zpos (digits2_pos m)) in *.
  pose proof (digits2_bounds m) as [Dlo Dhi]. fold d in Dlo, Dhi.
  rewrite fexp_eq in *.
  destruct (Z.max (d + e - 53) (-1074) - e) as [|p|p] eqn:En; [| |lia].
  - pose proof (shr_record_of_loc_m (Zpos m) l) as Hm.
    destruct (shr_record_of_loc (Zpos m) l) as [m0 r s]. cbn [shr_m] in Hm.
    subst m0. exists m, r, s. split; [f_equal; lia|]. split; lia.
  - assert (Hn : Zpos p = d - 53) by lia.
    pose proof (iter_shr_m p (shr_record_of_loc (Zpos m) l)) as Hm.
    rewrite shr_record_of_loc_m in Hm. specialize (Hm ltac:(lia)).
    assert (P1 : 0 < 2 ^ Zpos p) by (apply pow2_pos; lia).
    assert (P2 : 2 ^ Zpos p * 2 ^ 52 = 2 ^ (d - 1)).
    { rewrite <- Z.pow_add_r by lia. f_equal. lia. }
    assert (P3 : 2 ^ Zpos p * 2 ^ 53 = 2 ^ d).
    { rewrite <- Z.pow_add_r by lia. f_equal. lia. }
    assert (Q1 : 2 ^ 52 <= Zpos m / 2 ^ Zpos p).
    { apply Z.div_le_lower_bound; lia. }
    assert (Q2 : Zpos m / 2 ^ Zpos p < 2 ^ 53).
    { apply Z.div_lt_upper_bound; lia. }
    assert (Q3 : Zpos m / 2 ^ Zpos p <= Zpos m).
    { apply Z.div_le_upper_bound; [lia|]. nia. }
    destruct (iter_pos shr_1 p (shr_record_of_loc (Zpos m) l)) as [m1 r s].
    cbn [shr_m] in Hm. subst m1.
    destruct (Zpos m / 2 ^ Zpos p) as [|m'|m'] eqn:Eq;
      [change (2 ^ 52) with 4503599627370496 in Q1; lia| |
       change (2 ^ 52) with 4503599627370496 in Q1; lia].
    exists m', r, s. split; [f_equal; lia|].
    rewrite (digits2_unique m' 53) by (change (53 - 1) with 52; lia).
    split; lia.
Qed.

Lemma digits2_mono (a b : positive) :
  Zpos a <= Zpos b -> Zpos (digits2_pos a) <= Zpos (digits2_pos b).
Proof.
  intros H. pose proof (digits2_bounds a) as [A1 A2].
  pose proof (digits2_bounds b) as [B1 B2].
  assert (Zpos (digits2_pos a) - 1 < Zpos (digits2_pos b)); [|lia].
  apply (Z.pow_lt_mono_r_iff 2); lia.
Qed.

Lemma round_nearest_even_cases (m : Z) (l : location) :
  round_nearest_even m l = m \/ round_nearest_even m l = m + 1.
Proof.
  destruct l as [|[| |]]; cbn [round_nearest_even]; try tauto.
  destruct (Z.even m); tauto.
Qed.

(** Rounding a positive mantissa at an exponent not below the least
    one: the result keeps the sign and is a valid double or an
    infinity. *)
Lemma binary_round_aux_valid (s : bool) (m : positive) (e : Z) (l : location) :
  -1074 <= e ->
  e <= fexp Js.prec Js.emax (Zpos (digits2_pos m) + e) ->
  binary_round_aux Js.prec Js.emax s (Zpos m) e l = S754_infinity s
  \/ exists m' e',
       binary_round_aux Js.prec Js.emax s (Zpos m) e l = S754_finite s m' e'
       /\ bounded Js.prec Js.emax m' e' = true.
Proof.
  intros He Hal. unfold binary_round_aux.
  destruct (shr_fexp_canonical m e l He Hal) as (m1 & r1 & s1 & E1 & D1 & _).
  rewrite E1. cbn [shr_m].
  set (E := fexp Js.prec Js.emax (Zpos (digits2_pos m) + e)) in *.
  assert (HE : -1074 <= E) by (unfold E; rewrite fexp_eq; lia).
  assert (C1 : fexp Js.prec Js.emax (Zpos (digits2_pos m1) + E) = E).
  { rewrite D1. reflexivity. }
  set (m2 := round_nearest_even (Zpos m1)
               (loc_of_shr_record (Build_shr_record (Zpos m1) r1 s1))).
  assert (H2 : exists p2, m2 = Zpos p2 /\ Zpos m1 <= Zpos p2).
  { destruct (round_nearest_even_cases (Zpos m1)
                (loc_of_shr_record (Build_shr_record (Zpos m1) r1 s1)))
      as [H|H]; fold m2 in H; rewrite H.
    - exists m1. split; [reflexivity|lia].
    - exists (m1 + 1)%positive. split; [reflexivity|lia]. }
  destruct H2 as (p2 & -> & Hle).
  assert (Hal2 : E <= fexp Js.prec Js.emax (Zpos (digits2_pos p2) + E)).
  { pose proof (digits2_mono m1 p2 Hle) as Hd. rewrite <- C1 at 1.
    rewrite !fexp_eq. lia. }
  destruct (shr_fexp_canonical p2 E loc_Exact HE Hal2)
    as (m3 & r3 & s3 & E3 & D3 & _).
  rewrite E3. cbn [shr_m].
  set (E' := fexp Js.prec Js.emax (Zpos (digits2_pos p2) + E)) in *.
  destruct (E' <=? Js.emax - Js.prec) eqn:Hb; [right|now left].
  exists m3, E'. split; [reflexivity|].
  unfold bounded, canonical_mantissa. rewrite Hb, andb_true_r.
  apply Z.eqb_eq. rewrite D3. reflexivity.
Qed.

Lemma iter_xO (d m : positive) : Zpos (Pos.iter xO m d) = Zpos m * 2 ^ Zpos d.
Proof.
  induction d as [|d IH] using Pos.peano_ind.
  - simpl. lia.
  - rewrite Pos.iter_succ, Pos2Z.inj_xO, IH, Pos2Z.inj_succ, Z.pow_succ_r by lia.
    lia.
Qed.

Lemma shl_align_spec (m : positive) (e e' : Z) :
  Zpos (fst (shl_align m e e')) = Zpos m * 2 ^ (e - snd (shl_align m e e'))
  /\ snd (shl_align m e e') = Z.min e e'.
Proof.
  unfold shl_align. destruct (e' - e) as [|d|d] eqn:Ed; cbn [fst snd].
  - rewrite Z.sub_diag. simpl. lia.
  - rewrite Z.sub_diag. simpl. lia.
  - rewrite iter_xO. split; [f_equal; f_equal; lia|lia].
Qed.

Lemma digits2_shift (m m' : positive) (k : Z) :
  0 <= k -> Zpos m' = Zpos m * 2 ^ k ->
  Zpos (digits2_pos m') = Zpos (digits2_pos m) + k.
Proof.
  intros Hk E. apply digits2_unique. rewrite E.
  pose proof (digits2_bounds m) as [Dlo Dhi].
  assert (P : 0 < 2 ^ k) by (apply pow2_pos; lia).
  replace (Zpos (digits2_pos m) + k - 1) with (Zpos (digits2_pos m) - 1 + k) by lia.
  rewrite !Z.pow_add_r by lia. nia.
Qed.

Lemma binary_round_valid (s : bool) (m : positive) (e : Z) :
  -1074 <= e ->
  binary_round Js.prec Js.emax s m e = S754_infinity s
  \/ exists m' e',
       binary_round Js.prec Js.emax s m e = S754_finite s m' e'
       /\ bounded Js.prec Js.emax m' e' = true.
Proof.
  intros He. unfold binary_round.
  pose proof (shl_align_spec m e
                (fexp Js.prec Js.emax (Zpos (digits2_pos m) + e))) as [Hm Hz].
  destruct (shl_align m e (fexp Js.prec Js.emax (Zpos (digits2_pos m) + e)))
    as [mz ez]. cbn [fst snd] in Hm, Hz.
  assert (Hd : Zpos (digits2_pos mz) = Zpos (digits2_pos m) + (e - ez)).
  { apply digits2_shift; [lia|exact Hm]. }
  apply binary_round_aux_valid.
  - rewrite Hz, fexp_eq. lia.
  - rewrite Hd. replace (Zpos (digits2_pos m) + (e - ez) + ez)
      with (Zpos (digits2_pos m) + e) by lia. lia.
Qed.

(** The number made of the integer [z] in units of [2^e] has the sign
    of [z], and is a valid double or an infinity. *)
Lemma binary_normalize_spec (z e : Z) :
  -1074 <= e ->
  Js.signum (binary_normalize Js.prec Js.emax z e false) = Z.sgn z
  /\ valid_binary Js.prec Js.emax (binary_normalize Js.prec Js.emax z e false)
     = true
  /\ Js.isNaN (binary_normalize Js.prec Js.emax z e false) = false.
Proof.
  intros He. destruct z as [|p|p]; cbn [binary_normalize].
  - repeat split.
  - destruct (binary_round_valid false p e He) as [->|(m' & e' & -> & Hb)];
      repeat split; exact Hb.
  - destruct (binary_round_valid true p e He) as [->|(m' & e' & -> & Hb)];
      repeat split; exact Hb.
Qed.

Lemma bounded_facts (m : positive) (e : Z) :
  bounded Js.prec Js.emax m e = true ->
  -1074 <= e /\ Zpos (digits2_pos m) <= 53
  /\ (-1074 < e -> Zpos (digits2_pos m) = 53).
Proof.
  unfold bounded, canonical_mantissa. intros H. apply andb_prop in H.
  destruct H as [H _]. apply Z.eqb_eq in H. rewrite fexp_eq in H. lia.
Qed.

(** Two valid doubles brought to their smaller exponent compare as
    their exponents and then their mantissas do. *)
Lemma aligned_compare (mx my : positive) (ex ey : Z) :
  bounded Js.prec Js.emax mx ex = true ->
  bounded Js.prec Js.emax my ey = true ->
  (Zpos (fst (shl_align mx ex (Z.min ex ey)))
   ?= Zpos (fst (shl_align my ey (Z.min ex ey))))
  = match ex ?= ey with
    | Lt => Lt
    | Gt => Gt
    | Eq => Pos.compare_cont Eq mx my
    end.
Proof.
  intros Bx By.
  destruct (bounded_facts mx ex Bx) as (Ex & Dx & Nx).
  destruct (bounded_facts my ey By) as (Ey & Dy & Ny).
  pose proof (digits2_bounds mx) as [Xlo Xhi].
  pose proof (digits2_bounds my) as [Ylo Yhi].
  pose proof (shl_align_spec mx ex (Z.min ex ey)) as [Hx Hxe].
  pose proof (shl_align_spec my ey (Z.min ex ey)) as [Hy Hye].
  rewrite Hx, Hy, Hxe, Hye.
  assert (Big : forall (a b : positive) (k : Z),
            Zpos (digits2_pos a) <= 53 -> Zpos (digits2_pos b) = 53 ->
            0 < k -> Zpos a < Zpos b * 2 ^ k).
  { intros a b k Da Db Hk.
    pose proof (digits2_bounds a) as [_ Ahi].
    pose proof (digits2_bounds b) as [Blo _]. rewrite Db in Blo.
    assert (A53 : Zpos a < 2 ^ 53).
    { eapply Z.lt_le_trans; [exact Ahi|]. apply Z.pow_le_mono_r; lia. }
    assert (K : 2 ^ 1 <= 2 ^ k) by (apply Z.pow_le_mono_r; lia).
    change (2 ^ 1) with 2 in K. change (53 - 1) with 52 in Blo.
    change (2 ^ 53) with (2 * 2 ^ 52) in A53. nia. }
  destruct (Z.compare_spec ex ey) as [E|L|G].
  - subst ey. rewrite !Z.min_id, Z.sub_diag. simpl (2 ^ 0). rewrite !Z.mul_1_r.
    reflexivity.
  - replace (Z.min ex (Z.min ex ey)) with ex by lia.
    replace (Z.min ey (Z.min ex ey)) with ex by lia.
    rewrite Z.sub_diag. simpl (2 ^ 0). rewrite Z.mul_1_r.
    apply Z.compare_lt_iff. apply Big; [exact Dx | apply Ny; lia | lia].
  - replace (Z.min ex (Z.min ex ey)) with ey by lia.
    replace (Z.min ey (Z.min ex ey)) with ey by lia.
    rewrite Z.sub_diag. simpl (2 ^ 0). rewrite Z.mul_1_r.
    apply Z.compare_gt_iff. apply Big; [exact Dy | apply Nx; lia | lia].
Qed.

(** The sign of a difference of two valid doubles is their
    comparison: a difference of two distinct doubles is never rounded
    to zero, and the difference of two equal infinities, which is not
    a number, counts as zero. *)
Lemma sub_signum (x y : Js.number) :
  valid_binary Js.prec Js.emax x = true ->
  valid_binary Js.prec Js.emax y = true ->
  Js.signum (Js.sub x y)
  = match SFcompare x y with
    | Some Lt => -1
    | Some Gt => 1
    | _ => 0
    end.
Proof.
  intros Vx Vy.
  destruct x as [sx|sx| |sx mx ex], y as [sy|sy| |sy my ey];
    try reflexivity;
    try (destruct sx; reflexivity);
    try (destruct sy; reflexivity);
    try (destruct sx, sy; reflexivity).
  cbn [valid_binary] in Vx, Vy.
  unfold Js.sub, SFsub.
  destruct (bounded_facts mx ex Vx) as (Ex & _).
  destruct (bounded_facts my ey Vy) as (Ey & _).
  destruct (binary_normalize_spec
              (cond_Zopp sx (Zpos (fst (shl_align mx ex (Z.min ex ey))))
               - cond_Zopp sy (Zpos (fst (shl_align my ey (Z.min ex ey)))))
              (Z.min ex ey) ltac:(lia)) as (Hs & _).
  cbv zeta. rewrite Hs. clear Hs.
  pose proof (aligned_compare mx my ex ey Vx Vy) as HC.
  set (X := Zpos (fst (shl_align mx ex (Z.min ex ey)))) in *.
  set (Y := Zpos (fst (shl_align my ey (Z.min ex ey)))) in *.
  assert (PX : 0 < X) by (unfold X; lia).
  assert (PY : 0 < Y) by (unfold Y; lia).
  clearbody X Y. unfold SFcompare.
  pose proof (Z.compare_spec X Y) as S.
  destruct sx, sy; cbn [cond_Zopp]; try lia.
  - destruct (Z.compare_spec ex ey) as [E|L|G];
      [destruct (Pos.compare_cont Eq mx my) eqn:Ec; cbn [CompOpp]| |];
      rewrite HC in S; inversion S; lia.
  - destruct (Z.compare_spec ex ey) as [E|L|G];
      [destruct (Pos.compare_cont Eq mx my) eqn:Ec| |];
      rewrite HC in S; inversion S; lia.
Qed.

Lemma le_key (x y : Js.number) :
  Js.isNaN x = false -> Js.isNaN y = false ->
  (Js.le x y = true <-> keyLe (numberKey x) (numberKey y)).
Proof.
  unfold Js.le, SFleb, SFcompare, keyLe.
  destruct x as [sx|sx| |sx mx ex], y as [sy|sy| |sy my ey];
    try discriminate; intros _ _;
    try (destruct sx); try (destruct sy); cbn [numberKey fst snd];
    try (split; [intros _; lia | reflexivity]);
    try (split; [discriminate | lia]).
  - change (Pos.compare_cont Eq mx my) with (Pos.compare mx my).
    destruct (Z.compare_spec ex ey) as [E|L|G],
             (Pos.compare_spec mx my) as [E'|L'|G']; cbn [CompOpp];
      (split; [intros H; try discriminate H; lia | intros H; try reflexivity; lia]).
  - change (Pos.compare_cont Eq mx my) with (Pos.compare mx my).
    destruct (Z.compare_spec ex ey) as [E|L|G],
             (Pos.compare_spec mx my) as [E'|L'|G'];
      (split; [intros H; try discriminate H; lia | intros H; try reflexivity; lia]).
Qed.

Lemma le_total (x y : Js.number) :
  Js.isNaN x = false -> Js.isNaN y = false ->
  Js.le x y = true \/ Js.le y x = true.
Proof.
  intros Hx Hy. rewrite (le_key x y Hx Hy), (le_key y x Hy Hx).
  unfold keyLe. lia.
Qed.

Lemma le_trans (x y z : Js.number) :
  Js.isNaN x = false -> Js.isNaN y = false -> Js.isNaN z = false ->
  Js.le x y = true -> Js.le y z = true -> Js.le x z = true.
Proof.
  intros Hx Hy Hz.
  rewrite (le_key x y Hx Hy), (le_key y z Hy Hz), (le_key x z Hx Hz).
  unfold keyLe. lia.
Qed.

Lemma Fin_valid (z : Z) : valid_binary Js.prec Js.emax (Js.Fin z) = true.
Proof. apply (binary_normalize_spec z 0). lia. Qed.

Lemma neg_valid (x : Js.number) :
  valid_binary Js.prec Js.emax x = true ->
  valid_binary Js.prec Js.emax (Js.neg x) = true.
Proof. destruct x; intros H; exact H. Qed.

Lemma parseInt_valid (s : string) :
  valid_binary Js.prec Js.emax (Js.parseInt s) = true.
Proof.
  unfold Js.parseInt.
  assert (H : forall r, valid_binary Js.prec Js.emax
                          match Js.digits None r with
                          | Some z => Js.Fin z
                          | None => Js.NaN
                          end = true).
  { intros r. destruct (Js.digits None r); [apply Fin_valid|reflexivity]. }
  destruct (Js.trimStart s) as [|c r]; [apply H|].
  destruct (Ascii.eqb c "-") eqn:E1.
  - apply Ascii.eqb_eq in E1. subst c.
    destruct (Js.digits None r); [apply neg_valid, Fin_valid|reflexivity].
  - destruct (Ascii.eqb c "+") eqn:E2.
    + apply Ascii.eqb_eq in E2. subst c. apply H.
    + destruct c as [[] [] [] [] [] [] [] []]; try discriminate; apply H.
Qed.

(** The sign that the sort reads off a difference, as a comparison. *)
Lemma sub_signum_le (x y : Js.number) :
  valid_binary Js.prec Js.emax x = true ->
  valid_binary Js.prec Js.emax y = true ->
  Js.isNaN x = false -> Js.isNaN y = false ->
  (Js.signum (Js.sub x y) <= 0 <-> Js.le x y = true).
Proof.
  intros Vx Vy Nx Ny. rewrite (sub_signum x y Vx Vy).
  unfold Js.le, SFleb.
  destruct (SFcompare x y) as [[| |]|] eqn:E.
  - split; [reflexivity|lia].
  - split; [reflexivity|lia].
  - split; [lia|discriminate].
  - destruct x, y; try discriminate; simpl in E;
      repeat match goal with s : bool |- _ => destruct s end; discriminate.
Qed.

Lemma Fin_0 : Js.Fin 0 = S754_zero false.
Proof. reflexivity. Qed.

Lemma finite_positive (q : Js.number) :
  negb (Js.isFinite q) || Js.le q (Js.Fin 0)
  = negb (Js.isFinite q && Js.gt q (Js.Fin 0)).
Proof. destruct q as [s|s| |s m e]; try destruct s; reflexivity. Qed.

Lemma le_not_gt (q : Js.number) :
  Js.le q (Js.Fin 0) = true -> Js.gt q (Js.Fin 0) = false.
Proof.
  destruct q as [s|s| |s m e]; try destruct s; try reflexivity; discriminate.
Qed.

Section MapFacts.
Context {K V : Type}.
Variable K_dec : forall a b : K, {a = b} + {a <> b}.

Lemma get_set_eq (k : K) (v : V) (m : Js.Map K V) :
  Js.get K_dec k (Js.set K_dec k v m) = Some v.
Proof.
  induction m as [|[k' v'] m IH]; simpl.
  - destruct (K_dec k k); [reflexivity | contradiction].
  - destruct (K_dec k k') as [->|Hne]; simpl.
    + destruct (K_dec k' k'); [reflexivity | contradiction].
    + destruct (K_dec k k'); [contradiction | exact IH].
Qed.

Lemma get_set_ne (k k0 : K) (v : V) (m : Js.Map K V) :
  k0 <> k -> Js.get K_dec k0 (Js.set K_dec k v m) = Js.get K_dec k0 m.
Proof.
  intros Hne. induction m as [|[k' v'] m IH]; simpl.
  - destruct (K_dec k0 k); [contradiction | reflexivity].
  - destruct (K_dec k k') as [->|Hk]; simpl.
    + destruct (K_dec k0 k'); [contradiction | reflexivity].
    + destruct (K_dec k0 k'); [reflexivity | exact IH].
Qed.

Lemma keys_set (k : K) (v : V) (m : Js.Map K V) :
  Js.keys (Js.set K_dec k v m)
  = match Js.get K_dec k m with
    | Some _ => Js.keys m
    | None => Js.keys m ++ [k]
    end.
Proof.
  unfold Js.keys.
  induction m as [|[k' v'] m IH]; simpl; [reflexivity|].
  destruct (K_dec k k') as [->|Hk]; simpl; [reflexivity|].
  rewrite IH. destruct (Js.get K_dec k m); reflexivity.
Qed.

Lemma get_None_keys (k : K) (m : Js.Map K V) :
  Js.get K_dec k m = None <-> ~ In k (Js.keys m).
Proof.
  induction m as [|[k' v'] m IH]; simpl; [tauto|].
  destruct (K_dec k k') as [->|Hk].
  - split; [discriminate | intros H; exfalso; apply H; now left].
  - rewrite IH. split.
    + intros H [He|Hi]; [apply Hk; now symmetry | now apply H].
    + intros H Hi. apply H. now right.
Qed.

Lemma keys_set_NoDup (k : K) (v : V) (m : Js.Map K V) :
  NoDup (Js.keys m) -> NoDup (Js.keys (Js.set K_dec k v m)).
Proof.
  intros Hnd. rewrite keys_set.
  destruct (Js.get K_dec k m) eqn:Hg; [exact Hnd|].
  apply get_None_keys in Hg.
  apply NoDup_rev in Hnd. rewrite <- (rev_involutive (Js.keys m ++ [k])).
  apply NoDup_rev. rewrite rev_app_distr. simpl.
  constructor; [rewrite <- in_rev; exact Hg | exact Hnd].
Qed.

Lemma get_In (k : K) (v : V) (m : Js.Map K V) :
  Js.get K_dec k m = Some v -> In (k, v) m.
Proof.
  induction m as [|[k' v'] m IH]; simpl; [discriminate|].
  destruct (K_dec k k') as [->|Hk].
  - intros [= ->]. now left.
  - intros H. right. now apply IH.
Qed.

Lemma In_get (k : K) (v : V) (m : Js.Map K V) :
  NoDup (Js.keys m) -> In (k, v) m -> Js.get K_dec k m = Some v.
Proof.
  induction m as [|[k' v'] m IH]; simpl; [tauto|].
  intros Hnd [He|Hi].
  - injection He as -> ->. destruct (K_dec k k); [reflexivity | contradiction].
  - inversion Hnd as [|? ? Hn Hnd']; subst.
    destruct (K_dec k k') as [->|Hk].
    + exfalso. apply Hn. change (In (fst (k', v)) (map fst m)).
      now apply in_map.
    + now apply IH.
Qed.

End MapFacts.

Section SortFacts.
Context {A : Type}.
Variable cmp : A -> A -> Z.

Lemma insert_perm (x : A) (l : list A) :
  Permutation (x :: l) (Js.insert cmp x l).
Proof.
  induction l as [|y l IH]; simpl; [reflexivity|].
  destruct (cmp x y <=? 0); [reflexivity|].
  rewrite perm_swap. now apply perm_skip.
Qed.

Lemma sort_perm (l : list A) : Permutation l (Js.sort cmp l).
Proof.
  induction l as [|x l IH]; simpl; [reflexivity|].
  rewrite <- insert_perm. now apply perm_skip.
Qed.

Lemma sort_In (x : A) (l : list A) : In x (Js.sort cmp l) <-> In x l.
Proof.
  split; apply Permutation_in; [symmetry|]; apply sort_perm.
Qed.

Hypothesis cmp_total : forall a b, cmp a b <= 0 \/ cmp b a <= 0.

Lemma insert_sorted (x : A) (l : list A) :
  Sorted (fun a b => cmp a b <= 0) l ->
  Sorted (fun a b => cmp a b <= 0) (Js.insert cmp x l).
Proof.
  induction l as [|y l IH]; simpl; intros Hs.
  - repeat constructor.
  - destruct (Z.leb_spec (cmp x y) 0) as [Hle|Hgt].
    + constructor; [exact Hs | constructor; exact Hle].
    + inversion Hs as [|? ? Hs' Hhd]; subst.
      constructor; [now apply IH|].
      destruct l as [|z l]; simpl.
      * constructor. destruct (cmp_total y x); [assumption | lia].
      * destruct (Z.leb_spec (cmp x z) 0).
        -- constructor. destruct (cmp_total y x); [assumption | lia].
        -- constructor. now inversion Hhd.
Qed.

Lemma sort_sorted (l : list A) :
  Sorted (fun a b => cmp a b <= 0) (Js.sort cmp l).
Proof.
  induction l as [|x l IH]; simpl; [constructor | now apply insert_sorted].
Qed.

End SortFacts.

(** ** The model at work *)

Example parseInt_prefix :
  Js.parseInt "  -12abc" = Js.Fin (-12) /\ Js.parseInt "n/a" = Js.NaN
  /\ Js.parseInt EmptyString = Js.NaN /\ Js.parseInt "007" = Js.Fin 7
  /\ Js.parseInt "-0" = S754_zero true.
Proof. repeat split. Qed.

(** The sample amounts are the doubles that the decimal literals 0.1,
    0.2 and 0.3 denote, by the floating-point unit of the machine. *)
Module DecimalLiterals.
Import PrimFloat FloatOps.
#[local] Set Warnings "-inexact-float".

Example sample_amounts :
  Prim2SF 0.1%float = oneTenth /\ Prim2SF 0.2%float = twoTenths
  /\ Prim2SF 0.3%float = threeTenths
  /\ Prim2SF 0.6%float = S754_finite false 5404319552844595 (-53)
  /\ Prim2SF 0.6000000000000001%float
     = S754_finite false 5404319552844596 (-53)
  /\ Prim2SF 0.30000000000000004%float
     = S754_finite false 5404319552844596 (-54)
  /\ Prim2SF (0.1 + 0.2)%float = Js.add oneTenth twoTenths
  /\ Prim2SF 9007199254740993%float = Js.Fin 9007199254740993.
Proof. repeat split. Qed.

End DecimalLiterals.

(** Integers are exact up to [2^53]; beyond, the nearest double stands
    for them, and sums are rounded. *)
Example doubles_round :
  Js.Fin 9007199254740992 = S754_finite false 4503599627370496 1
  /\ Js.Fin 9007199254740993 = Js.Fin 9007199254740992
  /\ Js.parseInt "9007199254740993" = Js.Fin 9007199254740992
  /\ Js.add (Js.Fin 2) (Js.Fin 3) = Js.Fin 5
  /\ Js.sub (Js.Fin 2) (Js.Fin 3) = Js.Fin (-1)
  /\ Js.add oneTenth twoTenths
     = S754_finite false 5404319552844596 (-54)
  /\ Js.add oneTenth twoTenths <> threeTenths.
Proof. repeat split. discriminate. Qed.

Example trim_both_ends : Js.trim "  H1 " = "H1"%string.
Proof. reflexivity. Qed.

Example sort_is_stable :
  Js.sort (fun a b => fst a - fst b) [(2, "a"); (1, "b"); (2, "c"); (1, "d")]%string
  = [(1, "b"); (1, "d"); (2, "a"); (2, "c")]%string.
Proof. reflexivity. Qed.

Example scenario_aggregate :
  aggregate codeUnitCompare scenario = [("H1__X"%string, scenarioAllocation)]
  /\ aggregate codeUnitCompare scenarioPermuted
     = [("H1__X"%string, scenarioAllocation)].
Proof. split; reflexivity. Qed.

Example malformed_records_dropped :
  aggregate codeUnitCompare
    [GeneralTxRow.mk 1 "X" (Some "H1"%string) "TRANSFER"
       (Some (Js.Fin 1)) None "2024-01-01";
     GeneralTxRow.mk 2 "X" (Some "   "%string) "ISSUE"
       (Some (Js.Fin 1)) None "2024-01-01";
     GeneralTxRow.mk 3 "X" None "ISSUE" (Some (Js.Fin 1)) None
       "2024-01-01";
     GeneralTxRow.mk 4 "X" (Some "H1"%string) "ISSUE" None None
       "2024-01-01";
     GeneralTxRow.mk 5 "X" (Some "H1"%string) "ISSUE" (Some Js.NaN)
       None "2024-01-01";
     GeneralTxRow.mk 6 "X" (Some "H1"%string) "ISSUE"
       (Some Js.PosInf) None "2024-01-01";
     GeneralTxRow.mk 7 "X" (Some "H1"%string) "ISSUE"
       (Some (Js.Fin (-3))) None "2024-01-01"]
  = [].
Proof. reflexivity. Qed.

(** ** The transaction normaliser *)

(** The loop body of [load], with its three [continue] tests gathered
    in [kept] and its update of the entry in [applyTx]. *)
Lemma aggregate_step_spec (cmp : string -> string -> Z)
    (m : Js.Map string Allocation.t) (t : GeneralTxRow.t) :
  aggregate_step cmp m t
  = if kept t
    then Js.set string_dec (txKey t)
           (applyTx cmp t (Js.get string_dec (txKey t) m)) m
    else m.
Proof.
  unfold aggregate_step, kept, applyTx, txKey, txQty, txNote, txItemCode,
    txEmployeeId, txAction.
  set (a := Js.toUpperCase (GeneralTxRow.action t)).
  set (e := Js.trim (Js.or_empty (GeneralTxRow.employee_id t))).
  set (i := Js.trim (GeneralTxRow.item_code t)).
  set (q := Js.Number_or0 (GeneralTxRow.quantity t)).
  rewrite (finite_positive q).
  destruct (a =? "ISSUE")%string eqn:Hi; cbn [negb andb orb];
    [|destruct (a =? "RETURN")%string; cbn [negb andb orb]; [|reflexivity]];
    (destruct (Js.truthy e); cbn [negb andb orb]; [|reflexivity]);
    (destruct (Js.truthy i); cbn [negb andb orb]; [|reflexivity]);
    (destruct (Js.isFinite q); cbn [negb andb orb]; [|reflexivity]);
    (destruct (Js.gt q (Js.Fin 0)); cbn [negb andb orb]; [|reflexivity]);
    destruct (Js.get string_dec (allocKey e i) m); reflexivity.
Qed.

Lemma aggregate_from_filter (cmp : string -> string -> Z)
    (txs : list GeneralTxRow.t) (m : Js.Map string Allocation.t) :
  fold_left (aggregate_step cmp) txs m
  = fold_left (aggregate_step cmp) (filter kept txs) m.
Proof.
  revert m. induction txs as [|t txs IH]; intros m; simpl; [reflexivity|].
  destruct (kept t) eqn:Hk; simpl.
  - apply IH.
  - rewrite aggregate_step_spec, Hk. apply IH.
Qed.

(** C8. The normaliser drops exactly the records of the rejection
    rule: a record that is not [kept] leaves the aggregate as it is,
    a kept record writes the entry of its key, with its quantity added
    (ISSUE) or subtracted (RETURN), and the aggregate of a list is the
    aggregate of its kept records.  The functions are total: no record
    makes them fail. *)
Theorem normalizer_keeps_exactly (cmp : string -> string -> Z)
    (txs : list GeneralTxRow.t) (m : Js.Map string Allocation.t)
    (t : GeneralTxRow.t) :
  aggregate_step cmp m t
  = (if kept t
     then Js.set string_dec (txKey t)
            (applyTx cmp t (Js.get string_dec (txKey t) m)) m
     else m)
  /\ Js.get string_dec (txKey t) (aggregate_step cmp m t)
     = (if kept t
        then Some (applyTx cmp t (Js.get string_dec (txKey t) m))
        else Js.get string_dec (txKey t) m)
  /\ (forall p : Allocation.t,
        Allocation.qty (applyTx cmp t (Some p))
        = if (txAction t =? "ISSUE")%string
          then Js.add (Allocation.qty p) (txQty t)
          else Js.sub (Allocation.qty p) (txQty t))
  /\ aggregate cmp txs = aggregate cmp (filter kept txs).
Proof.
  split; [apply aggregate_step_spec|].
  split.
  - rewrite aggregate_step_spec. destruct (kept t); [|reflexivity].
    apply get_set_eq.
  - split.
    + intros p. unfold applyTx.
      destruct (txAction t =? "ISSUE")%string; [|reflexivity].
      destruct (negb (Js.truthy (Allocation.lastIssueAt p))
                || (0 <? cmp (GeneralTxRow.created_at t)
                           (Allocation.lastIssueAt p))); reflexivity.
    + apply aggregate_from_filter.
Qed.

(** ** The dashboard KPIs *)

Lemma fold_left_pointwise {A B : Type} (f g : A -> B -> A) (l : list B)
    (a : A) :
  (forall x y, f x y = g x y) -> fold_left f l a = fold_left g l a.
Proof.
  intros H. revert a. induction l as [|y l IH]; intros a; simpl;
    [reflexivity | now rewrite H, IH].
Qed.

Lemma fold_left_filter {A B : Type} (f : B -> bool) (g : A -> B -> A)
    (l : list B) (a : A) :
  fold_left (fun a r => if f r then g a r else a) l a
  = fold_left g (filter f l) a.
Proof.
  revert a. induction l as [|r l IH]; intros a; simpl; [reflexivity|].
  destruct (f r); simpl; apply IH.
Qed.

(** The status test of the code is the one of the words: a row without
    a status reads as unpaid, which is not the word paid. *)
Lemma paidStatus_isPaid (r : Dashboard.PayrollRow.t) :
  (Dashboard.paidStatus r =? "paid")%string = isPaid r.
Proof.
  unfold Dashboard.paidStatus, isPaid.
  destruct (Dashboard.PayrollRow.paid_status r); reflexivity.
Qed.

Lemma payrollPaid_sum (payrollReport : option Dashboard.PayrollReportResponse.t) :
  Dashboard.payrollPaid payrollReport
  = totalNetPay (filter isPaid (reportRows payrollReport)).
Proof.
  unfold Dashboard.payrollPaid, totalNetPay.
  rewrite <- (fold_left_filter isPaid (fun a r => Js.add a (netPay r))).
  apply fold_left_pointwise. intros a r. rewrite paidStatus_isPaid.
  destruct (isPaid r); reflexivity.
Qed.

Lemma payrollDue_sum (payrollReport : option Dashboard.PayrollReportResponse.t) :
  Dashboard.payrollDue payrollReport
  = totalNetPay
      (filter (fun r => negb (isPaid r)) (reportRows payrollReport)).
Proof.
  unfold Dashboard.payrollDue, totalNetPay.
  rewrite <- (fold_left_filter (fun r => negb (isPaid r))
                (fun a r => Js.add a (netPay r))).
  apply fold_left_pointwise. intros a r. rewrite paidStatus_isPaid.
  destruct (isPaid r); reflexivity.
Qed.

(** A report with the amounts 0.3 (unpaid), 0.2 and 0.1 (paid): the
    paid rows add up to 0.30000000000000004 and the unpaid one is 0.3,
    so that paid and due make 0.6000000000000001, while the rows added
    in their order make 0.6. *)
Lemma paid_plus_due_is_rounded :
  let rows := reportRows (Some decimalPayroll) in
  Dashboard.payrollPaid (Some decimalPayroll)
  = S754_finite false 5404319552844596 (-54)
  /\ Dashboard.payrollDue (Some decimalPayroll) = threeTenths
  /\ Js.add (Dashboard.payrollPaid (Some decimalPayroll))
       (Dashboard.payrollDue (Some decimalPayroll))
     = S754_finite false 5404319552844596 (-53)
  /\ totalNetPay rows = S754_finite false 5404319552844595 (-53)
  /\ Js.add (Dashboard.payrollPaid (Some decimalPayroll))
       (Dashboard.payrollDue (Some decimalPayroll))
     <> totalNetPay rows.
Proof. repeat split. discriminate. Qed.

(** C10 (amended). The KPI computation splits the rows of a payroll
    report in two by their status: [payrollPaid] is the sum of the net
    pay (0 when absent) of the rows whose status, in lower case, is
    paid, and [payrollDue] the sum of the net pay of all other rows, a
    row without a status among them; each sum is taken in the order of
    the rows, starting from zero, and every row counts in exactly one
    of the two. *)
Theorem kpis_partition (payrollReport : option Dashboard.PayrollReportResponse.t) :
  let rows := reportRows payrollReport in
  Dashboard.payrollPaid payrollReport = totalNetPay (filter isPaid rows)
  /\ Dashboard.payrollDue payrollReport
     = totalNetPay (filter (fun r => negb (isPaid r)) rows)
  /\ (forall r, In r rows ->
        (In r (filter isPaid rows) <-> isPaid r = true)
        /\ (In r (filter (fun r => negb (isPaid r)) rows)
            <-> isPaid r = false))
  /\ (forall (e : string) (n : option Js.number),
        isPaid (Dashboard.PayrollRow.mk e None n) = false
        /\ netPay (Dashboard.PayrollRow.mk e None None) = Js.Fin 0).
Proof.
  intros rows. split; [apply payrollPaid_sum|].
  split; [apply payrollDue_sum|]. split; [|now split].
  intros r Hr. rewrite !filter_In, negb_true_iff. tauto.
Qed.

(** ** Failure of a request in [load] *)

(** [Promise.all] is fulfilled only when each of the five requests is:
    one rejection rejects it. *)
Lemma promise_all_fulfilled a b c d e :
  (exists v, promise_all a b c d e = Fulfilled v)
  <-> (exists x1 x2 x3 x4 x5,
         a = Fulfilled x1 /\ b = Fulfilled x2 /\ c = Fulfilled x3
         /\ d = Fulfilled x4 /\ e = Fulfilled x5).
Proof.
  split.
  - intros [v H]. destruct a, b, c, d, e; simpl in H; try discriminate.
    repeat eexists.
  - intros (x1 & x2 & x3 & x4 & x5 & -> & -> & -> & -> & ->).
    eexists. reflexivity.
Qed.

(** What the [catch] block of [load] leaves behind: three of the four
    derived lists are emptied, one message is raised, and the restricted
    transaction list is the one of the state before. *)
Lemma load_rejected (cmp : string -> string -> Z) (st : PageState.t)
    (e : JsError.t) :
  let out := load cmp st (Rejected e) in
  PageState.employees (fst out) = []
  /\ PageState.restrictedIssued (fst out) = []
  /\ PageState.generalRows (fst out) = []
  /\ PageState.restrictedTx (fst out) = PageState.restrictedTx st
  /\ snd out = [errorMessage e "Failed to load employee inventory"].
Proof. repeat split. Qed.

(** C3. When a request of [load] fails, the employee list, the
    restricted issued inventory and the general rows are emptied and
    one message is raised, but the restricted transaction list is not
    reset: after the failed second load it still holds the transaction
    of the first. *)
Theorem load_failure_keeps_restricted_tx :
  let out := load codeUnitCompare stateAfterFirstLoad secondLoadOutcome in
  PageState.employees (fst out) = []
  /\ PageState.restrictedIssued (fst out) = []
  /\ PageState.generalRows (fst out) = []
  /\ snd out = ["Network Error"%string]
  /\ PageState.restrictedTx (fst out) = [sampleRestrictedTx]
  /\ PageState.restrictedTx (fst out) <> [].
Proof. repeat split. discriminate. Qed.

(** ** The ledger aggregator, key by key *)

Section AggregatorFacts.
Variable cmp : string -> string -> Z.

Lemma applyTx_qty (t : GeneralTxRow.t) (prev : option Allocation.t) :
  Allocation.qty (applyTx cmp t prev)
  = let q := match prev with Some p => Allocation.qty p | None => Js.Fin 0 end in
    if (txAction t =? "ISSUE")%string then Js.add q (txQty t)
    else Js.sub q (txQty t).
Proof.
  unfold applyTx.
  destruct (txAction t =? "ISSUE")%string.
  - destruct prev as [p|]; cbn [Allocation.lastIssueAt];
      match goal with |- context [if ?b then _ else _] => destruct b end;
      reflexivity.
  - destruct prev; reflexivity.
Qed.

Lemma applyTx_lastIssue (t : GeneralTxRow.t) (prev : option Allocation.t) :
  let s := match prev with
           | Some p => (Allocation.lastIssueAt p, Allocation.lastIssueNote p)
           | None => (EmptyString, EmptyString)
           end in
  (Allocation.lastIssueAt (applyTx cmp t prev),
   Allocation.lastIssueNote (applyTx cmp t prev))
  = if (txAction t =? "ISSUE")%string then laterIssue cmp s t else s.
Proof.
  unfold applyTx, laterIssue.
  destruct (txAction t =? "ISSUE")%string.
  - destruct prev as [p|]; cbn [Allocation.lastIssueAt fst];
      match goal with |- context [if ?b then _ else _] => destruct b end;
      reflexivity.
  - destruct prev; reflexivity.
Qed.

Lemma keyState_step (key : string) (m : Js.Map string Allocation.t)
    (t : GeneralTxRow.t) :
  keyState key (aggregate_step cmp m t)
  = if kept t && (txKey t =? key)%string
    then keyStep cmp (keyState key m) t
    else keyState key m.
Proof.
  rewrite aggregate_step_spec. unfold keyState.
  destruct (kept t); cbn [andb]; [|reflexivity].
  destruct (String.eqb_spec (txKey t) key) as [<-|Hne].
  - rewrite get_set_eq. cbn [option_map]. unfold keyStep.
    rewrite applyTx_qty.
    pose proof (applyTx_lastIssue t (Js.get string_dec (txKey t) m)) as Hl.
    cbv zeta in Hl. rewrite Hl.
    destruct (Js.get string_dec (txKey t) m); reflexivity.
  - rewrite get_set_ne; [reflexivity | congruence].
Qed.

Lemma keyState_fold (key : string) (txs : list GeneralTxRow.t)
    (m : Js.Map string Allocation.t) :
  keyState key (fold_left (aggregate_step cmp) txs m)
  = fold_left (keyStep cmp) (keptFor key txs) (keyState key m).
Proof.
  revert m. induction txs as [|t txs IH]; intros m; simpl; [reflexivity|].
  rewrite IH, keyState_step. unfold keptFor. simpl.
  destruct (kept t && (txKey t =? key)%string); reflexivity.
Qed.

Lemma keyStep_fold (t : GeneralTxRow.t) (l : list GeneralTxRow.t)
    (s : option (Js.number * (string * string))) :
  fold_left (keyStep cmp) (t :: l) s
  = Some (fold_left
            (fun q t =>
               if (txAction t =? "ISSUE")%string then Js.add q (txQty t)
               else Js.sub q (txQty t))
            (t :: l)
            (match s with Some x => fst x | None => Js.Fin 0 end),
          fold_left (laterIssue cmp)
            (filter (fun t => (txAction t =? "ISSUE")%string) (t :: l))
            (match s with
             | Some x => snd x
             | None => (EmptyString, EmptyString)
             end)).
Proof.
  revert t s. induction l as [|t' l IH]; intros t s.
  - cbn [fold_left filter]. unfold keyStep.
    destruct (txAction t =? "ISSUE")%string; reflexivity.
  - change (fold_left (keyStep cmp) (t :: t' :: l) s)
      with (fold_left (keyStep cmp) (t' :: l) (keyStep cmp s t)).
    rewrite IH. unfold keyStep at 1 2. cbn [fst snd].
    f_equal. f_equal.
    cbn [filter]. destruct (txAction t =? "ISSUE")%string; reflexivity.
Qed.

Lemma issuesFor_keptFor (key : string) (txs : list GeneralTxRow.t) :
  filter (fun t => (txAction t =? "ISSUE")%string) (keptFor key txs)
  = issuesFor key txs.
Proof.
  unfold keptFor, issuesFor, isIssue.
  induction txs as [|t txs IH]; simpl; [reflexivity|].
  destruct (kept t); cbn [andb]; [|exact IH].
  destruct (txKey t =? key)%string; cbn [andb filter].
  - destruct (txAction t =? "ISSUE")%string; cbn [andb]; now rewrite IH.
  - destruct (txAction t =? "ISSUE")%string; cbn [andb]; exact IH.
Qed.

(** The entry of a key after the loop: there is one as soon as a
    record of the key was kept, and it holds the net quantity and the
    last issue of the key. *)
Lemma aggregate_entry (key : string) (txs : list GeneralTxRow.t) :
  match Js.get string_dec key (aggregate cmp txs) with
  | None => keptFor key txs = []
  | Some v =>
      keptFor key txs <> []
      /\ Allocation.qty v = netQuantity key txs
      /\ (Allocation.lastIssueAt v, Allocation.lastIssueNote v)
         = lastIssueOf cmp key txs
  end.
Proof.
  pose proof (keyState_fold key txs []) as H.
  fold (aggregate cmp txs) in H.
  change (keyState key []) with (@None (Js.number * (string * string))) in H.
  destruct (keptFor key txs) as [|t l] eqn:Hk.
  - cbn [fold_left] in H. unfold keyState in H.
    destruct (Js.get string_dec key (aggregate cmp txs)); [discriminate|].
    reflexivity.
  - rewrite keyStep_fold in H.
    unfold keyState in H.
    destruct (Js.get string_dec key (aggregate cmp txs)) as [v|];
      [|discriminate].
    cbn [option_map] in H. injection H as Hq Hl.
    split; [discriminate|]. split.
    + unfold netQuantity. rewrite Hk, Hq. reflexivity.
    + rewrite Hl. unfold lastIssueOf. rewrite <- issuesFor_keptFor, Hk.
      reflexivity.
Qed.

End AggregatorFacts.

Lemma filter_filter_implied {A : Type} (f g : A -> bool) (l : list A) :
  (forall x, f x = true -> g x = true) ->
  filter f (filter g l) = filter f l.
Proof.
  intros H. induction l as [|x l IH]; simpl; [reflexivity|].
  destruct (g x) eqn:Hg; simpl.
  - now rewrite IH.
  - destruct (f x) eqn:Hf; [|exact IH].
    apply H in Hf. congruence.
Qed.

(** ** Collations *)

Lemma collation_refl (cmp : string -> string -> Z) (a : string) :
  Collation cmp -> cmp a a = 0.
Proof.
  intros [Ha _]. specialize (Ha a a). destruct (cmp a a); simpl in Ha;
    [reflexivity | discriminate | discriminate].
Qed.

Lemma collation_flip (cmp : string -> string -> Z) (a b : string) :
  Collation cmp -> 0 < cmp a b -> cmp b a <= 0.
Proof.
  intros [Ha _] H. specialize (Ha a b). lia.
Qed.

Lemma collation_total (cmp : string -> string -> Z) (a b : string) :
  Collation cmp -> cmp a b <= 0 \/ cmp b a <= 0.
Proof.
  intros Hc. destruct (Z_le_gt_dec (cmp a b) 0) as [H|H]; [now left|].
  right. apply collation_flip; [exact Hc | lia].
Qed.

Lemma collation_both (cmp : string -> string -> Z) (a b : string) :
  Collation cmp -> cmp a b <= 0 -> cmp b a <= 0 -> cmp a b = 0.
Proof.
  intros [Ha _] H1 H2. specialize (Ha a b). lia.
Qed.

Lemma string_compare_trans (a b c : string) :
  String.compare a b <> Gt -> String.compare b c <> Gt ->
  String.compare a c <> Gt.
Proof.
  revert b c. induction a as [|x a IH]; intros [|y b] [|z c]; simpl;
    try congruence.
  unfold Ascii.compare.
  destruct (N.compare_spec (N_of_ascii x) (N_of_ascii y)) as [E1|L1|G1],
           (N.compare_spec (N_of_ascii y) (N_of_ascii z)) as [E2|L2|G2],
           (N.compare_spec (N_of_ascii x) (N_of_ascii z)) as [E3|L3|G3];
    try congruence; try lia.
  apply IH.
Qed.

Lemma codeUnitCompare_collation : Collation codeUnitCompare.
Proof.
  split.
  - intros a b. unfold codeUnitCompare. rewrite (String.compare_antisym a b).
    destruct (String.compare b a); reflexivity.
  - intros a b c. unfold codeUnitCompare. intros H1 H2.
    pose proof (string_compare_trans a b c) as T.
    destruct (String.compare a b); destruct (String.compare b c);
      destruct (String.compare a c); try lia;
      exfalso; apply T; congruence.
Qed.

Lemma codeUnitCompare_emptyFirst : EmptyFirst codeUnitCompare.
Proof. intros [|c a]; unfold codeUnitCompare; simpl; lia. Qed.

Lemma codeUnitCompare_separating : Separating codeUnitCompare.
Proof.
  intros a b. unfold codeUnitCompare.
  destruct (String.compare a b) eqn:E; try discriminate.
  intros _. now apply String.compare_eq_iff.
Qed.

Lemma rootCompare_collation : Collation rootCompare.
Proof.
  split.
  - intros a. induction a as [|x a IH]; intros [|y b]; cbn [rootCompare];
      try reflexivity.
    rewrite (Nat.compare_antisym (rootRank x) (rootRank y)).
    destruct (Nat.compare (rootRank x) (rootRank y)); cbn [CompOpp];
      [apply IH | reflexivity | reflexivity].
  - intros a. induction a as [|x a IH]; intros [|y b] [|z c];
      cbn [rootCompare]; try lia.
    destruct (Nat.compare_spec (rootRank x) (rootRank y)) as [E1|L1|G1],
             (Nat.compare_spec (rootRank y) (rootRank z)) as [E2|L2|G2],
             (Nat.compare_spec (rootRank x) (rootRank z)) as [E3|L3|G3];
      try lia.
    apply IH.
Qed.

Lemma rootCompare_emptyFirst : EmptyFirst rootCompare.
Proof. intros [|c a]; cbn [rootCompare]; lia. Qed.

(** The sample collation is not the order of character codes: it puts
    the full stop before the plus sign and takes no notice of case. *)
Example rootCompare_not_codeUnit :
  rootCompare "." "+" < 0 /\ codeUnitCompare "." "+" > 0
  /\ rootCompare "a" "A" = 0 /\ ~ Separating rootCompare.
Proof.
  repeat split. intros H. specialize (H "a" "A" eq_refl)%string. discriminate H.
Qed.

(** ** The last issue of a key *)

Section LastIssue.
Variable cmp : string -> string -> Z.
Hypothesis cmp_collation : Collation cmp.
Hypothesis cmp_emptyFirst : EmptyFirst cmp.

(** The stored pair after a run of issues: nothing when there was no
    issue; otherwise the date and the note of one of the issues, whose
    date no other issue exceeds. *)
Lemma laterIssue_fold (l : list GeneralTxRow.t) :
  let s := fold_left (laterIssue cmp) l (EmptyString, EmptyString) in
  (l = [] -> s = (EmptyString, EmptyString))
  /\ (l <> [] ->
      exists t, In t l /\ GeneralTxRow.created_at t = fst s /\ txNote t = snd s)
  /\ (forall t, In t l -> cmp (GeneralTxRow.created_at t) (fst s) <= 0).
Proof.
  induction l as [|t l IH] using rev_ind.
  - simpl. split; [reflexivity|]. split; [congruence | contradiction].
  - rewrite fold_left_app. cbn [fold_left].
    set (s := fold_left (laterIssue cmp) l (EmptyString, EmptyString)) in *.
    cbv zeta in IH. destruct IH as (Hnil & Hex & Hub).
    split; [intros H; destruct l; discriminate|].
    unfold laterIssue.
    destruct (Js.truthy (fst s)) eqn:Ht; cbn [negb orb].
    + destruct (Z.ltb_spec 0 (cmp (GeneralTxRow.created_at t) (fst s)))
        as [Hgt|Hle]; cbn [fst snd].
      * split.
        -- intros _. exists t. split; [apply in_or_app; right; now left|].
           now split.
        -- intros t0 Hin. apply in_app_or in Hin. destruct Hin as [Hin|[<-|[]]].
           ++ destruct cmp_collation as [_ Htr].
              apply Htr with (b := fst s); [now apply Hub|].
              now apply collation_flip.
           ++ rewrite collation_refl by assumption. lia.
      * assert (Hl : l <> []).
        { intros ->. specialize (Hnil eq_refl). rewrite Hnil in Ht.
          discriminate. }
        split.
        -- intros _. destruct (Hex Hl) as (t0 & Hin & Hc & Hn).
           exists t0. split; [apply in_or_app; now left | now split].
        -- intros t0 Hin. apply in_app_or in Hin. destruct Hin as [Hin|[<-|[]]].
           ++ now apply Hub.
           ++ exact Hle.
    + cbn [fst snd]. assert (He : fst s = EmptyString).
      { destruct (fst s); [reflexivity | discriminate]. }
      split.
      * intros _. exists t. split; [apply in_or_app; right; now left|].
        now split.
      * intros t0 Hin. apply in_app_or in Hin. destruct Hin as [Hin|[<-|[]]].
        -- destruct cmp_collation as [_ Htr].
           apply Htr with (b := EmptyString);
             [rewrite <- He; now apply Hub | apply cmp_emptyFirst].
        -- rewrite collation_refl by assumption. lia.
Qed.

Lemma issuesFor_without_returns (key : string) (txs : list GeneralTxRow.t) :
  issuesFor key (filter (fun t => negb (isReturn t)) txs) = issuesFor key txs.
Proof.
  unfold issuesFor. apply filter_filter_implied.
  intros t H. apply andb_prop in H. destruct H as [H _].
  unfold isIssue in H. apply andb_prop in H. destruct H as [_ H].
  unfold isReturn. rewrite H. now rewrite andb_false_r.
Qed.

End LastIssue.

(** Two issues whose dates are written in two formats: by character
    code the date with the fraction of a second is the greater one, but
    a collation that puts the full stop before the plus sign keeps the
    date with the offset, in whichever order the two arrive. *)
Lemma last_issue_follows_collation :
  option_map Allocation.lastIssueAt
    (Js.get string_dec "H1__X"%string (aggregate rootCompare mixedFormatIssues))
  = Some "2024-01-01T00:00:00+00:00"%string
  /\ option_map Allocation.lastIssueAt
       (Js.get string_dec "H1__X"%string
          (aggregate rootCompare (rev mixedFormatIssues)))
     = Some "2024-01-01T00:00:00+00:00"%string
  /\ In "2024-01-01T00:00:00.500000"%string
       (issueDates "H1__X" mixedFormatIssues)
  /\ codeUnitCompare "2024-01-01T00:00:00+00:00" "2024-01-01T00:00:00.500000"
     < 0.
Proof. repeat split. right. now left. Qed.

(** C4 (amended). For a collation that puts no string before the
    empty one, the last issue date of a key is a greatest date, in the
    order of the collation, among the kept ISSUE records of the key:
    no such record has a date above it, and it is the date of one of
    them (the empty string when the key has none).  RETURN records have
    no part in it: the aggregate of the list without them has the same
    last issue date and note. *)
Theorem last_issue_is_latest (cmp : string -> string -> Z)
    (txs : list GeneralTxRow.t) (key : string) (v : Allocation.t) :
  Collation cmp -> EmptyFirst cmp ->
  Js.get string_dec key (aggregate cmp txs) = Some v ->
  (forall c, In c (issueDates key txs) -> cmp c (Allocation.lastIssueAt v) <= 0)
  /\ (issueDates key txs <> [] ->
      In (Allocation.lastIssueAt v) (issueDates key txs))
  /\ (issueDates key txs = [] ->
      Allocation.lastIssueAt v = EmptyString
      /\ Allocation.lastIssueNote v = EmptyString)
  /\ (forall v',
        Js.get string_dec key
          (aggregate cmp (filter (fun t => negb (isReturn t)) txs)) = Some v' ->
        Allocation.lastIssueAt v' = Allocation.lastIssueAt v
        /\ Allocation.lastIssueNote v' = Allocation.lastIssueNote v).
Proof.
  intros Hc He Hv.
  pose proof (aggregate_entry cmp key txs) as H. rewrite Hv in H.
  destruct H as (_ & _ & Hl).
  pose proof (laterIssue_fold cmp Hc He (issuesFor key txs)) as F.
  cbv zeta in F. fold (lastIssueOf cmp key txs) in F. rewrite <- Hl in F.
  cbn [fst snd] in F. destruct F as (Fnil & Fex & Fub).
  unfold issueDates. repeat split.
  - intros c Hin. apply in_map_iff in Hin. destruct Hin as (t & <- & Hin).
    now apply Fub.
  - intros Hne. destruct Fex as (t & Hin & Ht & _).
    + intros E. apply Hne. now rewrite E.
    + rewrite <- Ht. now apply in_map.
  - apply map_eq_nil in H. specialize (Fnil H). congruence.
  - apply map_eq_nil in H. specialize (Fnil H). congruence.
  - pose proof (aggregate_entry cmp key
                  (filter (fun t => negb (isReturn t)) txs)) as H'.
    rewrite H in H'. destruct H' as (_ & _ & Hl').
    unfold lastIssueOf in Hl'. rewrite issuesFor_without_returns in Hl'.
    fold (lastIssueOf cmp key txs) in Hl'. congruence.
  - pose proof (aggregate_entry cmp key
                  (filter (fun t => negb (isReturn t)) txs)) as H'.
    rewrite H in H'. destruct H' as (_ & _ & Hl').
    unfold lastIssueOf in Hl'. rewrite issuesFor_without_returns in Hl'.
    fold (lastIssueOf cmp key txs) in Hl'. congruence.
Qed.

Lemma last_issue_is_latest_witness :
  (forall c, In c (issueDates "H1__X" scenario) ->
             codeUnitCompare c "2024-01-10" <= 0)
  /\ In "2024-01-10"%string (issueDates "H1__X" scenario).
Proof.
  pose proof (last_issue_is_latest codeUnitCompare scenario "H1__X"
                scenarioAllocation codeUnitCompare_collation
                codeUnitCompare_emptyFirst eq_refl) as (H1 & H2 & _).
  split; [exact H1 | apply H2; discriminate].
Defined.

(** ** Independence of the order of arrival *)

Lemma filter_perm {A : Type} (f : A -> bool) (l l' : list A) :
  Permutation l l' -> Permutation (filter f l) (filter f l').
Proof.
  induction 1 as [|x l l' _ IH|x y l|l l' l'' _ IH1 _ IH2]; simpl.
  - constructor.
  - destruct (f x); [now constructor | exact IH].
  - destruct (f x), (f y); try reflexivity. constructor.
  - now transitivity (filter f l').
Qed.

(** The date kept after a run of issues is a greatest one, so that two
    runs with the same issues keep dates that compare equal. *)
Lemma lastIssue_perm (cmp : string -> string -> Z) (l l' : list GeneralTxRow.t) :
  Collation cmp -> EmptyFirst cmp -> Permutation l l' ->
  let s := fold_left (laterIssue cmp) l (EmptyString, EmptyString) in
  let s' := fold_left (laterIssue cmp) l' (EmptyString, EmptyString) in
  cmp (fst s) (fst s') = 0
  /\ (Separating cmp ->
      fst s = fst s'
      /\ ((forall t1 t2, In t1 l -> In t2 l ->
             GeneralTxRow.created_at t1 = GeneralTxRow.created_at t2 ->
             txNote t1 = txNote t2) -> s = s')).
Proof.
  intros Hc He HP.
  pose proof (laterIssue_fold cmp Hc He l) as F.
  pose proof (laterIssue_fold cmp Hc He l') as F'.
  cbv zeta in *.
  destruct (fold_left (laterIssue cmp) l (EmptyString, EmptyString)) as [a n].
  destruct (fold_left (laterIssue cmp) l' (EmptyString, EmptyString))
    as [a' n'].
  cbn [fst snd] in *.
  destruct F as (Fnil & Fex & Fub). destruct F' as (Fnil' & Fex' & Fub').
  destruct l as [|t0 l0] eqn:El.
  - apply Permutation_nil in HP. subst l'.
    pose proof (Fnil eq_refl) as E1. pose proof (Fnil' eq_refl) as E2.
    injection E1 as -> ->. injection E2 as -> ->.
    split; [now apply collation_refl|]. intros _. now split.
  - rewrite <- El in *. assert (Hl : l <> []) by (rewrite El; discriminate).
    assert (Hl' : l' <> []).
    { intros ->. apply Permutation_sym, Permutation_nil in HP. contradiction. }
    destruct (Fex Hl) as (t & Hin & Hd & Hn).
    destruct (Fex' Hl') as (t' & Hin' & Hd' & Hn').
    assert (Hin2 : In t' l) by (eapply Permutation_in; [symmetry|]; eassumption).
    assert (Hin3 : In t l') by (eapply Permutation_in; eassumption).
    assert (E0 : cmp a a' = 0).
    { apply collation_both; [exact Hc| |].
      - rewrite <- Hd. now apply Fub'.
      - rewrite <- Hd'. now apply Fub. }
    split; [exact E0|]. intros Hs. pose proof (Hs a a' E0) as E.
    split; [exact E|].
    intros Htie. f_equal; [exact E|]. rewrite <- Hn, <- Hn'.
    apply Htie; [assumption | assumption | congruence].
Qed.

(** Three issues of 0.1, 0.2 and 0.3 add up to 0.6000000000000001 in
    one order and to 0.6 in the other; and of two issues with the same
    date and different notes, the note that the aggregate keeps is the
    note of the one that arrives first. *)
Lemma arrival_order_decides_quantity_and_note :
  Permutation decimalIssues (rev decimalIssues)
  /\ option_map Allocation.qty
       (Js.get string_dec "H1__X"%string (aggregate codeUnitCompare decimalIssues))
     = Some (S754_finite false 5404319552844596 (-53))
  /\ option_map Allocation.qty
       (Js.get string_dec "H1__X"%string
          (aggregate codeUnitCompare (rev decimalIssues)))
     = Some (S754_finite false 5404319552844595 (-53))
  /\ Permutation tiedIssues (rev tiedIssues)
  /\ option_map summary
       (Js.get string_dec "H1__X"%string (aggregate codeUnitCompare tiedIssues))
     = Some (Js.Fin 2, "2024-01-01", "first")%string
  /\ option_map summary
       (Js.get string_dec "H1__X"%string (aggregate codeUnitCompare (rev tiedIssues)))
     = Some (Js.Fin 2, "2024-01-01", "second")%string.
Proof.
  split; [apply Permutation_rev|]. split; [reflexivity|].
  split; [reflexivity|]. split; [apply Permutation_rev|].
  split; reflexivity.
Qed.

(** C1 (amended). For a collation that puts no string before the
    empty one and every permutation of the transaction list, the
    aggregate has the same keys and, under each key, last issue dates
    that compare equal; they are the same date when the collation
    tells all strings apart, and then the note is the same as well
    when no two issues of a key share their date with different notes.
    When the records of the key keep their order among themselves, the
    whole entry is the same: quantity, date and note. *)
Theorem aggregate_order_independent (cmp : string -> string -> Z)
    (txs txs' : list GeneralTxRow.t) (key : string) :
  Collation cmp -> EmptyFirst cmp ->
  Permutation txs txs' ->
  match Js.get string_dec key (aggregate cmp txs),
        Js.get string_dec key (aggregate cmp txs') with
  | Some v, Some v' =>
      cmp (Allocation.lastIssueAt v) (Allocation.lastIssueAt v') = 0
      /\ (Separating cmp ->
          Allocation.lastIssueAt v = Allocation.lastIssueAt v'
          /\ (tieFree txs ->
              Allocation.lastIssueNote v = Allocation.lastIssueNote v'))
      /\ (keptFor key txs = keptFor key txs' -> summary v = summary v')
  | None, None => True
  | _, _ => False
  end.
Proof.
  intros Hc He HP.
  pose proof (aggregate_entry cmp key txs) as H.
  pose proof (aggregate_entry cmp key txs') as H'.
  assert (HK : Permutation (keptFor key txs) (keptFor key txs'))
    by (now apply filter_perm).
  assert (HI : Permutation (issuesFor key txs) (issuesFor key txs'))
    by (now apply filter_perm).
  pose proof (lastIssue_perm cmp _ _ Hc He HI) as HL. cbv zeta in HL.
  fold (lastIssueOf cmp key txs) in HL. fold (lastIssueOf cmp key txs') in HL.
  destruct HL as (Hat & Hsep).
  destruct (Js.get string_dec key (aggregate cmp txs)) as [v|],
           (Js.get string_dec key (aggregate cmp txs')) as [v'|].
  - destruct H as (_ & Hq & Hl), H' as (_ & Hq' & Hl').
    rewrite <- Hl, <- Hl' in Hat, Hsep. cbn [fst] in Hat, Hsep.
    split; [exact Hat|]. split.
    + intros Hs. destruct (Hsep Hs) as (E & Hnote). split; [exact E|].
      intros Htie.
      assert (E2 : (Allocation.lastIssueAt v, Allocation.lastIssueNote v)
                   = (Allocation.lastIssueAt v', Allocation.lastIssueNote v')).
      { apply Hnote. intros t1 t2 H1 H2 Hd.
        unfold issuesFor in H1, H2. apply filter_In in H1, H2.
        destruct H1 as (H1 & B1), H2 as (H2 & B2).
        apply andb_prop in B1, B2. destruct B1 as (B1 & K1), B2 as (B2 & K2).
        apply String.eqb_eq in K1, K2.
        apply Htie; try assumption. congruence. }
      now injection E2.
    + intros Ek.
      assert (E2 : (Allocation.lastIssueAt v, Allocation.lastIssueNote v)
                   = (Allocation.lastIssueAt v', Allocation.lastIssueNote v')).
      { rewrite Hl, Hl'. unfold lastIssueOf.
        rewrite <- !issuesFor_keptFor, Ek. reflexivity. }
      injection E2 as E3 E4.
      unfold summary. rewrite Hq, Hq', E3, E4. unfold netQuantity.
      rewrite Ek. reflexivity.
  - destruct H as (Hne & _). rewrite H' in HK.
    apply Permutation_sym, Permutation_nil in HK. contradiction.
  - destruct H' as (Hne & _). rewrite H in HK.
    apply Permutation_nil in HK. contradiction.
  - exact I.
Qed.

Lemma scenario_tieFree : tieFree scenario.
Proof.
  intros t1 t2 H1 H2 _ _ _ Hd. unfold scenario in H1, H2.
  simpl in H1, H2.
  destruct H1 as [<-|[<-|[<-|[]]]]; destruct H2 as [<-|[<-|[<-|[]]]];
    try reflexivity; discriminate Hd.
Qed.

Lemma aggregate_order_independent_witness :
  option_map Allocation.lastIssueAt
    (Js.get string_dec "H1__X"%string (aggregate codeUnitCompare scenario))
  = Some "2024-01-10"%string
  /\ option_map Allocation.lastIssueAt
       (Js.get string_dec "H1__X"%string
          (aggregate codeUnitCompare scenarioPermuted))
     = Some "2024-01-10"%string
  /\ codeUnitCompare "2024-01-10" "2024-01-10" = 0.
Proof.
  split; [reflexivity|]. split; [reflexivity|].
  assert (HP : Permutation scenario scenarioPermuted).
  { apply Permutation_sym.
    exact (Permutation_cons_append
             [sampleTx 1 "ISSUE" 5 "2024-01-01" (Some "boots"%string);
              sampleTx 2 "RETURN" 2 "2024-01-05" (Some "worn"%string)]
             (sampleTx 3 "ISSUE" 1 "2024-01-10" (Some "spare"%string))). }
  exact (proj1 (aggregate_order_independent codeUnitCompare scenario
                  scenarioPermuted "H1__X" codeUnitCompare_collation
                  codeUnitCompare_emptyFirst HP)).
Defined.

(** ** Current holdings *)

Lemma In_set {K V : Type} (K_dec : forall a b : K, {a = b} + {a <> b})
    (k k0 : K) (v v0 : V) (m : Js.Map K V) :
  In (k0, v0) (Js.set K_dec k v m) -> (k0 = k /\ v0 = v) \/ In (k0, v0) m.
Proof.
  induction m as [|[k' v'] m IH]; simpl.
  - intros [[= <- <-]|[]]. now left.
  - destruct (K_dec k k') as [->|Hne]; simpl.
    + intros [[= <- <-]|H]; [now left | right; now right].
    + intros [H|H]; [right; now left|].
      destruct (IH H) as [?|?]; [now left | right; now right].
Qed.

Lemma applyTx_key (cmp : string -> string -> Z) (t : GeneralTxRow.t)
    (prev : option Allocation.t) :
  allocKey (Allocation.employee_id (applyTx cmp t prev))
    (Allocation.item_code (applyTx cmp t prev))
  = match prev with
    | Some p => allocKey (Allocation.employee_id p) (Allocation.item_code p)
    | None => txKey t
    end.
Proof.
  unfold applyTx.
  destruct (txAction t =? "ISSUE")%string.
  - destruct prev as [p|]; cbn [Allocation.lastIssueAt];
      match goal with |- context [if ?b then _ else _] => destruct b end;
      reflexivity.
  - destruct prev; reflexivity.
Qed.

(** Along the loop every key occurs once in [byKey], and is the key of
    the holder and item stored under it. *)
Lemma aggregate_wf (cmp : string -> string -> Z) (txs : list GeneralTxRow.t)
    (m : Js.Map string Allocation.t) :
  NoDup (Js.keys m) ->
  (forall k v, In (k, v) m ->
               allocKey (Allocation.employee_id v) (Allocation.item_code v) = k) ->
  let m' := fold_left (aggregate_step cmp) txs m in
  NoDup (Js.keys m')
  /\ (forall k v, In (k, v) m' ->
        allocKey (Allocation.employee_id v) (Allocation.item_code v) = k).
Proof.
  revert m. induction txs as [|t txs IH]; intros m Hnd Hk; cbn [fold_left].
  - now split.
  - apply IH; rewrite aggregate_step_spec; destruct (kept t); try assumption.
    + now apply keys_set_NoDup.
    + intros k v Hin. apply In_set in Hin. destruct Hin as [[-> ->]|Hin].
      * rewrite applyTx_key.
        destruct (Js.get string_dec (txKey t) m) as [p|] eqn:Hg;
          [|reflexivity].
        apply get_In in Hg. now apply Hk.
      * now apply Hk.
Qed.

(** C5. An allocation of the aggregate whose net quantity is zero or
    less is not among the rows that [load] emits for display: every
    emitted row has a positive quantity and none carries the key of
    such an allocation.  The allocation is still a value of the
    unfiltered map [byKey], the full history of the ledger. *)
Theorem nonpositive_hidden_from_holdings (cmp : string -> string -> Z)
    (emps : list Employee2.t) (items : list GeneralItem.t)
    (txs : list GeneralTxRow.t) (key : string) (v : Allocation.t) :
  Js.get string_dec key (aggregate cmp txs) = Some v ->
  Js.le (Allocation.qty v) (Js.Fin 0) = true ->
  (forall r, In r (rowsOut cmp emps items (aggregate cmp txs)) ->
             GeneralAllocationRow.id r <> key
             /\ Js.gt (GeneralAllocationRow.quantity r) (Js.Fin 0) = true)
  /\ In v (Js.values (aggregate cmp txs)).
Proof.
  intros Hv Hle.
  destruct (aggregate_wf cmp txs [] (NoDup_nil _)) as (Hnd & Hk);
    [intros k w []|].
  fold (aggregate cmp txs) in Hnd, Hk.
  split.
  - intros r Hr. unfold rowsOut in Hr. apply sort_In in Hr.
    apply in_map_iff in Hr. destruct Hr as (w & <- & Hw).
    apply filter_In in Hw. destruct Hw as (Hw & Hpos).
    split; [|exact Hpos].
    unfold Js.values in Hw. apply in_map_iff in Hw.
    destruct Hw as ([k w'] & Ew & Hin). simpl in Ew. subst w'.
    cbn [toRow GeneralAllocationRow.id]. rewrite (Hk k w Hin).
    intros ->. apply (In_get string_dec) in Hin; [|exact Hnd].
    rewrite Hv in Hin. injection Hin as ->.
    apply le_not_gt in Hle. congruence.
  - unfold Js.values. apply get_In in Hv.
    change v with (snd (key, v)). now apply in_map.
Qed.

Lemma nonpositive_hidden_from_holdings_witness :
  rowsOut codeUnitCompare [] [] (aggregate codeUnitCompare returnedInFull) = []
  /\ In returnedAllocation
       (Js.values (aggregate codeUnitCompare returnedInFull)).
Proof.
  split; [reflexivity|].
  apply (nonpositive_hidden_from_holdings codeUnitCompare [] []
           returnedInFull "H1__X" returnedAllocation); reflexivity.
Defined.

(** ** The time window *)

Lemma or_empty_Some (s : string) : Js.or_empty (Some s) = s.
Proof. destruct s; reflexivity. Qed.

(** A restricted quantity item whose key has no issue in the log is
    hidden by every active window, and its holder with it. *)
Lemma quantity_item_fails_closed :
  Js.get string_dec (allocKey "E7" "G3")
    (snd (restrictedLastIssue codeUnitCompare
            (PageState.restrictedTx windowedState))) = None
  /\ qtyItemVisible digitsDayjs (Some 0) (Some 172799999) [] "E7" sampleQtyItem
     = false
  /\ byEmployee codeUnitCompare digitsDayjs utcStartOfDay utcEndOfDay
       windowedState = [].
Proof. repeat split. Qed.

(** C2 (amended). A timestamp that [dayjs] cannot read, the empty one
    among them, is inside every window for the serialized units and the
    general allocations.  A restricted quantity item is visible when no
    window is set, or when the last issue found for its key is not empty
    and is inside the window, an unreadable one included; with a window
    set and no last issue for its key, or an empty one, it is hidden. *)
Theorem window_fails_open (dayjs : string -> option Z) (start end_ : option Z)
    (ts : string) :
  dayjs ts = None ->
  inRange dayjs start end_ (Some ts) = true
  /\ (ts = EmptyString -> inRange dayjs start end_ None = true)
  /\ (forall r, GeneralAllocationRow.created_at r = ts ->
                generalVisible dayjs start end_ r = true)
  /\ (forall bySerial items s,
        In s items ->
        Js.or_else
          (Js.get Js.number_dec
             (Js.Number_or0 (RestrictedIssuedSerialRow.serial_unit_id s))
             bySerial)
          (RestrictedIssuedSerialRow.created_at s) = ts ->
        In (RestrictedIssuedSerialRow.mk
              (RestrictedIssuedSerialRow.serial_unit_id s)
              (RestrictedIssuedSerialRow.item_code s)
              (RestrictedIssuedSerialRow.item_name s)
              (RestrictedIssuedSerialRow.category s)
              (RestrictedIssuedSerialRow.serial_number s)
              (RestrictedIssuedSerialRow.status s) ts)
           (serialItems dayjs start end_ bySerial items))
  /\ (forall byQtyKey eid it,
        qtyItemVisible dayjs start end_ byQtyKey eid it
        = noWindow start end_
          || match Js.get string_dec
                     (allocKey eid (RestrictedIssuedQtyRow.item_code it))
                     byQtyKey with
             | Some lastIssueAt =>
                 Js.truthy lastIssueAt
                 && inRange dayjs start end_ (Some lastIssueAt)
             | None => false
             end)
  /\ (forall byQtyKey eid it,
        Js.get string_dec (allocKey eid (RestrictedIssuedQtyRow.item_code it))
          byQtyKey = Some ts ->
        qtyItemVisible dayjs start end_ byQtyKey eid it
        = noWindow start end_ || Js.truthy ts).
Proof.
  intros Hts.
  assert (Hin : inRange dayjs start end_ (Some ts) = true).
  { unfold inRange. rewrite or_empty_Some, Hts.
    destruct (noWindow start end_); reflexivity. }
  split; [exact Hin|]. split.
  { intros ->. unfold inRange. cbn [Js.or_empty Js.or_else]. rewrite Hts.
    destruct (noWindow start end_); reflexivity. }
  split.
  { intros r <-. exact Hin. }
  split.
  { intros bySerial items s Hs Hc. unfold serialItems.
    apply filter_In. split.
    - apply in_map_iff. exists s. split; [|exact Hs]. now rewrite Hc.
    - cbn [RestrictedIssuedSerialRow.created_at]. exact Hin. }
  assert (Hq : forall byQtyKey eid it,
             qtyItemVisible dayjs start end_ byQtyKey eid it
             = noWindow start end_
               || match Js.get string_dec
                          (allocKey eid (RestrictedIssuedQtyRow.item_code it))
                          byQtyKey with
                  | Some lastIssueAt =>
                      Js.truthy lastIssueAt
                      && inRange dayjs start end_ (Some lastIssueAt)
                  | None => false
                  end).
  { intros byQtyKey eid it. unfold qtyItemVisible.
    destruct (noWindow start end_); cbn [orb]; [reflexivity|].
    destruct (Js.get string_dec _ byQtyKey) as [l|]; [|reflexivity].
    destruct (Js.truthy l); reflexivity. }
  split; [exact Hq|].
  intros byQtyKey eid it Hg. rewrite Hq, Hg, Hin.
  now rewrite andb_true_r.
Qed.

Lemma window_fails_open_witness :
  inRange digitsDayjs (Some 0) (Some 172799999) (Some "n/a"%string) = true.
Proof.
  exact (proj1 (window_fails_open digitsDayjs (Some 0) (Some 172799999) "n/a"
                  eq_refl)).
Defined.

(** ** The holders of the merged view *)

Lemma In_fold_set_add {A : Type} (f : A -> string) (l : list A)
    (s : list string) (x : string) :
  In x (fold_left (fun s e => set_add string_dec (f e) s) l s)
  <-> In x s \/ In x (map f l).
Proof.
  revert s. induction l as [|e l IH]; intros s; simpl; [tauto|].
  rewrite IH, set_add_iff. intuition.
Qed.

Lemma NoDup_fold_set_add {A : Type} (f : A -> string) (l : list A)
    (s : list string) :
  NoDup s -> NoDup (fold_left (fun s e => set_add string_dec (f e) s) l s).
Proof.
  revert s. induction l as [|e l IH]; intros s H; simpl; [exact H|].
  apply IH. now apply set_add_nodup.
Qed.

Lemma allEmployeeIds_In (employees : list Employee2.t)
    (restrictedIssued : list RestrictedIssuedInventory.t)
    (generalRows : list GeneralAllocationRow.t) (eid : string) :
  In eid (allEmployeeIds employees restrictedIssued generalRows)
  <-> In eid (map holderKey employees)
      \/ In eid (map RestrictedIssuedInventory.employee_id restrictedIssued)
      \/ In eid (map GeneralAllocationRow.employee_id generalRows).
Proof.
  unfold allEmployeeIds. rewrite !In_fold_set_add. simpl. tauto.
Qed.

Lemma allEmployeeIds_NoDup (employees : list Employee2.t)
    (restrictedIssued : list RestrictedIssuedInventory.t)
    (generalRows : list GeneralAllocationRow.t) :
  NoDup (allEmployeeIds employees restrictedIssued generalRows).
Proof.
  unfold allEmployeeIds. repeat apply NoDup_fold_set_add. constructor.
Qed.

Section MergedView.
Variable cmp : string -> string -> Z.
Variable dayjs : string -> option Z.
Variable startOfDay endOfDay : Z -> Z.

(** The output of [byEmployee] holds the records of [groups] that pass
    the pruning of empty holders and the search. *)
Lemma byEmployee_In (st : PageState.t) (g : Group.t) :
  In g (byEmployee cmp dayjs startOfDay endOfDay st)
  <-> In g (groups cmp dayjs startOfDay endOfDay st)
      /\ (windowActive startOfDay endOfDay st = false
          \/ (0 < Group._totalCount g)%nat)
      /\ passesSearch st g = true.
Proof.
  unfold byEmployee, groups, windowActive, passesSearch.
  rewrite sort_In, !filter_In.
  set (a := noWindow _ _).
  set (q := Js.toLowerCase (Js.trim (PageState.search st))).
  destruct a; cbn [negb]; destruct (Js.truthy q); cbn [negb orb];
    rewrite ?Nat.ltb_lt; intuition congruence.
Qed.

Lemma byEmployee_perm (st : PageState.t) :
  windowActive startOfDay endOfDay st = false ->
  Js.truthy (Js.toLowerCase (Js.trim (PageState.search st))) = false ->
  Permutation (groups cmp dayjs startOfDay endOfDay st)
    (byEmployee cmp dayjs startOfDay endOfDay st).
Proof.
  unfold byEmployee, groups, windowActive. intros Hw Hq.
  apply negb_false_iff in Hw. rewrite Hw, Hq. cbn [negb].
  rewrite <- sort_perm.
  set (l := map _ _). clearbody l.
  induction l as [|g l IH]; simpl; [constructor | now constructor].
Qed.

Lemma groups_ids (st : PageState.t) :
  map Group.employee_id (groups cmp dayjs startOfDay endOfDay st)
  = allEmployeeIds (PageState.employees st) (PageState.restrictedIssued st)
      (PageState.generalRows st).
Proof.
  unfold groups. rewrite map_map. cbn [toGroup Group.employee_id].
  apply map_id.
Qed.

End MergedView.

(** C6. In the default view, with no date window and an empty search
    query, the holders of the merged output are those of the reference
    list, of the restricted issued source and of the general allocation
    rows taken together, a holder with no item included, each of them
    once and no one else. *)
Theorem holders_are_the_union (cmp : string -> string -> Z)
    (dayjs : string -> option Z) (startOfDay endOfDay : Z -> Z)
    (st : PageState.t) :
  windowActive startOfDay endOfDay st = false ->
  Js.trim (PageState.search st) = EmptyString ->
  let out := byEmployee cmp dayjs startOfDay endOfDay st in
  (forall eid,
     In eid (map Group.employee_id out)
     <-> In eid (map holderKey (PageState.employees st))
         \/ In eid (map RestrictedIssuedInventory.employee_id
                      (PageState.restrictedIssued st))
         \/ In eid (map GeneralAllocationRow.employee_id
                      (PageState.generalRows st)))
  /\ NoDup (map Group.employee_id out).
Proof.
  intros Hw Hq out.
  assert (HP : Permutation
                 (allEmployeeIds (PageState.employees st)
                    (PageState.restrictedIssued st) (PageState.generalRows st))
                 (map Group.employee_id out)).
  { rewrite <- (groups_ids cmp dayjs startOfDay endOfDay st).
    apply Permutation_map. apply byEmployee_perm; [exact Hw|].
    now rewrite Hq. }
  split.
  - intros eid. rewrite <- allEmployeeIds_In. split.
    + apply Permutation_in. now symmetry.
    + now apply Permutation_in.
  - eapply Permutation_NoDup; [exact HP | apply allEmployeeIds_NoDup].
Qed.

Lemma holders_are_the_union_witness :
  NoDup
    (map Group.employee_id
       (byEmployee codeUnitCompare digitsDayjs utcStartOfDay utcEndOfDay
          mixedState))
  /\ map Group.employee_id
       (byEmployee codeUnitCompare digitsDayjs utcStartOfDay utcEndOfDay
          mixedState)
     = ["A"; "B"; "C"]%string.
Proof.
  split; [|reflexivity].
  apply (holders_are_the_union codeUnitCompare digitsDayjs utcStartOfDay
           utcEndOfDay mixedState eq_refl eq_refl).
Defined.

(** A holder of the reference list with no item is left out by a
    search that it does not match, although no window is set. *)
Lemma search_hides_empty_holder :
  windowActive utcStartOfDay utcEndOfDay searchingState = false
  /\ map (fun g => (Group.employee_id g, Group._totalCount g))
       (groups codeUnitCompare digitsDayjs utcStartOfDay utcEndOfDay
          searchingState)
     = [("FSS-1"%string, 0%nat)]
  /\ byEmployee codeUnitCompare digitsDayjs utcStartOfDay utcEndOfDay
       searchingState = [].
Proof. repeat split. Qed.

(** C7 (amended). A holder whose total item count is zero is in the
    merged output exactly when no time window is active and the holder
    passes the search filter, which every holder does when the query is
    empty; a holder with items is in the output exactly when it passes
    the search filter.  So the window alone decides whether an empty
    holder is pruned. *)
Theorem empty_holder_pruning (cmp : string -> string -> Z)
    (dayjs : string -> option Z) (startOfDay endOfDay : Z -> Z)
    (st : PageState.t) (g : Group.t) :
  In g (groups cmp dayjs startOfDay endOfDay st) ->
  (Group._totalCount g = 0%nat ->
   (In g (byEmployee cmp dayjs startOfDay endOfDay st)
    <-> windowActive startOfDay endOfDay st = false
        /\ passesSearch st g = true))
  /\ ((0 < Group._totalCount g)%nat ->
      (In g (byEmployee cmp dayjs startOfDay endOfDay st)
       <-> passesSearch st g = true))
  /\ (Js.truthy (Js.toLowerCase (Js.trim (PageState.search st))) = false ->
      passesSearch st g = true).
Proof.
  intros Hg. split; [|split].
  - intros H0. rewrite byEmployee_In. split.
    + intros (_ & [Hw|Hpos] & Hs); [now split | lia].
    + intros (Hw & Hs). split; [exact Hg|]. split; [now left | exact Hs].
  - intros Hpos. rewrite byEmployee_In. split.
    + intros (_ & _ & Hs). exact Hs.
    + intros Hs. split; [exact Hg|]. split; [now right | exact Hs].
  - intros Hq. unfold passesSearch. now rewrite Hq.
Qed.

Lemma empty_holder_pruning_witness :
  In sampleGroup
    (byEmployee codeUnitCompare digitsDayjs utcStartOfDay utcEndOfDay idleState).
Proof.
  apply (proj1 (empty_holder_pruning codeUnitCompare digitsDayjs utcStartOfDay
                  utcEndOfDay idleState sampleGroup (or_introl eq_refl))
           eq_refl).
  split; reflexivity.
Defined.

(** ** The order of the holders *)

Lemma holderCompare_before (cmp : string -> string -> Z) (a b : Group.t) :
  holderCompare cmp a b <= 0 <-> holderBefore cmp a b.
Proof.
  unfold holderCompare, holderBefore. cbv zeta.
  pose proof (parseInt_valid (Group.serial_no a)) as Va.
  pose proof (parseInt_valid (Group.serial_no b)) as Vb.
  destruct (Js.isNaN (Js.parseInt (Group.serial_no a))) eqn:Na,
           (Js.isNaN (Js.parseInt (Group.serial_no b))) eqn:Nb;
    cbn [negb andb].
  - reflexivity.
  - split; [lia | contradiction].
  - split; [intros _; exact I | lia].
  - now apply sub_signum_le.
Qed.

Lemma holderBefore_total (cmp : string -> string -> Z) (a b : Group.t) :
  Collation cmp -> holderBefore cmp a b \/ holderBefore cmp b a.
Proof.
  intros Hc. unfold holderBefore. cbv zeta.
  destruct (Js.isNaN (Js.parseInt (Group.serial_no a))) eqn:Na,
           (Js.isNaN (Js.parseInt (Group.serial_no b))) eqn:Nb;
    try tauto.
  - now apply collation_total.
  - now apply le_total.
Qed.

Lemma holderCompare_total (cmp : string -> string -> Z) (a b : Group.t) :
  Collation cmp -> holderCompare cmp a b <= 0 \/ holderCompare cmp b a <= 0.
Proof.
  intros Hc. rewrite !holderCompare_before. now apply holderBefore_total.
Qed.

Lemma holderBefore_trans (cmp : string -> string -> Z) :
  Collation cmp -> Relations_1.Transitive (holderBefore cmp).
Proof.
  intros [_ Ht] a b c. unfold holderBefore. cbv zeta.
  destruct (Js.isNaN (Js.parseInt (Group.serial_no a))) eqn:Na,
           (Js.isNaN (Js.parseInt (Group.serial_no b))) eqn:Nb,
           (Js.isNaN (Js.parseInt (Group.serial_no c))) eqn:Nc;
    try tauto.
  - apply Ht.
  - now apply le_trans.
Qed.

(** Two holders whose serial numbers are the integers [2^53 + 1] and
    [2^53] are left in their order of arrival, the greater integer
    first: both read as the same number.  And of two holders without a
    serial number, a collation that puts the full stop before the plus
    sign lists first the name that comes second by character code,
    case set aside. *)
Lemma holders_order_follows_the_platform :
  map Group.serial_no
    (byEmployee codeUnitCompare digitsDayjs utcStartOfDay utcEndOfDay
       longSerialState)
  = ["9007199254740993"; "9007199254740992"]%string
  /\ Js.digits None "9007199254740993" = Some 9007199254740993
  /\ Js.digits None "9007199254740992" = Some 9007199254740992
  /\ Js.parseInt "9007199254740993" = Js.parseInt "9007199254740992"
  /\ map Group.employee_name
       (byEmployee rootCompare digitsDayjs utcStartOfDay utcEndOfDay
          signedNamesState)
     = ["Post .1"; "Post +1"]%string
  /\ caseInsensitiveCompare "Post +1" "Post .1" < 0.
Proof. repeat split. Qed.

(** C9 (amended). For a collation [localeCompare], the merged output
    is in this order, between any two of its holders and not only
    neighbours: holders whose serial number reads as a number come
    first, in ascending order of that number, which is the double
    nearest to the integer that the digits spell, and the holders
    without such a number follow, ordered by [localeCompare] on their
    display names. *)
Theorem holders_sorted (cmp : string -> string -> Z)
    (dayjs : string -> option Z) (startOfDay endOfDay : Z -> Z)
    (st : PageState.t) :
  Collation cmp ->
  StronglySorted (holderBefore cmp)
    (byEmployee cmp dayjs startOfDay endOfDay st).
Proof.
  intros Hc. apply Sorted_StronglySorted; [now apply holderBefore_trans|].
  unfold byEmployee.
  match goal with |- Sorted _ (Js.sort _ ?l) => generalize l end.
  intros l.
  pose proof (sort_sorted (holderCompare cmp)
                (fun a b => holderCompare_total cmp a b Hc) l) as H.
  induction H as [|g r Hs IH Hhd]; constructor; [exact IH|].
  destruct Hhd; constructor. now apply holderCompare_before.
Qed.

Lemma holders_sorted_witness :
  StronglySorted (holderBefore codeUnitCompare)
    (byEmployee codeUnitCompare digitsDayjs utcStartOfDay utcEndOfDay
       rosterState)
  /\ map Group.employee_name
       (byEmployee codeUnitCompare digitsDayjs utcStartOfDay utcEndOfDay
          rosterState)
     = ["Bilal"; "Aslam"; "Chand"; "Zahid"]%string.
Proof.
  split; [|reflexivity].
  apply (holders_sorted codeUnitCompare digitsDayjs utcStartOfDay utcEndOfDay
           rosterState codeUnitCompare_collation).
Defined.

(** * Further properties of the inventory page *)

(** ** The panels of the collapse list *)

Lemma NoDup_keys_filter {K A : Type} (key : A -> K) (keep : A -> bool)
    (l : list A) (H : NoDup (map key l)) :
  NoDup (map key (filter keep l)).
Proof.
  induction l as [|x l IH]; simpl; [constructor|].
  simpl in H. inversion H as [|? ? Hn Hnd]; subst.
  destruct (keep x); simpl; [|now apply IH].
  constructor; [|now apply IH].
  intros Hin. apply Hn. apply in_map_iff in Hin.
  destruct Hin as (y & Hy & Hin). apply filter_In in Hin.
  rewrite <- Hy. apply in_map. tauto.
Qed.

Lemma byEmployee_ids_NoDup (cmp : string -> string -> Z)
    (dayjs : string -> option Z) (startOfDay endOfDay : Z -> Z)
    (st : PageState.t) :
  NoDup (map Group.employee_id (byEmployee cmp dayjs startOfDay endOfDay st)).
Proof.
  unfold byEmployee.
  eapply Permutation_NoDup; [apply Permutation_map, sort_perm|].
  do 2 apply NoDup_keys_filter.
  pose proof (groups_ids cmp dayjs startOfDay endOfDay st) as E.
  unfold groups in E. rewrite E. apply allEmployeeIds_NoDup.
Qed.

Lemma toGroup_total (dayjs : string -> option Z) (start end_ : option Z)
    names serials rmap gmap last (eid : string) :
  let g := toGroup dayjs start end_ names serials rmap gmap last eid in
  Group._totalCount g
  = (List.length (RestrictedIssuedInventory.serial_items (Group.restricted g))
     + List.length (RestrictedIssuedInventory.quantity_items (Group.restricted g))
     + List.length (Group.general g))%nat.
Proof. reflexivity. Qed.

Lemma collapse_keys_unique_aux (cmp : string -> string -> Z)
    (dayjs : string -> option Z) (startOfDay endOfDay : Z -> Z)
    (st : PageState.t) (exportingByEmployee : Js.Map string bool) :
  NoDup
    (map CollapseItem.key
       (collapseItems (byEmployee cmp dayjs startOfDay endOfDay st)
          exportingByEmployee)).
Proof.
  unfold collapseItems. rewrite map_map. cbn [CollapseItem.key].
  apply byEmployee_ids_NoDup.
Qed.

(** Whatever the search and the window, no two panels of the collapse
    list have the same key: a holder is listed once. *)
Theorem collapse_keys_unique (cmp : string -> string -> Z)
    (dayjs : string -> option Z) (startOfDay endOfDay : Z -> Z)
    (st : PageState.t) (exportingByEmployee : Js.Map string bool) :
  NoDup
    (map CollapseItem.key
       (collapseItems (byEmployee cmp dayjs startOfDay endOfDay st)
          exportingByEmployee)).
Proof.
  unfold collapseItems. rewrite map_map. cbn [CollapseItem.key].
  apply byEmployee_ids_NoDup.
Qed.

(** The item count that a panel shows is the count by which
    [byEmployee] pruned: the PDF button of a panel is disabled exactly
    when its holder has no visible item, which never happens while a
    time window is active. *)
Theorem collapse_totals (cmp : string -> string -> Z)
    (dayjs : string -> option Z) (startOfDay endOfDay : Z -> Z)
    (st : PageState.t) (exportingByEmployee : Js.Map string bool)
    (it : CollapseItem.t) :
  In it
    (collapseItems (byEmployee cmp dayjs startOfDay endOfDay st)
       exportingByEmployee) ->
  exists g,
    In g (byEmployee cmp dayjs startOfDay endOfDay st)
    /\ CollapseItem.key it = Group.employee_id g
    /\ CollapseItem.total it = Group._totalCount g
    /\ (CollapseItem.pdfDisabled it = true <-> Group._totalCount g = 0%nat)
    /\ (windowActive startOfDay endOfDay st = true ->
        CollapseItem.pdfDisabled it = false
        /\ (0 < CollapseItem.total it)%nat).
Proof.
  intros Hin. unfold collapseItems in Hin. apply in_map_iff in Hin.
  destruct Hin as (g & <- & Hg). exists g. split; [exact Hg|].
  cbn [CollapseItem.key CollapseItem.total CollapseItem.pdfDisabled].
  pose proof Hg as Hg'. apply byEmployee_In in Hg'.
  destruct Hg' as (Hgr & Hprune & _).
  unfold groups in Hgr. apply in_map_iff in Hgr.
  destruct Hgr as (eid & E & _).
  assert (Ht : Group._totalCount g
               = (List.length
                    (RestrictedIssuedInventory.serial_items (Group.restricted g))
                  + List.length
                      (RestrictedIssuedInventory.quantity_items
                         (Group.restricted g))
                  + List.length (Group.general g))%nat).
  { rewrite <- E. apply toGroup_total. }
  rewrite <- Ht. split; [reflexivity|]. split; [reflexivity|].
  split; [apply Nat.eqb_eq|].
  intros Hw. destruct Hprune as [Hno|Hpos]; [congruence|].
  split; [apply Nat.eqb_neq; lia | exact Hpos].
Qed.

Lemma collapse_totals_witness :
  exists g,
    In g (byEmployee codeUnitCompare digitsDayjs utcStartOfDay utcEndOfDay
            idleState)
    /\ Group._totalCount g = 0%nat.
Proof.
  destruct (collapse_totals codeUnitCompare digitsDayjs utcStartOfDay
              utcEndOfDay idleState []
              (CollapseItem.mk "FSS-1" "#12" "Aslam" 0 false true None None None)
              (or_introl eq_refl)) as (g & Hg & _ & Ht & _).
  exists g. split; [exact Hg | symmetry; exact Ht].
Defined.

(** ** Searching and windowing the merged view *)

Section SortFilter.
Context {A : Type}.
Variable cmp : A -> A -> Z.
Variable p : A -> bool.
Hypothesis cmp_total : forall a b, cmp a b <= 0 \/ cmp b a <= 0.
Hypothesis cmp_trans : forall a b c, cmp a b <= 0 -> cmp b c <= 0 -> cmp a c <= 0.

Lemma filter_insert_out (x : A) (l : list A) :
  p x = false -> filter p (Js.insert cmp x l) = filter p l.
Proof.
  intros Hx. induction l as [|y l IH]; simpl; [now rewrite Hx|].
  destruct (cmp x y <=? 0); simpl; [now rewrite Hx|].
  now rewrite IH.
Qed.

Lemma insert_below (x : A) (l : list A) :
  Forall (fun z => cmp x z <= 0) l -> Js.insert cmp x l = x :: l.
Proof.
  intros H. destruct l as [|z l]; [reflexivity|]. simpl.
  inversion H as [|? ? Hz _]; subst.
  destruct (Z.leb_spec (cmp x z) 0); [reflexivity | lia].
Qed.

Lemma filter_insert_in (x : A) (l : list A) :
  p x = true -> StronglySorted (fun a b => cmp a b <= 0) l ->
  filter p (Js.insert cmp x l) = Js.insert cmp x (filter p l).
Proof.
  intros Hx Hs. induction Hs as [|y l Hs IH Hy]; simpl; [now rewrite Hx|].
  destruct (Z.leb_spec (cmp x y) 0) as [Hle|Hgt].
  - change (filter p (x :: y :: l)) with
      (if p x then x :: filter p (y :: l) else filter p (y :: l)).
    rewrite Hx. symmetry. apply insert_below.
    assert (Hall : Forall (fun z => cmp x z <= 0) (y :: l)).
    { constructor; [exact Hle|].
      eapply Forall_impl; [|exact Hy]. intros z Hz.
      now apply cmp_trans with (b := y). }
    rewrite Forall_forall in *. intros z Hz. apply Hall.
    apply filter_In in Hz. tauto.
  - simpl. destruct (p y); [|exact IH].
    rewrite IH. simpl.
    destruct (Z.leb_spec (cmp x y) 0); [lia | reflexivity].
Qed.

Lemma sort_strongly_sorted (l : list A) :
  StronglySorted (fun a b => cmp a b <= 0) (Js.sort cmp l).
Proof.
  apply Sorted_StronglySorted; [|now apply sort_sorted].
  intros a b c. apply cmp_trans.
Qed.

(** A stable sort by a total preorder commutes with a filter. *)
Lemma sort_filter (l : list A) :
  Js.sort cmp (filter p l) = filter p (Js.sort cmp l).
Proof.
  induction l as [|x l IH]; simpl; [reflexivity|].
  destruct (p x) eqn:Hx; simpl.
  - rewrite IH. symmetry. apply filter_insert_in; [exact Hx|].
    apply sort_strongly_sorted.
  - rewrite filter_insert_out by exact Hx. exact IH.
Qed.

End SortFilter.

Lemma holderCompare_trans (cmp : string -> string -> Z) (a b c : Group.t) :
  Collation cmp ->
  holderCompare cmp a b <= 0 -> holderCompare cmp b c <= 0 ->
  holderCompare cmp a c <= 0.
Proof.
  intros Hc. rewrite !holderCompare_before. apply holderBefore_trans.
  exact Hc.
Qed.

Lemma filter_all {A : Type} (l : list A) : filter (fun _ => true) l = l.
Proof. induction l as [|x l IH]; simpl; [reflexivity | now rewrite IH]. Qed.

(** Searching hides holders and does nothing else: the view under a
    query is the view under the empty query with the holders that do
    not match removed, each remaining holder with the same record and
    in the same place relative to the others. *)
Theorem search_only_hides (cmp : string -> string -> Z)
    (dayjs : string -> option Z) (startOfDay endOfDay : Z -> Z)
    (st : PageState.t) :
  Collation cmp ->
  byEmployee cmp dayjs startOfDay endOfDay st
  = filter (passesSearch st)
      (byEmployee cmp dayjs startOfDay endOfDay (setSearch st EmptyString)).
Proof.
  intros Hc. unfold byEmployee, passesSearch, setSearch.
  cbn [PageState.search PageState.employees PageState.restrictedIssued
       PageState.generalRows PageState.restrictedTx PageState.dateRange].
  change (Js.toLowerCase (Js.trim EmptyString)) with EmptyString.
  cbn [Js.truthy negb]. rewrite filter_all.
  set (q := Js.toLowerCase (Js.trim (PageState.search st))).
  rewrite <- sort_filter.
  - reflexivity.
  - intros a b. now apply holderCompare_total.
  - intros a b c. now apply holderCompare_trans.
Qed.

Lemma search_only_hides_witness :
  byEmployee codeUnitCompare digitsDayjs utcStartOfDay utcEndOfDay
    searchingState
  = filter (passesSearch searchingState)
      (byEmployee codeUnitCompare digitsDayjs utcStartOfDay utcEndOfDay
         (setSearch searchingState EmptyString)).
Proof.
  exact (search_only_hides codeUnitCompare digitsDayjs utcStartOfDay
           utcEndOfDay searchingState codeUnitCompare_collation).
Defined.

Lemma existsb_incl {A : Type} (p : A -> bool) (l l' : list A) :
  incl l l' -> existsb p l = true -> existsb p l' = true.
Proof.
  intros Hi H. apply existsb_exists in H. destruct H as (x & Hx & Hp).
  apply existsb_exists. exists x. split; [now apply Hi | exact Hp].
Qed.

Lemma matchesQuery_mono (q : string) (g g0 : Group.t) :
  Group.employee_name g = Group.employee_name g0 ->
  Group.employee_id g = Group.employee_id g0 ->
  incl (RestrictedIssuedInventory.serial_items (Group.restricted g))
    (RestrictedIssuedInventory.serial_items (Group.restricted g0)) ->
  incl (RestrictedIssuedInventory.quantity_items (Group.restricted g))
    (RestrictedIssuedInventory.quantity_items (Group.restricted g0)) ->
  incl (Group.general g) (Group.general g0) ->
  matchesQuery q g = true -> matchesQuery q g0 = true.
Proof.
  intros En Ei Hs Hq Hg. unfold matchesQuery. rewrite En, Ei.
  rewrite !orb_true_iff. intros [[[H|H]|H]|H].
  - now left; left; left.
  - left; left; right. eapply existsb_incl; eassumption.
  - left; right. eapply existsb_incl; eassumption.
  - right. eapply existsb_incl; eassumption.
Qed.

Lemma incl_filter {A : Type} (p : A -> bool) (l : list A) : incl (filter p l) l.
Proof. intros x H. apply filter_In in H. tauto. Qed.

Section Narrowing.
Variable cmp : string -> string -> Z.
Variable dayjs : string -> option Z.
Variable startOfDay endOfDay : Z -> Z.

Lemma toGroup_narrows (start end_ : option Z) names serials rmap gmap last
    (eid : string) :
  let g := toGroup dayjs start end_ names serials rmap gmap last eid in
  let g0 := toGroup dayjs None None names serials rmap gmap last eid in
  Group.employee_id g = Group.employee_id g0
  /\ Group.employee_name g = Group.employee_name g0
  /\ Group.serial_no g = Group.serial_no g0
  /\ RestrictedIssuedInventory.serial_items (Group.restricted g)
     = filter
         (fun s =>
            inRange dayjs start end_
              (Some (RestrictedIssuedSerialRow.created_at s)))
         (RestrictedIssuedInventory.serial_items (Group.restricted g0))
  /\ RestrictedIssuedInventory.quantity_items (Group.restricted g)
     = filter (qtyItemVisible dayjs start end_ (snd last) eid)
         (RestrictedIssuedInventory.quantity_items (Group.restricted g0))
  /\ Group.general g
     = filter (generalVisible dayjs start end_) (Group.general g0).
Proof.
  cbv zeta. unfold toGroup.
  cbn [Group.employee_id Group.employee_name Group.serial_no Group.restricted
       Group.general RestrictedIssuedInventory.serial_items
       RestrictedIssuedInventory.quantity_items].
  repeat split.
  - unfold serialItems. now rewrite (filter_all (map _ _)).
  - now rewrite (filter_all (RestrictedIssuedInventory.quantity_items _)).
  - now rewrite filter_all.
Qed.

(** A date window only narrows the view: every holder listed under a
    window is listed without it, under the same name, and the items
    listed under the window are the items listed without it that pass
    the window, in the same order. *)
Theorem window_only_narrows (st : PageState.t) (g : Group.t) :
  In g (byEmployee cmp dayjs startOfDay endOfDay st) ->
  exists g0,
    In g0 (byEmployee cmp dayjs startOfDay endOfDay (setDateRange st None))
    /\ Group.employee_id g0 = Group.employee_id g
    /\ Group.employee_name g0 = Group.employee_name g
    /\ RestrictedIssuedInventory.serial_items (Group.restricted g)
       = filter
           (fun s =>
              inRange dayjs (windowStart startOfDay (PageState.dateRange st))
                (windowEnd endOfDay (PageState.dateRange st))
                (Some (RestrictedIssuedSerialRow.created_at s)))
           (RestrictedIssuedInventory.serial_items (Group.restricted g0))
    /\ incl (RestrictedIssuedInventory.quantity_items (Group.restricted g))
         (RestrictedIssuedInventory.quantity_items (Group.restricted g0))
    /\ Group.general g
       = filter
           (generalVisible dayjs
              (windowStart startOfDay (PageState.dateRange st))
              (windowEnd endOfDay (PageState.dateRange st)))
           (Group.general g0)
    /\ (Group._totalCount g <= Group._totalCount g0)%nat.
Proof.
  intros Hin. apply byEmployee_In in Hin. destruct Hin as (Hg & _ & Hs).
  unfold groups in Hg. apply in_map_iff in Hg. destruct Hg as (eid & <- & Hid).
  set (start := windowStart startOfDay (PageState.dateRange st)) in *.
  set (end_ := windowEnd endOfDay (PageState.dateRange st)) in *.
  set (names := empNameById (PageState.employees st)) in *.
  set (serials := empSerialNoById (PageState.employees st)) in *.
  set (rmap := restrictedMap (PageState.restrictedIssued st)) in *.
  set (gmap := generalMap (PageState.generalRows st)) in *.
  set (last := restrictedLastIssue cmp (PageState.restrictedTx st)) in *.
  pose proof (toGroup_narrows start end_ names serials rmap gmap last eid)
    as (Ei & En & _ & Es & Eq & Eg).
  set (g := toGroup dayjs start end_ names serials rmap gmap last eid) in *.
  set (g0 := toGroup dayjs None None names serials rmap gmap last eid) in *.
  assert (Hqi : incl (RestrictedIssuedInventory.quantity_items
                        (Group.restricted g))
                  (RestrictedIssuedInventory.quantity_items
                     (Group.restricted g0))).
  { rewrite Eq. apply incl_filter. }
  exists g0. split.
  - apply byEmployee_In. split; [|split].
    + unfold groups, setDateRange.
      cbn [PageState.search PageState.employees PageState.restrictedIssued
           PageState.generalRows PageState.restrictedTx PageState.dateRange
           windowStart windowEnd].
      apply in_map_iff. exists eid. split; [reflexivity | exact Hid].
    + left. reflexivity.
    + unfold passesSearch in *.
      change (PageState.search (setDateRange st None))
        with (PageState.search st).
      apply orb_true_iff in Hs. apply orb_true_iff.
      destruct Hs as [Hs|Hs]; [now left | right].
      eapply matchesQuery_mono; try eassumption.
      * rewrite Es. apply incl_filter.
      * rewrite Eg. apply incl_filter.
  - split; [now symmetry|]. split; [now symmetry|].
    split; [exact Es|]. split; [exact Hqi|]. split; [exact Eg|].
    pose proof (toGroup_total dayjs start end_ names serials rmap gmap last
                  eid) as T.
    pose proof (toGroup_total dayjs None None names serials rmap gmap last
                  eid) as T0.
    cbv zeta in T, T0. fold g in T. fold g0 in T0.
    rewrite T, T0, Es, Eq, Eg.
    pose proof (filter_length_le
                  (fun s => inRange dayjs start end_
                              (Some (RestrictedIssuedSerialRow.created_at s)))
                  (RestrictedIssuedInventory.serial_items (Group.restricted g0))).
    pose proof (filter_length_le (qtyItemVisible dayjs start end_ (snd last) eid)
                  (RestrictedIssuedInventory.quantity_items
                     (Group.restricted g0))).
    pose proof (filter_length_le (generalVisible dayjs start end_)
                  (Group.general g0)).
    lia.
Qed.

End Narrowing.

Lemma window_only_narrows_witness :
  exists g0,
    In g0 (byEmployee codeUnitCompare digitsDayjs utcStartOfDay utcEndOfDay
             (setDateRange
                (setDateRange mixedState (Some (Some 0, Some 0))) None))
    /\ Group.employee_id g0 = "A"%string.
Proof.
  destruct (window_only_narrows codeUnitCompare digitsDayjs utcStartOfDay
              utcEndOfDay (setDateRange mixedState (Some (Some 0, Some 0)))
              (Group.mk "A" "Aslam" "1" (RestrictedIssuedInventory.mk "A" [] [])
                 [GeneralAllocationRow.mk "A__X" "A" "Aslam" "X" "Boots" "pair"
                    (Js.Fin 1) "-" "2024-01-10"] 1)
              (or_introl eq_refl)) as (g0 & H0 & Hid & _).
  exists g0. split; [exact H0 | exact Hid].
Defined.

(** ** What a holder's record is made of *)

Lemma find_app {A : Type} (p : A -> bool) (l l' : list A) :
  List.find p (l ++ l')
  = match List.find p l with
    | Some x => Some x
    | None => List.find p l'
    end.
Proof.
  induction l as [|x l IH]; simpl; [reflexivity|].
  destruct (p x); [reflexivity | exact IH].
Qed.

(** A map filled by [set] in a loop answers with the last element of
    the list that has the key. *)
Lemma get_fold_set {A V : Type} (f : A -> string) (v : A -> V) (l : list A)
    (m : Js.Map string V) (k : string) :
  Js.get string_dec k
    (fold_left (fun m x => Js.set string_dec (f x) (v x) m) l m)
  = match List.find (fun x => (f x =? k)%string) (rev l) with
    | Some x => Some (v x)
    | None => Js.get string_dec k m
    end.
Proof.
  revert m. induction l as [|x l IH]; intros m; simpl; [reflexivity|].
  rewrite IH, find_app. simpl.
  destruct (List.find (fun x => (f x =? k)%string) (rev l)); [reflexivity|].
  destruct (String.eqb_spec (f x) k) as [<-|Hne].
  - apply get_set_eq.
  - apply get_set_ne. congruence.
Qed.

Lemma generalMap_get_from (rows : list GeneralAllocationRow.t)
    (m : Js.Map string (list GeneralAllocationRow.t)) (eid : string) :
  Js.get string_dec eid
    (fold_left
       (fun m r =>
          let eid := GeneralAllocationRow.employee_id r in
          let prev := match Js.get string_dec eid m with
                      | Some p => p
                      | None => []
                      end in
          Js.set string_dec eid (prev ++ [r]) m)
       rows m)
  = match filter (fun r => (GeneralAllocationRow.employee_id r =? eid)%string)
            rows with
    | [] => Js.get string_dec eid m
    | fs => Some (match Js.get string_dec eid m with
                  | Some p => p
                  | None => []
                  end ++ fs)
    end.
Proof.
  revert m. induction rows as [|r rows IH]; intros m; simpl; [reflexivity|].
  rewrite IH. cbv zeta.
  destruct (String.eqb_spec (GeneralAllocationRow.employee_id r) eid)
    as [E|Hne].
  - rewrite E, get_set_eq.
    destruct (filter _ rows); rewrite <- ?app_assoc; reflexivity.
  - rewrite get_set_ne by congruence. reflexivity.
Qed.

Lemma generalMap_get (rows : list GeneralAllocationRow.t) (eid : string) :
  match Js.get string_dec eid (generalMap rows) with
  | Some l => l
  | None => []
  end
  = filter (fun r => (GeneralAllocationRow.employee_id r =? eid)%string) rows.
Proof.
  unfold generalMap. rewrite generalMap_get_from. simpl.
  destruct (filter _ rows); reflexivity.
Qed.

Lemma filter_filter {A : Type} (p q : A -> bool) (l : list A) :
  filter q (filter p l) = filter (fun x => p x && q x) l.
Proof.
  induction l as [|x l IH]; simpl; [reflexivity|].
  destruct (p x); simpl; [destruct (q x)|]; now rewrite IH.
Qed.

(** A holder's general list holds exactly the rows of [generalRows]
    that carry the holder's id and pass the window, in the order of
    [generalRows].  The name shown is the name of the last employee of
    the directory with that id, or the id itself when there is none or
    the name is empty; and when the issued list has several records
    for the holder, the items shown are those of the last one. *)
Theorem holder_record (cmp : string -> string -> Z)
    (dayjs : string -> option Z) (startOfDay endOfDay : Z -> Z)
    (st : PageState.t) (g : Group.t) :
  In g (byEmployee cmp dayjs startOfDay endOfDay st) ->
  let start := windowStart startOfDay (PageState.dateRange st) in
  let end_ := windowEnd endOfDay (PageState.dateRange st) in
  let eid := Group.employee_id g in
  let last := restrictedLastIssue cmp (PageState.restrictedTx st) in
  let record :=
    List.find
      (fun r => (RestrictedIssuedInventory.employee_id r =? eid)%string)
      (rev (PageState.restrictedIssued st)) in
  Group.general g
  = filter
      (fun r =>
         (GeneralAllocationRow.employee_id r =? eid)%string
         && generalVisible dayjs start end_ r)
      (PageState.generalRows st)
  /\ Group.employee_name g
     = Js.or_else
         (option_map Employee2.name
            (List.find (fun e => (holderKey e =? eid)%string)
               (rev (PageState.employees st))))
         eid
  /\ RestrictedIssuedInventory.serial_items (Group.restricted g)
     = serialItems dayjs start end_ (fst last)
         (match record with
          | Some r => RestrictedIssuedInventory.serial_items r
          | None => []
          end)
  /\ RestrictedIssuedInventory.quantity_items (Group.restricted g)
     = filter (qtyItemVisible dayjs start end_ (snd last) eid)
         (match record with
          | Some r => RestrictedIssuedInventory.quantity_items r
          | None => []
          end).
Proof.
  intros Hin. apply byEmployee_In in Hin. destruct Hin as (Hg & _ & _).
  unfold groups in Hg. apply in_map_iff in Hg. destruct Hg as (eid & <- & _).
  cbv zeta. unfold toGroup.
  cbn [Group.general Group.employee_name Group.employee_id Group.restricted
       RestrictedIssuedInventory.serial_items
       RestrictedIssuedInventory.quantity_items].
  split; [|split; [|split]].
  - rewrite generalMap_get. apply filter_filter.
  - unfold empNameById. rewrite get_fold_set. cbn [Js.get].
    destruct (List.find _ (rev (PageState.employees st))); reflexivity.
  - unfold restrictedMap. rewrite get_fold_set. cbn [Js.get].
    destruct (List.find _ (rev (PageState.restrictedIssued st))); reflexivity.
  - unfold restrictedMap. rewrite get_fold_set. cbn [Js.get].
    destruct (List.find _ (rev (PageState.restrictedIssued st))); reflexivity.
Qed.

Lemma holder_record_witness :
  Group.general
    (Group.mk "C" "C" EmptyString
       (RestrictedIssuedInventory.mk "C"
          [RestrictedIssuedSerialRow.mk (Some (Js.Fin 5)) "G3" "Rifle" "weapon"
             "SN-5" "issued" "2024-03-02"] [])
       [GeneralAllocationRow.mk "C__X" "C" "C" "X" "Boots" "pair" (Js.Fin 2)
          "-" "2024-01-05"] 2)
  = filter
      (fun r =>
         (GeneralAllocationRow.employee_id r =? "C")%string
         && generalVisible digitsDayjs None None r)
      (PageState.generalRows mixedState).
Proof.
  apply (holder_record codeUnitCompare digitsDayjs utcStartOfDay utcEndOfDay
           mixedState).
  right. right. left. reflexivity.
Defined.

(** ** The rows that [load] emits *)

Lemma trimStart_head (s : string) :
  match Js.trimStart s with
  | EmptyString => True
  | String c _ => Js.is_space c = false
  end.
Proof.
  induction s as [|c s IH]; simpl; [exact I|].
  destruct (Js.is_space c) eqn:E; [exact IH | exact E].
Qed.

Lemma trimEnd_idem (s : string) : Js.trimEnd (Js.trimEnd s) = Js.trimEnd s.
Proof.
  induction s as [|c s IH]; [reflexivity|]. cbn [Js.trimEnd].
  destruct (Js.trimEnd s) as [|c' s'] eqn:E.
  - destruct (Js.is_space c) eqn:Ec; cbn [Js.trimEnd];
      [reflexivity | now rewrite Ec].
  - change (Js.trimEnd (String c (String c' s')))
      with (match Js.trimEnd (String c' s') with
            | EmptyString =>
                if Js.is_space c then EmptyString else String c EmptyString
            | String a r => String c (String a r)
            end).
    now rewrite IH.
Qed.

Lemma trimStart_trimEnd (s : string) :
  match s with
  | EmptyString => True
  | String c _ => Js.is_space c = false
  end ->
  Js.trimStart (Js.trimEnd s) = Js.trimEnd s.
Proof.
  destruct s as [|c s]; [reflexivity|]. intros Hc. cbn [Js.trimEnd].
  destruct (Js.trimEnd s); rewrite ?Hc; cbn [Js.trimStart]; now rewrite Hc.
Qed.

(** Trimming a trimmed string changes nothing. *)
Lemma trim_idem (s : string) : Js.trim (Js.trim s) = Js.trim s.
Proof.
  unfold Js.trim. rewrite trimStart_trimEnd by apply trimStart_head.
  apply trimEnd_idem.
Qed.

Lemma applyTx_holder (cmp : string -> string -> Z) (t : GeneralTxRow.t)
    (prev : option Allocation.t) :
  (Allocation.employee_id (applyTx cmp t prev),
   Allocation.item_code (applyTx cmp t prev))
  = match prev with
    | Some p => (Allocation.employee_id p, Allocation.item_code p)
    | None => (txEmployeeId t, txItemCode t)
    end.
Proof.
  unfold applyTx.
  destruct (txAction t =? "ISSUE")%string.
  - destruct prev as [p|]; cbn [Allocation.lastIssueAt];
      match goal with |- context [if ?b then _ else _] => destruct b end;
      reflexivity.
  - destruct prev; reflexivity.
Qed.

(** The holder and the item stored with an allocation are those of a
    kept record. *)
Lemma aggregate_holders (cmp : string -> string -> Z)
    (txs : list GeneralTxRow.t) (m : Js.Map string Allocation.t) :
  (forall k v, In (k, v) m ->
     exists t, kept t = true /\ Allocation.employee_id v = txEmployeeId t
               /\ Allocation.item_code v = txItemCode t) ->
  forall k v, In (k, v) (fold_left (aggregate_step cmp) txs m) ->
    exists t, kept t = true /\ Allocation.employee_id v = txEmployeeId t
              /\ Allocation.item_code v = txItemCode t.
Proof.
  revert m. induction txs as [|t txs IH]; intros m Hm; cbn [fold_left];
    [exact Hm|].
  apply IH. rewrite aggregate_step_spec.
  destruct (kept t) eqn:Hk; [|exact Hm].
  intros k v Hin. apply In_set in Hin. destruct Hin as [[-> ->]|Hin];
    [|now apply (Hm k v)].
  pose proof (applyTx_holder cmp t (Js.get string_dec (txKey t) m)) as E.
  destruct (Js.get string_dec (txKey t) m) as [p|] eqn:Hg.
  - apply get_In in Hg. destruct (Hm _ _ Hg) as (t0 & H0 & He & Hi).
    injection E as E1 E2. exists t0. split; [exact H0|]. split; congruence.
  - injection E as E1 E2. exists t. split; [exact Hk|]. now split.
Qed.

Lemma kept_fields (t : GeneralTxRow.t) :
  kept t = true ->
  Js.truthy (txEmployeeId t) = true /\ Js.truthy (txItemCode t) = true.
Proof.
  unfold kept. rewrite !andb_true_iff. tauto.
Qed.

Lemma rowsOut_In (cmp : string -> string -> Z)
    (emps : list Employee2.t) (items : list GeneralItem.t)
    (m : Js.Map string Allocation.t) (r : GeneralAllocationRow.t) :
  In r (rowsOut cmp emps items m)
  <-> exists k v, In (k, v) m
                  /\ Js.gt (Allocation.qty v) (Js.Fin 0) = true
                  /\ r = toRow (empById emps) (itemByCode items) v.
Proof.
  unfold rowsOut. rewrite sort_In, in_map_iff. split.
  - intros (v & <- & Hv). apply filter_In in Hv. destruct Hv as (Hv & Hp).
    unfold Js.values in Hv. apply in_map_iff in Hv.
    destruct Hv as ([k w] & E & Hin). simpl in E. subst w.
    exists k, v. now repeat split.
  - intros (k & v & Hin & Hp & ->). exists v. split; [reflexivity|].
    apply filter_In. split; [|exact Hp].
    unfold Js.values. apply in_map_iff. exists (k, v). now split.
Qed.

(** The rows of [rowsOut] are the allocations of the aggregate with a
    positive quantity, one row each and no two with the same id; the
    id of a row is its holder, two underscores and its item, where
    holder and item are not empty and carry no white space at either
    end. *)
Theorem rowsOut_rows (cmp : string -> string -> Z)
    (emps : list Employee2.t) (items : list GeneralItem.t)
    (txs : list GeneralTxRow.t) :
  let rows := rowsOut cmp emps items (aggregate cmp txs) in
  NoDup (map GeneralAllocationRow.id rows)
  /\ (forall r,
        In r rows
        <-> exists v,
              Js.get string_dec (GeneralAllocationRow.id r) (aggregate cmp txs)
              = Some v
              /\ Js.gt (Allocation.qty v) (Js.Fin 0) = true
              /\ r = toRow (empById emps) (itemByCode items) v)
  /\ (forall r,
        In r rows ->
        GeneralAllocationRow.id r
        = allocKey (GeneralAllocationRow.employee_id r)
            (GeneralAllocationRow.item_code r)
        /\ Js.truthy (GeneralAllocationRow.employee_id r) = true
        /\ Js.truthy (GeneralAllocationRow.item_code r) = true
        /\ Js.trim (GeneralAllocationRow.employee_id r)
           = GeneralAllocationRow.employee_id r
        /\ Js.trim (GeneralAllocationRow.item_code r)
           = GeneralAllocationRow.item_code r).
Proof.
  intros rows.
  destruct (aggregate_wf cmp txs [] (NoDup_nil _)) as (Hnd & Hk);
    [intros k w []|].
  fold (aggregate cmp txs) in Hnd, Hk.
  assert (Hh := aggregate_holders cmp txs []
                  (fun k v (H : In (k, v) []) => match H with end)).
  fold (aggregate cmp txs) in Hh.
  set (m := aggregate cmp txs) in *.
  assert (Hrow : forall r, In r rows <->
            exists k v, In (k, v) m
                        /\ Js.gt (Allocation.qty v) (Js.Fin 0) = true
                        /\ r = toRow (empById emps) (itemByCode items) v).
  { intros r. apply rowsOut_In. }
  split; [|split].
  - unfold rows, rowsOut.
    eapply Permutation_NoDup; [apply Permutation_map, sort_perm|].
    rewrite map_map. cbn [toRow GeneralAllocationRow.id].
    unfold Js.values.
    assert (G : forall l : Js.Map string Allocation.t,
              (forall k v, In (k, v) l -> In (k, v) m) ->
              NoDup (Js.keys l) ->
              NoDup
                (map (fun v => allocKey (Allocation.employee_id v)
                                 (Allocation.item_code v))
                   (filter (fun v => Js.gt (Allocation.qty v) (Js.Fin 0))
                      (map snd l)))).
    { induction l as [|[k v] l IHl]; intros Hsub Hn; cbn [map filter snd];
        [constructor|].
      unfold Js.keys in Hn. simpl in Hn.
      inversion Hn as [|? ? Hnk Hn']; subst.
      assert (IH' := IHl (fun k0 v0 H => Hsub k0 v0 (or_intror H)) Hn').
      destruct (Js.gt (Allocation.qty v) (Js.Fin 0)); [|exact IH'].
      cbn [map]. constructor; [|exact IH'].
      rewrite (Hk k v (Hsub k v (or_introl eq_refl))).
      intros Hin. apply Hnk. apply in_map_iff in Hin.
      destruct Hin as (w & Ew & Hw). apply filter_In in Hw.
      destruct Hw as (Hw & _). apply in_map_iff in Hw.
      destruct Hw as ([k' w'] & E' & Hin'). simpl in E'. subst w'.
      rewrite (Hk k' w (Hsub k' w (or_intror Hin'))) in Ew. subst k'.
      unfold Js.keys. change k with (fst (k, w)). now apply in_map. }
    apply G; [tauto | exact Hnd].
  - intros r. rewrite Hrow. split.
    + intros (k & v & Hin & Hp & ->). exists v.
      cbn [toRow GeneralAllocationRow.id]. rewrite (Hk k v Hin).
      split; [now apply In_get | now split].
    + intros (v & Hg & Hp & E). apply get_In in Hg.
      exists (GeneralAllocationRow.id r), v. now repeat split.
  - intros r Hr. apply Hrow in Hr. destruct Hr as (k & v & Hin & _ & ->).
    cbn [toRow GeneralAllocationRow.id GeneralAllocationRow.employee_id
         GeneralAllocationRow.item_code].
    destruct (Hh k v Hin) as (t & Ht & -> & ->).
    destruct (kept_fields t Ht) as (H1 & H2).
    split; [reflexivity|]. split; [exact H1|]. split; [exact H2|].
    unfold txEmployeeId, txItemCode. split; apply trim_idem.
Qed.

(** For a collation, the rows of [rowsOut] are in descending order of
    their last issue date: no row is followed, near or far, by a row
    whose date compares above its own. *)
Theorem rowsOut_latest_first (cmp : string -> string -> Z)
    (emps : list Employee2.t) (items : list GeneralItem.t)
    (byKey : Js.Map string Allocation.t) :
  Collation cmp ->
  StronglySorted
    (fun a b =>
       cmp (GeneralAllocationRow.created_at b)
         (GeneralAllocationRow.created_at a) <= 0)
    (rowsOut cmp emps items byKey).
Proof.
  intros Hc. unfold rowsOut.
  apply (sort_strongly_sorted
           (fun a b => cmp (GeneralAllocationRow.created_at b)
                         (GeneralAllocationRow.created_at a))).
  - intros a b. apply (collation_total cmp); exact Hc.
  - intros a b c H1 H2. destruct Hc as [_ Ht].
    now apply Ht with (b := GeneralAllocationRow.created_at b).
Qed.

Lemma rowsOut_latest_first_witness :
  StronglySorted
    (fun a b =>
       codeUnitCompare (GeneralAllocationRow.created_at b)
         (GeneralAllocationRow.created_at a) <= 0)
    (rowsOut codeUnitCompare [] [] (aggregate codeUnitCompare scenario)).
Proof.
  exact (rowsOut_latest_first codeUnitCompare [] []
           (aggregate codeUnitCompare scenario) codeUnitCompare_collation).
Defined.

(** ** From [load] to the view *)

(** After a load that failed the page lists nobody, whatever the search
    and the window, and whatever the restricted transactions that the
    state still holds. *)
Theorem failed_load_empties_view (cmp : string -> string -> Z)
    (dayjs : string -> option Z) (startOfDay endOfDay : Z -> Z)
    (st : PageState.t) (e : JsError.t)
    (exportingByEmployee : Js.Map string bool) (page pageSize : Z) :
  let st' := fst (load cmp st (Rejected e)) in
  byEmployee cmp dayjs startOfDay endOfDay st' = []
  /\ paginatedCollapseItems
       (collapseItems (byEmployee cmp dayjs startOfDay endOfDay st')
          exportingByEmployee) page pageSize = []
  /\ PageState.loading st' = false
  /\ PageState.search st' = PageState.search st
  /\ PageState.dateRange st' = PageState.dateRange st.
Proof.
  cbv zeta. cbn [load fst].
  assert (E : byEmployee cmp dayjs startOfDay endOfDay
                (PageState.mk false [] [] [] (PageState.search st)
                   (PageState.dateRange st) (PageState.restrictedTx st)) = []).
  { unfold byEmployee.
    cbn [PageState.employees PageState.restrictedIssued PageState.generalRows
         allEmployeeIds fold_left map filter Js.sort fold_right].
    reflexivity. }
  rewrite E. repeat split.
  unfold paginatedCollapseItems, JsExtra.slice. cbn [collapseItems map skipn].
  now rewrite skipn_nil, firstn_nil.
Qed.

(** After a load that succeeded, with no window and an empty search,
    every allocation of the general ledger with a positive quantity is
    listed: its holder has a panel, directory or not, and its row is in
    the general list of that panel. *)
Theorem positive_allocation_listed (cmp : string -> string -> Z)
    (dayjs : string -> option Z) (startOfDay endOfDay : Z -> Z)
    (st : PageState.t) (r : Responses.t) (key : string) (v : Allocation.t) :
  windowActive startOfDay endOfDay st = false ->
  Js.trim (PageState.search st) = EmptyString ->
  Js.get string_dec key (aggregate cmp (arrayOr (Responses.txRes r))) = Some v ->
  Js.gt (Allocation.qty v) (Js.Fin 0) = true ->
  let st' := fst (load cmp st (Fulfilled r)) in
  exists g,
    In g (byEmployee cmp dayjs startOfDay endOfDay st')
    /\ Group.employee_id g = Allocation.employee_id v
    /\ In (toRow (empById (arrayOr (Responses.employeesRes r)))
             (itemByCode (arrayOr (Responses.itemsRes r))) v)
          (Group.general g).
Proof.
  intros Hw Hq Hv Hp st'.
  set (emps := arrayOr (Responses.employeesRes r)).
  set (row := toRow (empById emps) (itemByCode (arrayOr (Responses.itemsRes r))) v).
  assert (Hrow : In row (PageState.generalRows st')).
  { unfold st'. cbn [load fst PageState.generalRows]. apply rowsOut_In.
    exists key, v. split; [now apply (get_In string_dec) | now split]. }
  assert (Hw' : windowActive startOfDay endOfDay st' = false) by exact Hw.
  assert (Hq' : Js.trim (PageState.search st') = EmptyString) by exact Hq.
  set (eid := Allocation.employee_id v).
  assert (Hid : In eid (allEmployeeIds (PageState.employees st')
                          (PageState.restrictedIssued st')
                          (PageState.generalRows st'))).
  { apply allEmployeeIds_In. right. right.
    change eid with (GeneralAllocationRow.employee_id row).
    now apply in_map. }
  set (g := toGroup dayjs
              (windowStart startOfDay (PageState.dateRange st'))
              (windowEnd endOfDay (PageState.dateRange st'))
              (empNameById (PageState.employees st'))
              (empSerialNoById (PageState.employees st'))
              (restrictedMap (PageState.restrictedIssued st'))
              (generalMap (PageState.generalRows st'))
              (restrictedLastIssue cmp (PageState.restrictedTx st')) eid).
  exists g. split; [|split].
  - apply byEmployee_In. split; [|split].
    + unfold groups. apply in_map_iff. exists eid. split; [reflexivity|exact Hid].
    + now left.
    + unfold passesSearch. now rewrite Hq'.
  - reflexivity.
  - unfold g, toGroup. cbn [Group.general]. rewrite generalMap_get.
    apply filter_In. split.
    + apply filter_In. split; [exact Hrow|].
      change (GeneralAllocationRow.employee_id row) with eid.
      apply String.eqb_refl.
    + unfold generalVisible, inRange. unfold windowActive in Hw'.
      apply negb_false_iff in Hw'. now rewrite Hw'.
Qed.

Lemma positive_allocation_listed_witness :
  exists g,
    In g (byEmployee codeUnitCompare digitsDayjs utcStartOfDay utcEndOfDay
            (fst (load codeUnitCompare idleState
                    (Fulfilled
                       (Responses.mk None None None (Some scenario) None)))))
    /\ Group.employee_id g = "H1"%string.
Proof.
  destruct (positive_allocation_listed codeUnitCompare digitsDayjs
              utcStartOfDay utcEndOfDay idleState
              (Responses.mk None None None (Some scenario) None)
              "H1__X" scenarioAllocation eq_refl eq_refl eq_refl eq_refl)
    as (g & Hg & Hid & _).
  exists g. split; [exact Hg | exact Hid].
Defined.

(** ** The last issue dates of the restricted log *)

Section RestrictedLog.
Variable cmp : string -> string -> Z.

Lemma lastIssue_step_serial (acc : Js.Map Js.number string * Js.Map string string)
    (t : RestrictedTxRow.t) (n : Js.number) :
  Js.get Js.number_dec n (fst (lastIssue_step cmp acc t))
  = if rtxIsIssue t
       && (Js.isFinite (rtxSerialId t) && Js.gt (rtxSerialId t) (Js.Fin 0))
       && if Js.number_dec (rtxSerialId t) n then true else false
    then if isLater cmp (RestrictedTxRow.created_at t)
              (Js.get Js.number_dec n (fst acc))
         then Some (RestrictedTxRow.created_at t)
         else Js.get Js.number_dec n (fst acc)
    else Js.get Js.number_dec n (fst acc).
Proof.
  destruct acc as [bySerial byQtyKey]. unfold lastIssue_step, rtxIsIssue.
  fold (rtxSerialId t).
  destruct (Js.toUpperCase (RestrictedTxRow.action t) =? "ISSUE")%string;
    cbn [negb andb fst]; [|reflexivity].
  destruct (Js.isFinite (rtxSerialId t) && Js.gt (rtxSerialId t) (Js.Fin 0));
    cbn [andb]; [|reflexivity].
  destruct (Js.number_dec (rtxSerialId t) n) as [->|Hne].
  - destruct (isLater cmp (RestrictedTxRow.created_at t)
                (Js.get Js.number_dec n bySerial)); [|reflexivity].
    apply get_set_eq.
  - destruct (isLater cmp (RestrictedTxRow.created_at t)
                (Js.get Js.number_dec (rtxSerialId t) bySerial));
      [|reflexivity].
    apply get_set_ne. congruence.
Qed.

Lemma lastIssue_step_qty (acc : Js.Map Js.number string * Js.Map string string)
    (t : RestrictedTxRow.t) (key : string) :
  let employeeId := Js.trim (Js.or_empty (RestrictedTxRow.employee_id t)) in
  let itemCode := Js.trim (RestrictedTxRow.item_code t) in
  Js.get string_dec key (snd (lastIssue_step cmp acc t))
  = if rtxIsIssue t
       && (Js.truthy employeeId && Js.truthy itemCode
           && negb (Js.truthy_num (rtxSerialId t)))
       && (allocKey employeeId itemCode =? key)%string
    then if isLater cmp (RestrictedTxRow.created_at t)
              (Js.get string_dec key (snd acc))
         then Some (RestrictedTxRow.created_at t)
         else Js.get string_dec key (snd acc)
    else Js.get string_dec key (snd acc).
Proof.
  destruct acc as [bySerial byQtyKey]. unfold lastIssue_step, rtxIsIssue.
  fold (rtxSerialId t). cbv zeta.
  set (e := Js.trim (Js.or_empty (RestrictedTxRow.employee_id t))).
  set (i := Js.trim (RestrictedTxRow.item_code t)).
  destruct (Js.toUpperCase (RestrictedTxRow.action t) =? "ISSUE")%string;
    cbn [negb andb snd]; [|reflexivity].
  destruct (Js.truthy e && Js.truthy i && negb (Js.truthy_num (rtxSerialId t)));
    cbn [andb]; [|reflexivity].
  destruct (String.eqb_spec (allocKey e i) key) as [->|Hne].
  - destruct (isLater cmp (RestrictedTxRow.created_at t)
                (Js.get string_dec key byQtyKey)); [|reflexivity].
    apply get_set_eq.
  - destruct (isLater cmp (RestrictedTxRow.created_at t)
                (Js.get string_dec (allocKey e i) byQtyKey)); [|reflexivity].
    apply get_set_ne. congruence.
Qed.

Lemma restrictedLastIssue_serial (txs : list RestrictedTxRow.t)
    (acc : Js.Map Js.number string * Js.Map string string) (n : Js.number) :
  Js.get Js.number_dec n (fst (fold_left (lastIssue_step cmp) txs acc))
  = fold_left (fun s c => if isLater cmp c s then Some c else s)
      (map RestrictedTxRow.created_at (serialIssues n txs))
      (Js.get Js.number_dec n (fst acc)).
Proof.
  revert acc. induction txs as [|t txs IH]; intros acc; [reflexivity|].
  cbn [fold_left]. rewrite IH, lastIssue_step_serial.
  unfold serialIssues. cbn [filter].
  destruct (rtxIsIssue t
            && (Js.isFinite (rtxSerialId t) && Js.gt (rtxSerialId t) (Js.Fin 0))
            && (if Js.number_dec (rtxSerialId t) n then true else false));
    reflexivity.
Qed.

Lemma restrictedLastIssue_qty (txs : list RestrictedTxRow.t)
    (acc : Js.Map Js.number string * Js.Map string string) (key : string) :
  Js.get string_dec key (snd (fold_left (lastIssue_step cmp) txs acc))
  = fold_left (fun s c => if isLater cmp c s then Some c else s)
      (map RestrictedTxRow.created_at (qtyIssues key txs))
      (Js.get string_dec key (snd acc)).
Proof.
  revert acc. induction txs as [|t txs IH]; intros acc; [reflexivity|].
  cbn [fold_left]. rewrite IH.
  pose proof (lastIssue_step_qty acc t key) as E. cbv zeta in E. rewrite E.
  unfold qtyIssues. cbn [filter]. cbv zeta.
  match goal with |- context [if ?b then _ else _] => destruct b end;
    reflexivity.
Qed.

Hypothesis cmp_collation : Collation cmp.
Hypothesis cmp_emptyFirst : EmptyFirst cmp.

Lemma latestOf_spec (dates : list string) :
  match latestOf cmp dates with
  | None => dates = []
  | Some a => In a dates /\ forall c, In c dates -> cmp c a <= 0
  end.
Proof.
  unfold latestOf. induction dates as [|c dates IH] using rev_ind;
    [reflexivity|].
  rewrite fold_left_app. cbn [fold_left].
  destruct (fold_left (fun s c => if isLater cmp c s then Some c else s)
              dates None) as [a|].
  - destruct IH as (Ha & Hub). unfold isLater.
    destruct (Js.truthy a) eqn:Ht; cbn [negb orb].
    + destruct (Z.ltb_spec 0 (cmp c a)) as [Hgt|Hle].
      * split; [apply in_or_app; right; now left|].
        intros c0 Hin. apply in_app_or in Hin. destruct Hin as [Hin|[<-|[]]].
        -- destruct cmp_collation as [_ Htr].
           apply Htr with (b := a); [now apply Hub|].
           now apply collation_flip.
        -- rewrite collation_refl by assumption. lia.
      * split; [apply in_or_app; now left|].
        intros c0 Hin. apply in_app_or in Hin. destruct Hin as [Hin|[<-|[]]];
          [now apply Hub | exact Hle].
    + assert (Ea : a = EmptyString) by (destruct a; [reflexivity|discriminate]).
      subst a. split; [apply in_or_app; right; now left|].
      intros c0 Hin. apply in_app_or in Hin. destruct Hin as [Hin|[<-|[]]].
      * destruct cmp_collation as [_ Htr].
        apply Htr with (b := EmptyString); [now apply Hub|].
        apply cmp_emptyFirst.
      * rewrite collation_refl by assumption. lia.
  - subst dates. cbn [isLater app]. split; [now left|].
    intros c0 [<-|[]]. rewrite collation_refl by assumption. lia.
Qed.

End RestrictedLog.

(** For a collation that puts the empty string first, the date that
    [byEmployee] keeps for a serialized unit is the date of one of the
    ISSUE rows of the restricted log that name the unit, and no such row
    has a date above it; the date kept for a holder and item is the
    same among the ISSUE rows that name no unit and carry that holder
    and item.  Nothing is kept when there is no such row, and rows with
    another action count for nothing. *)
Theorem restricted_last_issue (cmp : string -> string -> Z)
    (txs : list RestrictedTxRow.t) :
  Collation cmp -> EmptyFirst cmp ->
  (forall n,
     match Js.get Js.number_dec n (fst (restrictedLastIssue cmp txs)) with
     | None => serialIssues n txs = []
     | Some a =>
         In a (map RestrictedTxRow.created_at (serialIssues n txs))
         /\ forall t, In t (serialIssues n txs) ->
                      cmp (RestrictedTxRow.created_at t) a <= 0
     end)
  /\ (forall key,
        match Js.get string_dec key (snd (restrictedLastIssue cmp txs)) with
        | None => qtyIssues key txs = []
        | Some a =>
            In a (map RestrictedTxRow.created_at (qtyIssues key txs))
            /\ forall t, In t (qtyIssues key txs) ->
                         cmp (RestrictedTxRow.created_at t) a <= 0
        end).
Proof.
  intros Hc He. split.
  - intros n. unfold restrictedLastIssue. rewrite restrictedLastIssue_serial.
    cbn [fst Js.get].
    pose proof (latestOf_spec cmp Hc He
                  (map RestrictedTxRow.created_at (serialIssues n txs))) as H.
    unfold latestOf in H.
    destruct (fold_left _ (map RestrictedTxRow.created_at (serialIssues n txs))
                None) as [a|].
    + destruct H as (Ha & Hub). split; [exact Ha|].
      intros t Ht. apply Hub. now apply in_map.
    + now apply map_eq_nil in H.
  - intros key. unfold restrictedLastIssue. rewrite restrictedLastIssue_qty.
    cbn [snd Js.get].
    pose proof (latestOf_spec cmp Hc He
                  (map RestrictedTxRow.created_at (qtyIssues key txs))) as H.
    unfold latestOf in H.
    destruct (fold_left _ (map RestrictedTxRow.created_at (qtyIssues key txs))
                None) as [a|].
    + destruct H as (Ha & Hub). split; [exact Ha|].
      intros t Ht. apply Hub. now apply in_map.
    + now apply map_eq_nil in H.
Qed.

Lemma restricted_last_issue_witness :
  Js.get Js.number_dec (Js.Fin 4)
    (fst (restrictedLastIssue codeUnitCompare [sampleRestrictedTx]))
  = Some "2024-03-01T08:00:00"%string
  /\ serialIssues (Js.Fin 5) [sampleRestrictedTx] = [].
Proof.
  split; [reflexivity|].
  exact (proj1 (restricted_last_issue codeUnitCompare [sampleRestrictedTx]
                  codeUnitCompare_collation codeUnitCompare_emptyFirst)
           (Js.Fin 5)).
Defined.

(** ** Pages of the collapse list *)

Lemma firstn_plus {A : Type} (a b : nat) (l : list A) :
  firstn (a + b) l = firstn a l ++ firstn b (skipn a l).
Proof.
  revert l. induction a as [|a IH]; intros l; [reflexivity|].
  destruct l as [|x l]; simpl; [now rewrite firstn_nil | now rewrite IH].
Qed.

Lemma firstn_capped {A : Type} (n : nat) (l : list A) :
  firstn (Nat.min n (List.length l)) l = firstn n l.
Proof.
  revert l. induction n as [|n IH]; intros [|x l]; simpl; try reflexivity.
  now rewrite IH.
Qed.

(** A page of at least number one is the [pageSize] items that follow
    the items of the pages before it. *)
Lemma page_firstn_skipn (items : list CollapseItem.t) (page pageSize : Z) :
  1 <= page -> 0 <= pageSize ->
  paginatedCollapseItems items page pageSize
  = firstn (Z.to_nat pageSize) (skipn (Z.to_nat ((page - 1) * pageSize)) items).
Proof.
  intros Hp Hs. unfold paginatedCollapseItems, JsExtra.slice.
  set (start := (page - 1) * pageSize).
  set (len := Z.of_nat (List.length items)).
  assert (H0 : 0 <= start) by (unfold start; nia).
  destruct (Z.ltb_spec start 0) as [?|_]; [lia|].
  destruct (Z.ltb_spec (start + pageSize) 0) as [?|_]; [lia|].
  destruct (Z_le_gt_dec start len) as [Hle|Hgt].
  - rewrite (Z.min_l start len) by lia.
    rewrite <- (firstn_capped (Z.to_nat pageSize)). f_equal.
    rewrite length_skipn. unfold len. lia.
  - rewrite (Z.min_r start len), (Z.min_r (start + pageSize) len) by lia.
    rewrite Z.sub_diag. cbn [Z.to_nat firstn].
    rewrite (skipn_all2 items (n := Z.to_nat start)) by (unfold len in Hgt; lia).
    now rewrite firstn_nil.
Qed.

(** A page never holds more than [pageSize] panels; a page that starts
    at or past the end of the list is empty, however long the list;
    and the pages from the first on, put end to end, give back the
    list, each panel on one page and in its place. *)
Theorem pages_tile (items : list CollapseItem.t) (pageSize : Z) (n : nat) :
  1 <= pageSize ->
  (forall page, 1 <= page ->
     Z.of_nat (List.length (paginatedCollapseItems items page pageSize))
     <= pageSize)
  /\ (forall page, 1 <= page ->
        Z.of_nat (List.length items) <= (page - 1) * pageSize ->
        paginatedCollapseItems items page pageSize = [])
  /\ List.concat
       (map (fun i => paginatedCollapseItems items (Z.of_nat i) pageSize)
          (seq 1 n))
     = firstn (n * Z.to_nat pageSize) items
  /\ (Z.of_nat (List.length items) <= Z.of_nat n * pageSize ->
      List.concat
        (map (fun i => paginatedCollapseItems items (Z.of_nat i) pageSize)
           (seq 1 n))
      = items).
Proof.
  intros Hs.
  assert (Htile : List.concat
                    (map (fun i => paginatedCollapseItems items (Z.of_nat i)
                                     pageSize) (seq 1 n))
                  = firstn (n * Z.to_nat pageSize) items).
  { induction n as [|n IH]; [reflexivity|].
    rewrite seq_S, map_app, concat_app, IH. cbn [map List.concat].
    rewrite app_nil_r, page_firstn_skipn by lia.
    replace (Z.to_nat ((Z.of_nat (1 + n) - 1) * pageSize))
      with (n * Z.to_nat pageSize)%nat by nia.
    replace (S n * Z.to_nat pageSize)%nat
      with (n * Z.to_nat pageSize + Z.to_nat pageSize)%nat by lia.
    now rewrite firstn_plus. }
  split; [|split; [|split]].
  - intros page Hp. rewrite page_firstn_skipn by lia.
    rewrite length_firstn. lia.
  - intros page Hp Hend. rewrite page_firstn_skipn by lia.
    rewrite skipn_all2 by nia. now rewrite firstn_nil.
  - exact Htile.
  - intros Hn. rewrite Htile. apply firstn_all2. nia.
Qed.

Lemma pages_tile_witness :
  List.concat
    (map
       (fun i =>
          paginatedCollapseItems
            (collapseItems
               (byEmployee codeUnitCompare digitsDayjs utcStartOfDay
                  utcEndOfDay rosterState) [])
            (Z.of_nat i) 3)
       (seq 1 2))
  = collapseItems
      (byEmployee codeUnitCompare digitsDayjs utcStartOfDay utcEndOfDay
         rosterState) [].
Proof.
  apply (pages_tile
           (collapseItems
              (byEmployee codeUnitCompare digitsDayjs utcStartOfDay
                 utcEndOfDay rosterState) []) 3 2); [lia|].
  vm_compute. discriminate.
Defined.

(** ** The per-holder PDF *)

Lemma find_by_key {A : Type} (f : A -> string) (l : list A) (g : A) :
  NoDup (map f l) -> In g l ->
  List.find (fun x => (f x =? f g)%string) l = Some g.
Proof.
  induction l as [|x l IH]; simpl; [tauto|].
  intros Hnd [->|Hin].
  - now rewrite String.eqb_refl.
  - inversion Hnd as [|? ? Hn Hnd']; subst.
    destruct (String.eqb_spec (f x) (f g)) as [E|_]; [|now apply IH].
    exfalso. apply Hn. rewrite E. now apply in_map.
Qed.

Lemma find_none_iff {A : Type} (p : A -> bool) (l : list A) :
  List.find p l = None <-> forall x, In x l -> p x = false.
Proof.
  split; [apply find_none|].
  induction l as [|x l IH]; simpl; [reflexivity|]. intros H.
  rewrite (H x (or_introl eq_refl)). apply IH. intros y Hy. apply H. now right.
Qed.

(** [exportEmployeePdf] ends in one of three ways.  With an id that is
    empty once trimmed nothing happens at all.  Otherwise the busy flag
    of the trimmed id is false at the end and no other flag changes;
    and either a document is saved and no message raised, which
    requires a listed holder with exactly the trimmed id and a PDF
    library that does not throw, or one message is raised and nothing
    saved, the message being "Employee not found" when no listed holder
    has the trimmed id. *)
Theorem export_outcomes (dayjs : string -> option Z)
    (dayjsFormat : Z -> string -> string)
    (numberToString : Js.number -> string) (byEmployee : list Group.t)
    (exportingByEmployee : Js.Map string bool) (logo : Settled string)
    (now savedAt : Z) (pdfThrows : option JsError.t) (employeeId : string) :
  let r := exportEmployeePdf dayjs dayjsFormat numberToString byEmployee exportingByEmployee
             logo now savedAt pdfThrows employeeId in
  let eid := Js.trim employeeId in
  (Js.truthy eid = false -> r = ExportResult.mk exportingByEmployee [] None)
  /\ (Js.truthy eid = true ->
      isExporting (ExportResult.exportingByEmployee r) eid = false
      /\ (forall k, k <> eid ->
            Js.get string_dec k (ExportResult.exportingByEmployee r)
            = Js.get string_dec k exportingByEmployee)
      /\ ((ExportResult.messages r = [] /\ ExportResult.saved r <> None)
          \/ (List.length (ExportResult.messages r) = 1%nat
              /\ ExportResult.saved r = None)))
  /\ (ExportResult.saved r <> None
      <-> Js.truthy eid = true
          /\ (exists g, In g byEmployee /\ Group.employee_id g = eid)
          /\ pdfThrows = None)
  /\ (Js.truthy eid = true ->
      (forall g, In g byEmployee -> Group.employee_id g <> eid) ->
      ExportResult.messages r = ["Employee not found"%string]).
Proof.
  cbv zeta. unfold exportEmployeePdf. rewrite or_empty_Some.
  set (eid := Js.trim employeeId). unfold JsExtra.find.
  destruct (Js.truthy eid) eqn:Ht; cbn [negb].
  - destruct (List.find (fun x => (Group.employee_id x =? eid)%string)
                byEmployee) as [g|] eqn:Hf.
    + apply find_some in Hf. destruct Hf as (Hin & He).
      apply String.eqb_eq in He.
      split; [discriminate|]. split; [|split].
      * intros _. split; [|split].
        -- destruct pdfThrows; cbn [ExportResult.exportingByEmployee];
             unfold isExporting; now rewrite get_set_eq.
        -- intros k Hk.
           destruct pdfThrows; cbn [ExportResult.exportingByEmployee];
             now rewrite !get_set_ne by exact Hk.
        -- destruct pdfThrows; cbn [ExportResult.messages ExportResult.saved];
             [right; now split | left; split; [reflexivity | discriminate]].
      * split.
        -- intros Hs. split; [reflexivity|]. split; [now exists g|].
           destruct pdfThrows; [|reflexivity]. now elim Hs.
        -- intros (_ & _ & ->). discriminate.
      * intros _ Hno. exfalso. now apply (Hno g).
    + split; [discriminate|]. split; [|split].
      * intros _. cbn [ExportResult.exportingByEmployee ExportResult.messages
                       ExportResult.saved].
        split; [unfold isExporting; now rewrite get_set_eq|].
        split; [intros k Hk; now rewrite !get_set_ne by exact Hk|].
        right. now split.
      * cbn [ExportResult.saved]. split; [intros H; now elim H|].
        intros (_ & (g & Hin & He) & _).
        rewrite find_none_iff in Hf. specialize (Hf g Hin).
        rewrite He, String.eqb_refl in Hf. discriminate.
      * intros _ _. reflexivity.
  - split; [reflexivity|]. split; [discriminate|]. split; [|discriminate].
    cbn [ExportResult.saved]. split; [intros H; now elim H|].
    intros (H & _). discriminate.
Qed.

Lemma section_rows {A : Type} (table : list A -> PdfTable.t) (rows : list A) :
  (forall l, List.length (PdfTable.body (table l)) = List.length l) ->
  list_sum (map (fun t => List.length (PdfTable.body t)) (section table rows))
  = List.length rows
  /\ Forall (fun t => PdfTable.body t <> []) (section table rows).
Proof.
  intros H. destruct rows as [|x rows]; [now split|].
  unfold list_sum. cbn [section map fold_right].
  rewrite H, Nat.add_0_r. split; [reflexivity|].
  constructor; [|constructor]. intros E. specialize (H (x :: rows)).
  rewrite E in H. discriminate.
Qed.

(** The PDF button of a listed holder whose id carries no white space
    at either end saves the document of that very holder, when the PDF
    library does not throw: no message, the tables of the non-empty
    sections in the order serial, quantity, general, no table without
    rows, and as many body rows in all as the item count of the
    panel. *)
Theorem export_of_listed_holder (cmp : string -> string -> Z)
    (dayjs : string -> option Z) (startOfDay endOfDay : Z -> Z)
    (dayjsFormat : Z -> string -> string)
    (numberToString : Js.number -> string) (st : PageState.t)
    (exportingByEmployee : Js.Map string bool) (logo : Settled string)
    (now savedAt : Z) (g : Group.t) :
  In g (byEmployee cmp dayjs startOfDay endOfDay st) ->
  Js.trim (Group.employee_id g) = Group.employee_id g ->
  Js.truthy (Group.employee_id g) = true ->
  let r := exportEmployeePdf dayjs dayjsFormat numberToString
             (byEmployee cmp dayjs startOfDay endOfDay st)
             exportingByEmployee logo now savedAt None (Group.employee_id g) in
  ExportResult.messages r = []
  /\ ExportResult.saved r = Some (holderDoc dayjs dayjsFormat numberToString logo now savedAt g)
  /\ list_sum
       (map (fun t => List.length (PdfTable.body t))
          (PdfDoc.tables (holderDoc dayjs dayjsFormat numberToString logo now savedAt g)))
     = Group._totalCount g
  /\ Forall (fun t => PdfTable.body t <> [])
       (PdfDoc.tables (holderDoc dayjs dayjsFormat numberToString logo now savedAt g)).
Proof.
  intros Hin Htrim Ht. cbv zeta. unfold exportEmployeePdf.
  rewrite or_empty_Some, Htrim, Ht. cbn [negb]. unfold JsExtra.find.
  rewrite (find_by_key Group.employee_id _ g
             (byEmployee_ids_NoDup cmp dayjs startOfDay endOfDay st) Hin).
  cbn [ExportResult.messages ExportResult.saved].
  split; [reflexivity|]. split; [reflexivity|].
  cbn [holderDoc PdfDoc.tables].
  pose proof (section_rows (serialTable dayjs dayjsFormat)
                (RestrictedIssuedInventory.serial_items (Group.restricted g))
                (fun l => length_map _ l)) as (S1 & F1).
  pose proof (section_rows (qtyTable numberToString)
                (RestrictedIssuedInventory.quantity_items (Group.restricted g))
                (fun l => length_map _ l)) as (S2 & F2).
  pose proof (section_rows (generalTable dayjs dayjsFormat numberToString) (Group.general g)
                (fun l => length_map _ l)) as (S3 & F3).
  split.
  - rewrite !map_app, !list_sum_app, S1, S2, S3.
    apply byEmployee_In in Hin. destruct Hin as (Hg & _).
    unfold groups in Hg. apply in_map_iff in Hg. destruct Hg as (eid & <- & _).
    rewrite toGroup_total. lia.
  - rewrite !Forall_app. now repeat split.
Qed.

Lemma export_of_listed_holder_witness :
  ExportResult.messages
    (exportEmployeePdf digitsDayjs (fun _ t => t) (fun _ => "1"%string)
       (byEmployee codeUnitCompare digitsDayjs utcStartOfDay utcEndOfDay
          mixedState)
       [] (Rejected (JsError.mk None)) 0 0 None "A")
  = [].
Proof.
  apply (export_of_listed_holder codeUnitCompare digitsDayjs utcStartOfDay
           utcEndOfDay (fun _ t => t) (fun _ => "1"%string) mixedState []
           (Rejected (JsError.mk None)) 0 0
           (Group.mk "A" "Aslam" "1" (RestrictedIssuedInventory.mk "A" [] [])
              [GeneralAllocationRow.mk "A__X" "A" "Aslam" "X" "Boots" "pair"
                 (Js.Fin 1) "-" "2024-01-10"] 1)
           (or_introl eq_refl) eq_refl eq_refl).
Defined.

(** ** Encoded components and links *)

Lemma hexDigit_code (k : nat) :
  (k < 16)%nat ->
  nat_of_ascii (JsString.hexDigit k)
  = if (k <? 10)%nat then (48 + k)%nat else (55 + k)%nat.
Proof.
  intros Hk. unfold JsString.hexDigit.
  destruct (k <? 10)%nat; apply nat_ascii_embedding; lia.
Qed.

Lemma hexDigit_unreserved (k : nat) :
  (k < 16)%nat -> JsString.unreserved (JsString.hexDigit k) = true.
Proof.
  intros Hk. do 16 (destruct k as [|k]; [reflexivity|]). lia.
Qed.

Lemma hexDigit_inj (a b : nat) :
  (a < 16)%nat -> (b < 16)%nat ->
  JsString.hexDigit a = JsString.hexDigit b -> a = b.
Proof.
  intros Ha Hb E. apply (f_equal nat_of_ascii) in E.
  rewrite !hexDigit_code in E by assumption.
  destruct (Nat.ltb_spec a 10), (Nat.ltb_spec b 10); lia.
Qed.

Lemma ascii_code_lt (c : ascii) : (nat_of_ascii c < 256)%nat.
Proof. apply nat_ascii_bounded. Qed.

Lemma encode_escape (c : ascii) (r : string) :
  JsString.unreserved c = false ->
  exists h l,
    JsString.encodeURIComponent (String c r)
    = String "%" (String (JsString.hexDigit h)
        (String (JsString.hexDigit l) (JsString.encodeURIComponent r)))
    /\ (h < 16)%nat /\ (l < 16)%nat /\ nat_of_ascii c = (16 * h + l)%nat.
Proof.
  intros Hc. pose proof (ascii_code_lt c) as Hlt.
  exists (nat_of_ascii c / 16)%nat, (nat_of_ascii c mod 16)%nat.
  split; [cbn [JsString.encodeURIComponent]; now rewrite Hc|].
  split; [apply Nat.Div0.div_lt_upper_bound; lia|].
  split; [apply Nat.mod_upper_bound; lia|].
  apply Nat.div_mod_eq.
Qed.

Lemma encode_keep (c : ascii) (r : string) :
  JsString.unreserved c = true ->
  JsString.encodeURIComponent (String c r)
  = String c (JsString.encodeURIComponent r).
Proof. intros Hc. cbn [JsString.encodeURIComponent]. now rewrite Hc. Qed.

Lemma encode_chars (s : string) :
  Forall (fun c => uriSafe c = true)
    (list_ascii_of_string (JsString.encodeURIComponent s)).
Proof.
  induction s as [|c s IH]; [constructor|].
  destruct (JsString.unreserved c) eqn:Hc.
  - rewrite encode_keep by exact Hc. cbn [list_ascii_of_string].
    constructor; [unfold uriSafe; now rewrite Hc | exact IH].
  - destruct (encode_escape c s Hc) as (h & l & -> & Hh & Hl & _).
    cbn [list_ascii_of_string].
    constructor; [reflexivity|].
    constructor; [unfold uriSafe; now rewrite hexDigit_unreserved|].
    constructor; [unfold uriSafe; now rewrite hexDigit_unreserved|].
    exact IH.
Qed.

Lemma encode_inj (a b : string) :
  JsString.encodeURIComponent a = JsString.encodeURIComponent b -> a = b.
Proof.
  revert b. induction a as [|c a IH]; intros [|d b].
  - reflexivity.
  - destruct (JsString.unreserved d) eqn:Hd.
    + rewrite encode_keep by exact Hd. discriminate.
    + destruct (encode_escape d b Hd) as (h & l & -> & _). discriminate.
  - destruct (JsString.unreserved c) eqn:Hc.
    + rewrite encode_keep by exact Hc. discriminate.
    + destruct (encode_escape c a Hc) as (h & l & -> & _). discriminate.
  - destruct (JsString.unreserved c) eqn:Hc, (JsString.unreserved d) eqn:Hd.
    + rewrite !encode_keep by assumption.
      intros [= -> E]. f_equal. now apply IH.
    + rewrite encode_keep by assumption.
      destruct (encode_escape d b Hd) as (h & l & -> & _).
      intros [= -> _]. discriminate Hc.
    + rewrite (encode_keep d) by assumption.
      destruct (encode_escape c a Hc) as (h & l & -> & _).
      intros [= <- _]. discriminate Hd.
    + destruct (encode_escape c a Hc) as (h & l & -> & Hh & Hl & Ec).
      destruct (encode_escape d b Hd) as (h' & l' & -> & Hh' & Hl' & Ed).
      intros [= E1 E2 E].
      apply hexDigit_inj in E1; [|assumption|assumption].
      apply hexDigit_inj in E2; [|assumption|assumption].
      f_equal; [|now apply IH].
      rewrite <- (ascii_nat_embedding c), <- (ascii_nat_embedding d).
      f_equal. lia.
Qed.

Lemma append_inj_l (p a b : string) : (p ++ a = p ++ b)%string -> a = b.
Proof.
  induction p as [|c p IH]; simpl; [tauto|]. intros [= E]. now apply IH.
Qed.

Lemma map_inj_NoDup {A B} (f : A -> B) (l : list A) :
  (forall a b, f a = f b -> a = b) -> NoDup l -> NoDup (map f l).
Proof.
  intros Hf Hl. induction Hl as [|x l Hx Hl IH]; simpl; constructor.
  - rewrite in_map_iff. intros (y & E & Hy). apply Hf in E. now subst.
  - exact IH.
Qed.

(** The Open buttons lead where they should: the id of the holder is
    one path segment of the target, with no slash, question mark or
    hash in it whatever the id holds, and no two panels of the view
    have the same target. *)
Theorem panel_links (cmp : string -> string -> Z)
    (dayjs : string -> option Z) (startOfDay endOfDay : Z -> Z)
    (st : PageState.t) (exportingByEmployee : Js.Map string bool) :
  NoDup
    (map (fun it => restrictedLink (CollapseItem.key it))
       (collapseItems (byEmployee cmp dayjs startOfDay endOfDay st)
          exportingByEmployee))
  /\ (forall id c,
        In c (list_ascii_of_string (JsString.encodeURIComponent id)) ->
        c <> "/"%char /\ c <> "?"%char /\ c <> "#"%char /\ c <> "&"%char
        /\ c <> " "%char)
  /\ (forall a b, restrictedLink a = restrictedLink b -> a = b)
  /\ (forall r r',
        generalLink r = generalLink r' ->
        GeneralAllocationRow.employee_id r = GeneralAllocationRow.employee_id r').
Proof.
  assert (Hinj : forall a b, restrictedLink a = restrictedLink b -> a = b).
  { intros a b E. unfold restrictedLink in E.
    apply append_inj_l in E. now apply encode_inj. }
  split; [|split; [|split]].
  - rewrite <- (map_map CollapseItem.key restrictedLink).
    apply map_inj_NoDup; [exact Hinj|].
    apply collapse_keys_unique_aux.
  - intros id c Hin.
    pose proof (encode_chars id) as H. rewrite Forall_forall in H.
    specialize (H c Hin).
    repeat split; intros ->; discriminate H.
  - exact Hinj.
  - intros r r' E. unfold generalLink in E.
    apply append_inj_l in E. now apply encode_inj.
Qed.

(** ** Requests for server-made files *)



Lemma exportMonthPdf_url (API_BASE_URL : string)
    (fetch : string -> list (string * string) -> Settled Response.t)
    (path filePrefix month : string) :
  FileExport.url (exportMonthPdf API_BASE_URL fetch path filePrefix month)
  = (API_BASE_URL ++ path ++ JsString.encodeURIComponent month)%string
  /\ FileExport.headers (exportMonthPdf API_BASE_URL fetch path filePrefix month)
     = [].
Proof.
  unfold exportMonthPdf.
  destruct (fetch _ _) as [res|e]; [|now split].
  destruct (Response.ok res); cbn [negb]; [|now split].
  destruct (Response.blob res); now split.
Qed.

Lemma exportMonthPdf_outcome (API_BASE_URL : string)
    (fetch : string -> list (string * string) -> Settled Response.t)
    (path filePrefix month : string) :
  let r := exportMonthPdf API_BASE_URL fetch path filePrefix month in
  ((FileExport.download r = None /\ exists m, FileExport.messages r = [m])
   \/ (FileExport.messages r = []
       /\ exists res b,
            fetch (FileExport.url r) [] = Fulfilled res
            /\ Response.ok res = true
            /\ Response.blob res = Fulfilled b
            /\ FileExport.download r
               = Some (Download.mk (filePrefix ++ month ++ ".pdf")%string b)))
  /\ (forall res b,
        fetch (FileExport.url r) [] = Fulfilled res ->
        Response.ok res = true ->
        Response.blob res = Fulfilled b ->
        FileExport.download r
        = Some (Download.mk (filePrefix ++ month ++ ".pdf")%string b)
        /\ FileExport.messages r = [])
  /\ (forall res,
        fetch (FileExport.url r) [] = Fulfilled res ->
        Response.ok res = false ->
        FileExport.messages r = [exportFailed (Response.status res)]).
Proof.
  intros r.
  pose proof (exportMonthPdf_url API_BASE_URL fetch path filePrefix month)
    as [Hu _].
  fold r in Hu. rewrite Hu. subst r. unfold exportMonthPdf.
  destruct (fetch _ _) as [res|e] eqn:Hf.
  - destruct (Response.ok res) eqn:Hok; cbn [negb].
    + destruct (Response.blob res) as [b|e] eqn:Hb;
        cbn [FileExport.download FileExport.messages].
      * split; [right; split; [reflexivity|]; now exists res, b|].
        split.
        -- intros res' b' [= <-] _ Hb'. rewrite Hb in Hb'.
           injection Hb' as <-. now split.
        -- intros res' [= <-] Hok'. congruence.
      * split; [left; split; [reflexivity|]; now eexists|].
        split.
        -- intros res' b' [= <-] _ Hb'. rewrite Hb in Hb'. discriminate Hb'.
        -- intros res' [= <-] Hok'. congruence.
    + cbn [FileExport.download FileExport.messages].
      split; [left; split; [reflexivity|]; now eexists|].
      split.
      -- intros res' b' [= <-] Hok'. congruence.
      -- now intros res' [= <-] _.
  - cbn [FileExport.download FileExport.messages].
    split; [left; split; [reflexivity|]; now eexists|].
    split.
    + intros res' b' Hres'. discriminate Hres'.
    + intros res' Hres'. discriminate Hres'.
Qed.


(** The two monthly exports of the dashboard send no header at all, and
    end with exactly one of a file and a message.  The file is named
    after the month as typed, while the address carries the month
    encoded, so that two months never share an address and the two
    exports never ask for the same one; a refused request is reported
    by its status alone, whatever the body of the answer says. *)
Theorem month_export_outcomes (API_BASE_URL : string)
    (fetch : string -> list (string * string) -> Settled Response.t)
    (month : string) :
  Forall
    (fun '(r, filePrefix) =>
       FileExport.headers r = []
       /\ ((FileExport.download r = None
            /\ exists m, FileExport.messages r = [m])
           \/ (FileExport.messages r = []
               /\ exists res b,
                    fetch (FileExport.url r) [] = Fulfilled res
                    /\ Response.ok res = true
                    /\ Response.blob res = Fulfilled b
                    /\ FileExport.download r
                       = Some (Download.mk (filePrefix ++ month ++ ".pdf")%string b)))
       /\ (forall res b,
             fetch (FileExport.url r) [] = Fulfilled res ->
             Response.ok res = true ->
             Response.blob res = Fulfilled b ->
             FileExport.download r
             = Some (Download.mk (filePrefix ++ month ++ ".pdf")%string b)
             /\ FileExport.messages r = [])
       /\ (forall res,
             fetch (FileExport.url r) [] = Fulfilled res ->
             Response.ok res = false ->
             FileExport.messages r = [exportFailed (Response.status res)]))
    [(exportAccountsMonthPdf API_BASE_URL fetch month, "accounts_export_"%string);
     (exportPayrollPdf API_BASE_URL fetch month, "payroll_"%string)]
  /\ FileExport.url (exportAccountsMonthPdf API_BASE_URL fetch month)
     <> FileExport.url (exportPayrollPdf API_BASE_URL fetch month)
  /\ (forall month',
        FileExport.url (exportAccountsMonthPdf API_BASE_URL fetch month)
        = FileExport.url (exportAccountsMonthPdf API_BASE_URL fetch month') ->
        month = month')
  /\ (forall month',
        FileExport.url (exportPayrollPdf API_BASE_URL fetch month)
        = FileExport.url (exportPayrollPdf API_BASE_URL fetch month') ->
        month = month').
Proof.
  unfold exportAccountsMonthPdf, exportPayrollPdf.
  split; [|split; [|split]].
  - constructor; [|constructor; [|constructor]];
      (split; [apply exportMonthPdf_url
              |apply (exportMonthPdf_outcome API_BASE_URL fetch)]).
  - rewrite !(proj1 (exportMonthPdf_url _ _ _ _ _)).
    intros E. apply append_inj_l in E. discriminate E.
  - intros month'. rewrite !(proj1 (exportMonthPdf_url _ _ _ _ _)).
    intros E. apply append_inj_l, append_inj_l in E. now apply encode_inj.
  - intros month'. rewrite !(proj1 (exportMonthPdf_url _ _ _ _ _)).
    intros E. apply append_inj_l, append_inj_l in E. now apply encode_inj.
Qed.

(** ** The dashboard: receivables trend *)

Import DashboardHome.

Lemma find_month_spec (k : string) (l : list TrendPoint.t) :
  match List.find (fun r => (TrendPoint.month r =? k)%string) (rev l) with
  | Some r => In r l /\ TrendPoint.month r = k
  | None => ~ In k (map TrendPoint.month l)
  end.
Proof.
  destruct (List.find _ (rev l)) as [r|] eqn:E.
  - apply find_some in E. destruct E as [Hin E].
    apply in_rev in Hin. now apply String.eqb_eq in E.
  - intros Hin. apply in_map_iff in Hin. destruct Hin as (r & Hr & Hin).
    apply in_rev in Hin. apply (find_none _ _ E r) in Hin.
    apply String.eqb_neq in Hin. contradiction.
Qed.

Lemma pending_fold_get (k : string) (l : list TrendPoint.t) :
  Js.get string_dec k (fold_left pendingStep l [])
  = if in_dec string_dec k (map TrendPoint.month l)
    then Some (TrendRow.mk k (lastValue k l) (Js.Fin 0))
    else None.
Proof.
  unfold pendingStep.
  rewrite (get_fold_set TrendPoint.month
             (fun r => TrendRow.mk (TrendPoint.month r)
                         (Js.Number_or0 (TrendPoint.value r)) (Js.Fin 0))).
  pose proof (find_month_spec k l) as H. unfold lastValue.
  destruct (List.find _ (rev l)) as [r|].
  - destruct H as [Hin <-].
    destruct (in_dec _ _ _) as [_|n]; [reflexivity|].
    exfalso. apply n, in_map, Hin.
  - destruct (in_dec _ _ _) as [i|_]; [contradiction|reflexivity].
Qed.

Lemma clearedStep_get (k : string) (r : TrendPoint.t)
    (m : Js.Map string TrendRow.t) :
  Js.get string_dec k (clearedStep m r)
  = if (TrendPoint.month r =? k)%string
    then Some (TrendRow.mk
                 (match Js.get string_dec k m with
                  | Some e => TrendRow.month e
                  | None => k
                  end)
                 (match Js.get string_dec k m with
                  | Some e => TrendRow.pending e
                  | None => Js.Fin 0
                  end)
                 (Js.Number_or0 (TrendPoint.value r)))
    else Js.get string_dec k m.
Proof.
  unfold clearedStep.
  destruct (String.eqb_spec (TrendPoint.month r) k) as [<-|Hne].
  - destruct (Js.get string_dec (TrendPoint.month r) m);
      now rewrite get_set_eq.
  - destruct (Js.get string_dec (TrendPoint.month r) m);
      rewrite get_set_ne by congruence; reflexivity.
Qed.

Lemma cleared_fold_get (k : string) (l : list TrendPoint.t)
    (m : Js.Map string TrendRow.t) :
  (forall v, Js.get string_dec k m = Some v -> TrendRow.month v = k) ->
  Js.get string_dec k (fold_left clearedStep l m)
  = if in_dec string_dec k (map TrendPoint.month l)
    then Some (TrendRow.mk k
                 (match Js.get string_dec k m with
                  | Some e => TrendRow.pending e
                  | None => Js.Fin 0
                  end)
                 (lastValue k l))
    else Js.get string_dec k m.
Proof.
  intros Hwf. induction l as [|r l IH] using rev_ind.
  - reflexivity.
  - rewrite fold_left_app. cbn [fold_left]. rewrite clearedStep_get, IH.
    unfold lastValue. rewrite map_app, rev_unit. cbn [List.find map].
    destruct (String.eqb_spec (TrendPoint.month r) k) as [E|Hne].
    + destruct (in_dec _ _ (_ ++ _)) as [_|n];
        [|exfalso; apply n, in_or_app; right; now left].
      destruct (in_dec _ _ (map _ l)) as [_|_]; cbn [TrendRow.month
        TrendRow.pending]; [reflexivity|].
      destruct (Js.get string_dec k m) as [e|] eqn:Eg; [|reflexivity].
      now rewrite (Hwf e eq_refl).
    + destruct (in_dec _ _ (map _ l)) as [i|n];
        destruct (in_dec _ _ (_ ++ _)) as [i'|n']; try reflexivity.
      * exfalso. apply n', in_or_app. now left.
      * exfalso. apply in_app_or in i'. destruct i' as [i'|[E|[]]];
          [contradiction|congruence].
Qed.

Lemma pendingStep_keys (l : list TrendPoint.t) (m : Js.Map string TrendRow.t) :
  NoDup (Js.keys m) -> NoDup (Js.keys (fold_left pendingStep l m)).
Proof.
  revert m. induction l as [|r l IH]; intros m Hm; [exact Hm|].
  cbn [fold_left]. apply IH. unfold pendingStep. now apply keys_set_NoDup.
Qed.

Lemma clearedStep_keys (l : list TrendPoint.t) (m : Js.Map string TrendRow.t) :
  NoDup (Js.keys m) -> NoDup (Js.keys (fold_left clearedStep l m)).
Proof.
  revert m. induction l as [|r l IH]; intros m Hm; [exact Hm|].
  cbn [fold_left]. apply IH. unfold clearedStep.
  destruct (Js.get _ _ _); now apply keys_set_NoDup.
Qed.

(** The map of [receivablesTrend] under one month. *)
Lemma trendByMonth_get (st : State.t) (k : string) :
  Js.get string_dec k (trendByMonth st)
  = if in_dec string_dec k
         (map TrendPoint.month (trendOf (State.pendingSummary st))
          ++ map TrendPoint.month (trendOf (State.clearedSummary st)))
    then Some (TrendRow.mk k
                 (lastValue k (trendOf (State.pendingSummary st)))
                 (lastValue k (trendOf (State.clearedSummary st))))
    else None.
Proof.
  unfold trendByMonth.
  set (pend := trendOf (State.pendingSummary st)).
  set (clr := trendOf (State.clearedSummary st)).
  rewrite cleared_fold_get.
  2:{ intros v. rewrite pending_fold_get.
      destruct (in_dec _ _ _); [now intros [= <-]|discriminate]. }
  rewrite pending_fold_get.
  assert (Hnone : forall l, ~ In k (map TrendPoint.month l) ->
                            lastValue k l = Js.Fin 0).
  { intros l Hn. unfold lastValue. pose proof (find_month_spec k l) as H.
    destruct (List.find _ (rev l)) as [r|]; [|reflexivity].
    destruct H as [Hin <-]. exfalso. apply Hn, in_map, Hin. }
  destruct (in_dec _ _ (map _ clr)) as [ic|nc];
    destruct (in_dec _ _ (map _ pend)) as [ip|np];
    destruct (in_dec _ _ (_ ++ _)) as [i|n];
    cbn [TrendRow.pending];
    try (exfalso; apply n, in_or_app; tauto);
    try (exfalso; apply in_app_or in i; tauto);
    rewrite ?(Hnone _ nc), ?(Hnone _ np); reflexivity.
Qed.

Lemma trendByMonth_keys (st : State.t) : NoDup (Js.keys (trendByMonth st)).
Proof. apply clearedStep_keys, pendingStep_keys. constructor. Qed.

Lemma trendByMonth_entry (st : State.t) (k : string) (v : TrendRow.t) :
  In (k, v) (trendByMonth st) ->
  TrendRow.month v = k
  /\ TrendRow.pending v = lastValue k (trendOf (State.pendingSummary st))
  /\ TrendRow.cleared v = lastValue k (trendOf (State.clearedSummary st)).
Proof.
  intros Hin. apply (In_get string_dec) in Hin; [|apply trendByMonth_keys].
  rewrite trendByMonth_get in Hin.
  destruct (in_dec _ _ _); [|discriminate]. injection Hin as <-. now repeat split.
Qed.

Lemma trendByMonth_months (st : State.t) :
  map TrendRow.month (Js.values (trendByMonth st)) = Js.keys (trendByMonth st).
Proof.
  unfold Js.values, Js.keys. rewrite map_map. apply map_ext_in.
  intros [k v] Hin. now apply trendByMonth_entry in Hin.
Qed.

(** The chart of receivables has one point per month that either trend
    names, and no month twice.  The pending figure of a month is the
    value of the last point of the pending trend for that month, and
    zero when that trend does not name the month; the cleared figure is
    the same for the cleared trend: a month that a trend names twice is
    drawn once, with the later value.  For a collation the points are
    in ascending order of month. *)
Theorem trend_rows (cmp : string -> string -> Z) (st : State.t) :
  Collation cmp ->
  let pend := trendOf (State.pendingSummary st) in
  let clr := trendOf (State.clearedSummary st) in
  let rows := receivablesTrend cmp st in
  NoDup (map TrendRow.month rows)
  /\ (forall m,
        In m (map TrendRow.month rows)
        <-> In m (map TrendPoint.month pend)
            \/ In m (map TrendPoint.month clr))
  /\ (forall row,
        In row rows ->
        TrendRow.pending row = lastValue (TrendRow.month row) pend
        /\ TrendRow.cleared row = lastValue (TrendRow.month row) clr)
  /\ StronglySorted
       (fun a b => cmp (TrendRow.month a) (TrendRow.month b) <= 0) rows.
Proof.
  intros Hc pend clr rows.
  set (by_month := fun a b => cmp (TrendRow.month a) (TrendRow.month b)).
  assert (Hperm : Permutation (Js.values (trendByMonth st)) rows)
    by apply sort_perm.
  assert (Hmonths : Permutation (Js.keys (trendByMonth st))
                      (map TrendRow.month rows)).
  { rewrite <- trendByMonth_months. now apply Permutation_map. }
  split; [|split; [|split]].
  - apply (Permutation_NoDup Hmonths), trendByMonth_keys.
  - intros m. rewrite <- in_app_iff. split.
    + intros Hin. apply (Permutation_in _ (Permutation_sym Hmonths)) in Hin.
      destruct (Js.get string_dec m (trendByMonth st)) as [v|] eqn:Eg.
      * rewrite trendByMonth_get in Eg.
        destruct (in_dec _ _ _) as [i|_]; [exact i|discriminate].
      * now apply get_None_keys in Eg.
    + intros Hin. apply (Permutation_in _ Hmonths).
      destruct (Js.get string_dec m (trendByMonth st)) as [v|] eqn:Eg.
      * apply (get_In string_dec) in Eg.
        apply (in_map fst) in Eg. exact Eg.
      * rewrite trendByMonth_get in Eg.
        destruct (in_dec _ _ _) as [_|n]; [discriminate|contradiction].
  - intros row Hin. apply (Permutation_in _ (Permutation_sym Hperm)) in Hin.
    unfold Js.values in Hin. apply in_map_iff in Hin.
    destruct Hin as ([k v] & <- & Hin). cbn [snd].
    apply trendByMonth_entry in Hin. destruct Hin as (-> & Hp & Hcl).
    now split.
  - apply (sort_strongly_sorted by_month).
    + intros a b. apply collation_total, Hc.
    + intros a b c. apply (collation_trans cmp Hc).
Qed.

Lemma trend_rows_witness :
  receivablesTrend codeUnitCompare sampleDashboard
  = [TrendRow.mk "2024-01" (Js.Fin 7) (Js.Fin 4);
     TrendRow.mk "2024-02" (Js.Fin 9) (Js.Fin 0);
     TrendRow.mk "2024-03" (Js.Fin 0) (Js.Fin 0)]
  /\ NoDup
       (map TrendRow.month (receivablesTrend codeUnitCompare sampleDashboard)).
Proof.
  split; [reflexivity|].
  exact (proj1 (trend_rows codeUnitCompare sampleDashboard
                  codeUnitCompare_collation)).
Defined.

(** ** The dashboard: payroll figures and pie *)

Lemma numOr0_gt (x : Js.number) :
  Js.gt (numOr0 x) (Js.Fin 0) = Js.gt x (Js.Fin 0).
Proof. destruct x as [s|s| |s m e]; reflexivity. Qed.

Lemma numOr0_positive (x : Js.number) :
  Js.gt x (Js.Fin 0) = true ->
  numOr0 x = x /\ Js.add (Js.Fin 0) x = x.
Proof.
  destruct x as [s|s| |s m e]; try destruct s; try discriminate;
    intros _; split; reflexivity.
Qed.

(** The payroll pie shows the figures that are above zero and no
    others: the Due slice is there exactly when [payrollDue], the sum
    of the net pay of the rows that are not paid, is above zero, and
    carries that sum; the Paid slice likewise for [payrollPaid]; Due
    comes first.  The total in the middle is the sum of the figures
    shown: a figure that is zero, negative or not a number is left out
    of the slices and of the total alike. *)
Theorem pie_shows_positive_figures (st : State.t) :
  let rows := reportRows (State.payrollReport st) in
  let due := totalNetPay (filter (fun r => negb (isPaid r)) rows) in
  let paid := totalNetPay (filter isPaid rows) in
  let data := payrollPieData (kpis st) in
  data
  = (if Js.gt due (Js.Fin 0) then [Slice.mk "Due" due] else [])
    ++ (if Js.gt paid (Js.Fin 0) then [Slice.mk "Paid" paid] else [])
  /\ Forall (fun x => Js.gt (Slice.value x) (Js.Fin 0) = true) data
  /\ pieTotal data
     = match Js.gt due (Js.Fin 0), Js.gt paid (Js.Fin 0) with
       | true, true => Js.add due paid
       | true, false => due
       | false, true => paid
       | false, false => Js.Fin 0
       end.
Proof.
  intros rows due paid data.
  assert (Hdata : data
                  = (if Js.gt due (Js.Fin 0) then [Slice.mk "Due" due] else [])
                    ++ (if Js.gt paid (Js.Fin 0)
                        then [Slice.mk "Paid" paid] else [])).
  { subst data. unfold payrollPieData. cbn [kpis Kpis.payrollDue Kpis.payrollPaid].
    rewrite payrollDue_sum, payrollPaid_sum. fold rows. fold due. fold paid.
    cbn [filter Slice.value]. rewrite !numOr0_gt.
    destruct (Js.gt due (Js.Fin 0)) eqn:Hd, (Js.gt paid (Js.Fin 0)) eqn:Hp;
      cbn [app];
      rewrite ?(proj1 (numOr0_positive due Hd)),
              ?(proj1 (numOr0_positive paid Hp)); reflexivity. }
  split; [exact Hdata|]. rewrite Hdata. unfold pieTotal.
  destruct (Js.gt due (Js.Fin 0)) eqn:Hd, (Js.gt paid (Js.Fin 0)) eqn:Hp;
    cbn [app fold_left Slice.value];
    rewrite ?(proj1 (numOr0_positive due Hd)),
            ?(proj1 (numOr0_positive paid Hp)),
            ?(proj2 (numOr0_positive due Hd)),
            ?(proj2 (numOr0_positive paid Hp));
    (split; [repeat constructor; assumption | reflexivity]).
Qed.

(** With 0.3 due and 0.2 and 0.1 paid, the middle of the pie reads
    0.6000000000000001. *)
Example pie_of_decimals :
  pieTotal
    (payrollPieData
       (kpis (State.mk false None None (Some decimalPayroll) None noCounts)))
  = S754_finite false 5404319552844596 (-53).
Proof. reflexivity. Qed.

(** ** The dashboard: [load] *)

(** Follows the array of [Promise.all] from its first request on, one
    case for the answer and one for the failure of each. *)
Ltac settle_requests :=
  repeat match goal with
         | |- context [andThen ?p ?k] =>
             is_var p; destruct p; cbn [andThen guarded]
         end.

Ltac count_bounds :=
  repeat match goal with
         | x : option nat |- _ => destruct x
         end;
  cbn [lengthOr0]; lia.

(** The dashboard load fails exactly when a request that is sent fails:
    the employee count always, the others under their permission.  One
    failure blanks the whole page, the figures of the requests that
    were answered too: one message, every summary gone, every count
    and figure zero, no point in the trend and no slice in the pie.  A
    failing request that the permissions keep from being sent does no
    harm. *)
Theorem dashboard_load_failure (has : string -> bool) (st : State.t)
    (api : Answers.t) (cmp : string -> string -> Z) :
  let out := DashboardHome.load has st api in
  let failed :=
    rejected (Answers.empList api)
    || has "clients:view"%string
       && (rejected (Answers.cleared api) || rejected (Answers.pending api)
           || rejected (Answers.clients api))
    || has "payroll:view"%string && rejected (Answers.payroll api)
    || has "fleet:view"%string
       && (rejected (Answers.assignEff api) || rejected (Answers.vehicles api))
    || has "inventory:view"%string
       && (rejected (Answers.generalItems api)
           || rejected (Answers.restrictedItems api)) in
  State.loading (fst out) = false
  /\ (failed = false <-> snd out = [])
  /\ (failed = true ->
      (exists m, snd out = [m])
      /\ fst out = State.mk false None None None None noCounts
      /\ kpis (fst out)
         = Kpis.mk (Js.Fin 0) (Js.Fin 0) (Js.Fin 0) (Js.Fin 0) (Js.Fin 0)
             (Js.Fin 0) (Js.Fin 0)
      /\ receivablesTrend cmp (fst out) = []
      /\ payrollPieData (kpis (fst out)) = []).
Proof.
  unfold DashboardHome.load. cbv zeta.
  destruct api as [c p pr ae el v cl g r]. cbn [Answers.cleared
    Answers.pending Answers.payroll Answers.assignEff Answers.empList
    Answers.vehicles Answers.clients Answers.generalItems
    Answers.restrictedItems].
  destruct (has "clients:view"%string), (has "payroll:view"%string),
    (has "fleet:view"%string), (has "inventory:view"%string);
    cbn [guarded andThen]; settle_requests;
    cbn [fst snd State.loading rejected orb andb];
    repeat (progress (rewrite ?orb_true_r; cbn [orb andb]));
    (split; [reflexivity|]);
    (split; [split; [intros H; first [reflexivity|discriminate H]
                    |intros H; first [reflexivity|discriminate H]]|]);
    intros H; try discriminate H;
    (split; [eexists; reflexivity|]); repeat split.
Qed.

(** What a user may not view never reaches the dashboard, whatever the
    server would answer and whether or not the load succeeds: without
    [clients:view] there is no receivables figure, no client count and
    no point in the trend; without [payroll:view] no payroll figure and
    no slice in the pie; without [fleet:view] no vehicle count and no
    distance or cost; without [inventory:view] no inventory count.  In
    every case the count of guns is part of the inventory total. *)
Theorem dashboard_permissions (has : string -> bool) (st : State.t)
    (api : Answers.t) (cmp : string -> string -> Z) :
  let st' := fst (DashboardHome.load has st api) in
  let k := kpis st' in
  (has "clients:view"%string = false ->
   State.clearedSummary st' = None /\ State.pendingSummary st' = None
   /\ Counts.clients (State.counts st') = 0
   /\ Kpis.receivablesPending k = Js.Fin 0
   /\ Kpis.receivablesCleared k = Js.Fin 0
   /\ receivablesTrend cmp st' = [])
  /\ (has "payroll:view"%string = false ->
      State.payrollReport st' = None
      /\ Kpis.payrollTotalNet k = Js.Fin 0
      /\ Kpis.payrollPaid k = Js.Fin 0
      /\ Kpis.payrollDue k = Js.Fin 0
      /\ payrollPieData k = [])
  /\ (has "fleet:view"%string = false ->
      State.assignmentMonthSummary st' = None
      /\ Counts.vehicles (State.counts st') = 0
      /\ Kpis.kmCovered k = Js.Fin 0
      /\ Kpis.assignmentCost k = Js.Fin 0)
  /\ (has "inventory:view"%string = false ->
      Counts.guns (State.counts st') = 0
      /\ Counts.inventoryTotal (State.counts st') = 0)
  /\ 0 <= Counts.guns (State.counts st')
  /\ Counts.guns (State.counts st') <= Counts.inventoryTotal (State.counts st').
Proof.
  unfold DashboardHome.load. cbv zeta.
  destruct api as [c p pr ae el v cl g r]. cbn [Answers.cleared
    Answers.pending Answers.payroll Answers.assignEff Answers.empList
    Answers.vehicles Answers.clients Answers.generalItems
    Answers.restrictedItems].
  destruct (has "clients:view"%string), (has "payroll:view"%string),
    (has "fleet:view"%string), (has "inventory:view"%string);
    cbn [guarded andThen]; settle_requests; cbn [fst];
    (split; [intros H; try discriminate H; repeat split|]);
    (split; [intros H; try discriminate H; repeat split|]);
    (split; [intros H; try discriminate H; repeat split|]);
    (split; [intros H; try discriminate H; repeat split|]);
    cbn [State.counts Counts.guns Counts.inventoryTotal noCounts];
    (split; count_bounds).
Qed.
